(** * Qlik Cloud Space Migration Tool: the migration orchestration engine

    A shallow embedding of [src/app.js]: the [QlikService] conflict
    detector, the [POST /api/migrations] handler (migration creation), the
    cancel handler, and [MigrationService.executeMigration], followed by the
    properties of the specification that concern them.  The embedding also
    covers [generateUUID], the tenant session handlers with the
    [getQlikService] middleware, the listing of migrations and
    [findAvailablePort]; the last part of the file proves further
    properties of the code.

    Conventions of the embedding.
    - A remote HTTP call either returns a body or throws: [Result].
    - Everything the program reads from outside (remote replies, the clock,
      [Math.random], cancellation requests arriving while the engine is
      suspended at an [await]) is supplied by an explicit oracle argument.
    - JavaScript numbers that hold counters are [nat]; clock readings are
      [Z] (milliseconds); the percentage is computed on binary64 floats,
      as JavaScript does.
    - The creation handler is embedded on request bodies all of whose
      items are objects ([createMigration]) and on bodies whose item list
      may also hold [null] ([createMigrationRaw]).
    - The in-memory [store] is a pair of finite maps keyed by migration
      id.  The engine mutates the very objects the store holds, so what a
      status request sees at an [await] is the engine's current
      [migration] and [items]; the embedding records those states in the
      execution trace. *)

From Stdlib Require Import ZArith Floats Uint63 String Ascii List Lia.
From stdpp Require Import base tactics option list strings pretty gmap sorting.

Local Open Scope string_scope.
Local Open Scope list_scope.
Local Open Scope nat_scope.

(** ** Results of remote calls *)

Inductive Result (A : Type) : Type :=
| Ok (value : A)
| Throw (message : string).
Arguments Ok {A} value.
Arguments Throw {A} message.

#[global] Instance Result_ret : MRet Result := fun A x => Ok x.
#[global] Instance Result_bind : MBind Result := fun A B f r =>
  match r with
  | Ok x => f x
  | Throw msg => Throw msg
  end.
#[global] Instance Result_fmap : FMap Result := fun A B f r =>
  match r with
  | Ok x => Ok (f x)
  | Throw msg => Throw msg
  end.

Definition throws {A} (r : Result A) : bool :=
  match r with
  | Ok _ => false
  | Throw _ => true
  end.

(** JavaScript truthiness of a possibly missing string: [undefined],
    [null] and the empty string are falsy. *)
Definition truthy (s : option string) : bool :=
  match s with
  | Some v => negb (String.eqb v "")
  | None => false
  end.

(** [a || b] on possibly missing strings. *)
Definition or_else (a b : option string) : option string :=
  if truthy a then a else b.

(** ** Data model *)

Inductive MigrationStatus : Type :=
| M_created | M_running | M_completed | M_failed | M_cancelled.

Inductive ItemStatus : Type :=
| I_pending | I_in_progress | I_completed | I_failed | I_skipped.

Inductive ConflictType : Type := NAME_EXISTS.

#[global] Instance MigrationStatus_eq_dec : EqDecision MigrationStatus.
Proof. solve_decision. Defined.
#[global] Instance ItemStatus_eq_dec : EqDecision ItemStatus.
Proof. solve_decision. Defined.

Record Options : Type := mkOptions {
  mode : option string;
  conflictStrategy : option string
}.

Record Progress : Type := mkProgress {
  p_migrationId : option string;
  p_total : nat;
  p_completed : nat;
  p_failed : nat;
  p_skipped : nat;
  p_percentage : Z;
  p_currentItem : option string
}.

Record Migration : Type := mkMigration {
  m_id : string;
  m_tenantId : string;
  m_sourceSpaceId : string;
  m_sourceSpaceName : string;
  m_targetSpaceId : string;
  m_targetSpaceName : string;
  m_status : MigrationStatus;
  m_options : Options;
  m_progress : Progress;
  m_createdAt : Z;
  m_startedAt : option Z;
  m_completedAt : option Z
}.

Record MigrationItem : Type := mkItem {
  i_id : string;
  i_migrationId : string;
  i_sourceId : string;
  i_itemType : string;
  i_name : string;
  i_sizeBytes : Z;
  i_status : ItemStatus;
  i_conflictType : option ConflictType;
  i_conflictResolution : option string;
  i_targetId : option string;
  i_errorMessage : option string;
  i_startedAt : option Z;
  i_completedAt : option Z
}.

(** Field assignments ([migration.status = ...], [item.status = ...]). *)
Definition set_m_status (v : MigrationStatus) (m : Migration) : Migration :=
  mkMigration (m_id m) (m_tenantId m) (m_sourceSpaceId m) (m_sourceSpaceName m)
    (m_targetSpaceId m) (m_targetSpaceName m) v (m_options m) (m_progress m)
    (m_createdAt m) (m_startedAt m) (m_completedAt m).

Definition set_m_progress (v : Progress) (m : Migration) : Migration :=
  mkMigration (m_id m) (m_tenantId m) (m_sourceSpaceId m) (m_sourceSpaceName m)
    (m_targetSpaceId m) (m_targetSpaceName m) (m_status m) (m_options m) v
    (m_createdAt m) (m_startedAt m) (m_completedAt m).

Definition set_m_startedAt (v : Z) (m : Migration) : Migration :=
  mkMigration (m_id m) (m_tenantId m) (m_sourceSpaceId m) (m_sourceSpaceName m)
    (m_targetSpaceId m) (m_targetSpaceName m) (m_status m) (m_options m)
    (m_progress m) (m_createdAt m) (Some v) (m_completedAt m).

Definition set_m_completedAt (v : Z) (m : Migration) : Migration :=
  mkMigration (m_id m) (m_tenantId m) (m_sourceSpaceId m) (m_sourceSpaceName m)
    (m_targetSpaceId m) (m_targetSpaceName m) (m_status m) (m_options m)
    (m_progress m) (m_createdAt m) (m_startedAt m) (Some v).

Definition set_i_status (v : ItemStatus) (it : MigrationItem) : MigrationItem :=
  mkItem (i_id it) (i_migrationId it) (i_sourceId it) (i_itemType it) (i_name it)
    (i_sizeBytes it) v (i_conflictType it) (i_conflictResolution it)
    (i_targetId it) (i_errorMessage it) (i_startedAt it) (i_completedAt it).

Definition set_i_startedAt (v : Z) (it : MigrationItem) : MigrationItem :=
  mkItem (i_id it) (i_migrationId it) (i_sourceId it) (i_itemType it) (i_name it)
    (i_sizeBytes it) (i_status it) (i_conflictType it) (i_conflictResolution it)
    (i_targetId it) (i_errorMessage it) (Some v) (i_completedAt it).

Definition set_i_completedAt (v : Z) (it : MigrationItem) : MigrationItem :=
  mkItem (i_id it) (i_migrationId it) (i_sourceId it) (i_itemType it) (i_name it)
    (i_sizeBytes it) (i_status it) (i_conflictType it) (i_conflictResolution it)
    (i_targetId it) (i_errorMessage it) (i_startedAt it) (Some v).

Definition set_i_targetId (v : option string) (it : MigrationItem) : MigrationItem :=
  mkItem (i_id it) (i_migrationId it) (i_sourceId it) (i_itemType it) (i_name it)
    (i_sizeBytes it) (i_status it) (i_conflictType it) (i_conflictResolution it)
    v (i_errorMessage it) (i_startedAt it) (i_completedAt it).

Definition set_i_errorMessage (v : string) (it : MigrationItem) : MigrationItem :=
  mkItem (i_id it) (i_migrationId it) (i_sourceId it) (i_itemType it) (i_name it)
    (i_sizeBytes it) (i_status it) (i_conflictType it) (i_conflictResolution it)
    (i_targetId it) (Some v) (i_startedAt it) (i_completedAt it).

(** ** The in-memory store ([const store], without the tenant sessions) *)

Record Store : Type := mkStore {
  migrations : gmap string Migration;
  migrationItems : gmap string (list MigrationItem)
}.

(** ** QlikService: the parts of the remote API the engine reads *)

Record Space : Type := mkSpace { space_name : string }.
Record Connection : Type := mkConnection { qID : string; qName : string }.
Record DataFilesConnection : Type := mkDFC { dfc_id : string; dfc_spaceId : string }.
Record DataFile : Type := mkDataFile {
  df_name : option string;
  df_baseName : option string;
  df_spaceId : string
}.

(** The replies of the remote system to the read-only requests, as
    functions of what the request URL carries.  Each reply is the [data]
    member of the response body, [None] when the body has none; a
    request that fails, or whose body cannot be read, throws. *)
Record Remote : Type := mkRemote {
  (** [GET /spaces/{spaceId}] *)
  GET_space : string -> Result Space;
  (** [GET /data-connections?noDatafiles=true[&spaceId=..]] *)
  GET_data_connections : option string -> Result (option (list Connection));
  (** [GET /data-files/connections] *)
  GET_data_files_connections : Result (option (list DataFilesConnection));
  (** [GET /data-files?limit=100(&connectionId=..|&includeAllSpaces=true)&includeFolders=..] *)
  GET_data_files : option string -> bool -> Result (option (list DataFile))
}.

Section QlikService.
Context (remote : Remote).

Definition getSpace (spaceId : string) : Result Space :=
  GET_space remote spaceId.

Definition listConnections (spaceId : option string) : Result (list Connection) :=
  let endpoint := if truthy spaceId then spaceId else None in
  result ← GET_data_connections remote endpoint;
  mret (default [] result).

(** [getDataFilesConnectionId], given the reply to its request. *)
Definition findDataFilesConnectionId
    (reply : Result (option (list DataFilesConnection))) (spaceId : string)
  : Result (option string) :=
  result ← reply;
  let connections := default [] result in
  mret (dfc_id <$> List.find (fun c => String.eqb (dfc_spaceId c) spaceId) connections).

Definition getDataFilesConnectionId (spaceId : string) : Result (option string) :=
  findDataFilesConnectionId (GET_data_files_connections remote) spaceId.

Definition listDataFiles (spaceId : string) (includeFolders : bool)
  : Result (list DataFile) :=
  connectionId ← getDataFilesConnectionId spaceId;
  let scoped := truthy connectionId in
  result ← GET_data_files remote (if scoped then connectionId else None) includeFolders;
  let files := default [] result in
  mret (if scoped then files
        else List.filter (fun f => String.eqb (df_spaceId f) spaceId) files).

Definition checkConnectionConflicts (targetSpaceId : string)
    (connectionNames : list string) : Result (list string) :=
  existing ← listConnections (Some targetSpaceId);
  let existingNames : gset string := list_to_set (qName <$> existing) in
  mret (List.filter (fun name => bool_decide (name ∈ existingNames)) connectionNames).

Definition checkFileConflicts (targetSpaceId : string)
    (fileNames : list string) : Result (list string) :=
  existing ← listDataFiles targetSpaceId true;
  let existingNames : gset string :=
    list_to_set (omap (fun f => or_else (df_name f) (df_baseName f)) existing) in
  mret (List.filter (fun name => bool_decide (name ∈ existingNames)) fileNames).
End QlikService.

(** ** Migration creation: the [POST /api/migrations] handler *)

(** One selected item of the request body. *)
Record Candidate : Type := mkCandidate {
  c_sourceId : string;
  c_itemType : string;
  c_name : string;
  c_sizeBytes : option Z
}.

(** The request body; a member the caller left out is [None]. *)
Record CreateBody : Type := mkCreateBody {
  b_sourceSpaceId : option string;
  b_targetSpaceId : option string;
  b_items : option (list Candidate);
  b_options : option Options
}.

Record Conflict : Type := mkConflict {
  conflict_name : string;
  conflict_type : ConflictType
}.

Record CreateReply : Type := mkCreateReply {
  reply_migration : Migration;
  reply_items : list MigrationItem;
  reply_conflicts : list Conflict
}.

(** What a handler sends back: [res.json(body)] or
    [res.status(code).json({ error })]. *)
Inductive Response (A : Type) : Type :=
| Json (body : A)
| Status (code : nat) (error : string).
Arguments Json {A} body.
Arguments Status {A} code error.

(** [!sourceSpaceId || !targetSpaceId || !items?.length] is false. *)
Definition required_fields (body : CreateBody)
  : option (string * string * list Candidate) :=
  match b_sourceSpaceId body, b_targetSpaceId body, b_items body with
  | Some sourceSpaceId, Some targetSpaceId, Some items =>
      if truthy (Some sourceSpaceId) && truthy (Some targetSpaceId)
         && negb (Nat.eqb (length items) 0)
      then Some (sourceSpaceId, targetSpaceId, items)
      else None
  | _, _, _ => None
  end.

(** [options?.conflictStrategy || 'skip'] *)
Definition chosen_strategy (options : option Options) : string :=
  default "skip" (or_else (options ≫= conflictStrategy) None).

(** [allConflicts.includes(name)] *)
Definition includes (l : list string) (name : string) : bool :=
  existsb (String.eqb name) l.

(** The body of [items.map(item => ({ ... }))]; [uuid] is the value
    [generateUUID()] returns for this item. *)
Definition new_item (migrationId : string) (allConflicts : list string)
    (options : option Options) (uuid : string) (item : Candidate) : MigrationItem :=
  {| i_id := uuid;
     i_migrationId := migrationId;
     i_sourceId := c_sourceId item;
     i_itemType := c_itemType item;
     i_name := c_name item;
     i_sizeBytes := default 0%Z (c_sizeBytes item);
     i_status := I_pending;
     i_conflictType :=
       if includes allConflicts (c_name item) then Some NAME_EXISTS else None;
     i_conflictResolution :=
       if includes allConflicts (c_name item) then Some (chosen_strategy options)
       else None;
     i_targetId := None;
     i_errorMessage := None;
     i_startedAt := None;
     i_completedAt := None |}.

Definition initial_progress (total : nat) : Progress :=
  {| p_migrationId := None; p_total := total; p_completed := 0; p_failed := 0;
     p_skipped := 0; p_percentage := 0; p_currentItem := None |}.

Definition connNames (items : list Candidate) : list string :=
  c_name <$> List.filter (fun i => String.eqb (c_itemType i) "connection") items.

Definition fileNames (items : list Candidate) : list string :=
  c_name <$> List.filter (fun i => negb (String.eqb (c_itemType i) "connection")) items.

(** Everything the handler awaits before it builds the migration. *)
Definition resolve_and_detect (remote : Remote)
    (sourceSpaceId targetSpaceId : string) (items : list Candidate)
  : Result (Space * Space * list string) :=
  sourceSpace ← getSpace remote sourceSpaceId;
  targetSpace ← getSpace remote targetSpaceId;
  connConflicts ← checkConnectionConflicts remote targetSpaceId (connNames items);
  fileConflicts ← checkFileConflicts remote targetSpaceId (fileNames items);
  mret (sourceSpace, targetSpace, (connConflicts ++ fileConflicts)%list).

(** [generateUUID] draws from [Math.random]: the handler's successive
    calls are [uuid 0] (the migration id), then [uuid 1], [uuid 2], ... for
    the items in order; [now] is the clock at [createdAt]. *)
Definition createMigration (remote : Remote) (uuid : nat -> string) (now : Z)
    (tenantId : string) (body : CreateBody) (store : Store)
  : Response CreateReply * Store :=
  match required_fields body with
  | None => (Status 400 "Missing required fields", store)
  | Some (sourceSpaceId, targetSpaceId, items) =>
      match resolve_and_detect remote sourceSpaceId targetSpaceId items with
      | Throw message => (Status 500 message, store)
      | Ok (sourceSpace, targetSpace, allConflicts) =>
          let migrationId := uuid 0 in
          let migration :=
            {| m_id := migrationId;
               m_tenantId := tenantId;
               m_sourceSpaceId := sourceSpaceId;
               m_sourceSpaceName := space_name sourceSpace;
               m_targetSpaceId := targetSpaceId;
               m_targetSpaceName := space_name targetSpace;
               m_status := M_created;
               m_options :=
                 default (mkOptions (Some "copy") (Some "skip")) (b_options body);
               m_progress := initial_progress (length items);
               m_createdAt := now;
               m_startedAt := None;
               m_completedAt := None |} in
          let createdItems :=
            imap (fun k item =>
                    new_item migrationId allConflicts (b_options body) (uuid (S k)) item)
                 items in
          (Json {| reply_migration := migration;
                   reply_items := createdItems;
                   reply_conflicts :=
                     (fun name => mkConflict name NAME_EXISTS) <$> allConflicts |},
           {| migrations := <[migrationId := migration]> (migrations store);
              migrationItems := <[migrationId := createdItems]> (migrationItems store) |})
      end
  end.

(** ** Status query and cancellation handlers *)

(** [GET /api/migrations/:migrationId] *)
Definition getMigrationStatus (migrationId : string) (store : Store)
  : Response (Migration * option (list MigrationItem)) :=
  match migrations store !! migrationId with
  | None => Status 404 "Not found"
  | Some migration => Json (migration, migrationItems store !! migrationId)
  end.

(** [POST /api/migrations/:migrationId/cancel] *)
Definition cancelMigration (migrationId : string) (store : Store)
  : Response Migration * Store :=
  match migrations store !! migrationId with
  | None => (Status 404 "Not found", store)
  | Some migration =>
      let migration := set_m_status M_cancelled migration in
      (Json migration,
       {| migrations := <[migrationId := migration]> (migrations store);
          migrationItems := migrationItems store |})
  end.

(** ** The progress percentage: [Math.round((completed / total) * 100)] *)

(** A counter as a JavaScript number (exact below [2^53]). *)
Definition number (n : nat) : float :=
  PrimFloat.of_uint63 (Uint63.of_Z (Z.of_nat n)).

(** [Math.round]: the integer nearest to the argument, a tie going to the
    larger one; computed exactly from the mantissa and exponent of the
    binary64 argument.  [NaN] and the infinities, which [Math.round]
    returns unchanged, are rendered as [0]; the engine only rounds
    [completed / total] with [total >= 1]. *)
Definition Math_round (x : float) : Z :=
  match Prim2SF x with
  | S754_finite sign m e =>
      let mantissa := if sign then Z.neg m else Z.pos m in
      if (0 <=? e)%Z then (mantissa * 2 ^ e)%Z
      else ((2 * mantissa + 2 ^ (- e)) / 2 ^ (1 - e))%Z
  | _ => 0%Z
  end.

Definition js_percentage (completed total : nat) : Z :=
  Math_round (PrimFloat.mul (PrimFloat.div (number completed) (number total))
                            (number 100)).

(** ** MigrationService.executeMigration *)

(** The write requests the engine sends, with the payload of each. *)
Inductive RemoteCall : Type :=
| DuplicateConnection (sourceId targetSpaceId : string) (name : option string)
| CopyDataFile (sourceId : string) (connectionId : option string) (name : string)
| CopyFolder (sourceId : string) (connectionId : option string) (name : string).

(** [QlikService.duplicateConnection]: [name] enters the payload only
    when [newName] is truthy. *)
Definition duplicateConnection (sourceId targetSpaceId : string)
    (newName : option string) : RemoteCall :=
  DuplicateConnection sourceId targetSpaceId (if truthy newName then newName else None).

Definition copyDataFile (sourceId : string) (targetConnectionId : option string)
    (fileName : string) : RemoteCall :=
  CopyDataFile sourceId targetConnectionId fileName.

Definition copyFolder (sourceId : string) (targetConnectionId : option string)
    (folderName : string) : RemoteCall :=
  CopyFolder sourceId targetConnectionId folderName.

(** The body of a successful reply: the members the engine reads. *)
Record CopyReply : Type := mkCopyReply {
  reply_qID : option string;
  reply_id : option string
}.

(** What happens during an execution, in order. *)
Inductive Event : Type :=
| Notified (progress : Progress)
  (** [progressCallback] was invoked *)
| Called (index : nat) (call : RemoteCall)
  (** a remote write was sent for [items[index]] *)
| Suspended (migration : Migration) (items : list MigrationItem)
  (** the engine yields (an [await], or the end of the run): other
      handlers run and see this state *)
| CancelRequested.
  (** the cancel handler ran for this migration during an [await] *)

(** What the outside supplies while one item is processed.  [o_reply]
    is [Throw] for anything that raises inside the [try] block: a failed
    request, or a reply whose body cannot be read. *)
Record ItemOracle : Type := mkItemOracle {
  o_startedAt : Z;          (** the clock at [item.startedAt] *)
  o_dateNow : Z;            (** [Date.now()] in the rename branch *)
  o_reply : Result CopyReply; (** how the remote write, if sent, ends *)
  o_completedAt : Z;        (** the clock at [item.completedAt] *)
  o_cancelDuringCall : bool;  (** a cancel request arrives during the write *)
  o_cancelDuringDelay : bool  (** a cancel request arrives during the 200 ms delay *)
}.

(** What the outside supplies to one execution. *)
Record ExecOracle : Type := mkExecOracle {
  x_startedAt : Z;
  x_connections : Result (option (list DataFilesConnection));
    (** the reply to [GET /data-files/connections] *)
  x_cancelDuringResolve : bool;
  x_item : nat -> ItemOracle;
  x_completedAt : Z
}.

(** The engine's variables: the [migration] and [items] objects (shared
    with the store), the three counters, and the events so far. *)
Record Engine : Type := mkEngine {
  e_migration : Migration;
  e_items : list MigrationItem;
  e_completed : nat;
  e_failed : nat;
  e_skipped : nat;
  e_trace : list Event
}.

Definition emit (ev : Event) (s : Engine) : Engine :=
  mkEngine (e_migration s) (e_items s) (e_completed s) (e_failed s) (e_skipped s)
    (e_trace s ++ [ev])%list.

Definition with_migration (m : Migration) (s : Engine) : Engine :=
  mkEngine m (e_items s) (e_completed s) (e_failed s) (e_skipped s) (e_trace s).

(** [items[index]] now holds [item] (the object was assigned to). *)
Definition store_item (index : nat) (item : MigrationItem) (s : Engine) : Engine :=
  mkEngine (e_migration s) (<[index := item]> (e_items s)) (e_completed s)
    (e_failed s) (e_skipped s) (e_trace s).

Definition count_completed (s : Engine) : Engine :=
  mkEngine (e_migration s) (e_items s) (S (e_completed s)) (e_failed s)
    (e_skipped s) (e_trace s).

Definition count_failed (s : Engine) : Engine :=
  mkEngine (e_migration s) (e_items s) (e_completed s) (S (e_failed s))
    (e_skipped s) (e_trace s).

Definition count_skipped (s : Engine) : Engine :=
  mkEngine (e_migration s) (e_items s) (e_completed s) (e_failed s)
    (S (e_skipped s)) (e_trace s).

(** An [await]: the current state is visible to other handlers; if the
    cancel handler runs meanwhile it sets [migration.status], and the
    state after it is visible too. *)
Definition suspend (cancelRequest : bool) (s : Engine) : Engine :=
  let s := emit (Suspended (e_migration s) (e_items s)) s in
  if cancelRequest then
    let s := emit CancelRequested
               (with_migration (set_m_status M_cancelled (e_migration s)) s) in
    emit (Suspended (e_migration s) (e_items s)) s
  else s.

(** The callback the start handler installs: [m.progress = progress]. *)
Definition progressCallback (progress : Progress) (s : Engine) : Engine :=
  emit (Notified progress)
    (with_migration (set_m_progress progress (e_migration s)) s).

Definition has_conflict (item : MigrationItem) : bool :=
  match i_conflictType item with
  | Some _ => true
  | None => false
  end.

Definition resolution_is (item : MigrationItem) (strategy : string) : bool :=
  match i_conflictResolution item with
  | Some r => String.eqb r strategy
  | None => false
  end.

(** [newName] of the loop body. *)
Definition effective_name (item : MigrationItem) (dateNow : Z) : string :=
  if has_conflict item && resolution_is item "rename"
  then i_name item +:+ "_copy_" +:+ pretty dateNow
  else i_name item.

(** The remote write chosen by [item.itemType], if any. *)
Definition dispatch (targetSpaceId : string) (targetConnectionId : option string)
    (item : MigrationItem) (newName : string) : option RemoteCall :=
  if String.eqb (i_itemType item) "connection" then
    Some (duplicateConnection (i_sourceId item) targetSpaceId
            (if negb (String.eqb newName (i_name item)) then Some newName else None))
  else if String.eqb (i_itemType item) "folder" then
    Some (copyFolder (i_sourceId item) targetConnectionId newName)
  else if String.eqb (i_itemType item) "file" then
    Some (copyDataFile (i_sourceId item) targetConnectionId newName)
  else None.

(** [result.qID] for a connection, [result.id] otherwise. *)
Definition assigned_id (item : MigrationItem) (reply : CopyReply) : option string :=
  if String.eqb (i_itemType item) "connection" then reply_qID reply
  else reply_id reply.

(** [item.status = 'in_progress'; item.startedAt = new Date()...] *)
Definition started (o : ItemOracle) (item : MigrationItem) : MigrationItem :=
  set_i_startedAt (o_startedAt o) (set_i_status I_in_progress item).

(** One pass through the body of [for (const item of items)]. *)
Definition iteration (o : ItemOracle) (total : nat)
    (targetConnectionId : option string) (index : nat) (s : Engine) : Engine :=
  match e_items s !! index with
  | None => s
  | Some item =>
      if decide (m_status (e_migration s) = M_cancelled) then
        count_skipped (store_item index (set_i_status I_skipped item) s)
      else
        let s := progressCallback
                   {| p_migrationId := Some (m_id (e_migration s));
                      p_total := total;
                      p_completed := e_completed s;
                      p_failed := e_failed s;
                      p_skipped := e_skipped s;
                      p_percentage := js_percentage (e_completed s) total;
                      p_currentItem := Some (i_name item) |} s in
        let item := started o item in
        let s := store_item index item s in
        if has_conflict item && resolution_is item "skip" then
          count_skipped (store_item index (set_i_status I_skipped item) s)
        else
          let newName := effective_name item (o_dateNow o) in
          let completes (item : MigrationItem) (s : Engine) : Engine :=
            count_completed
              (store_item index
                 (set_i_completedAt (o_completedAt o) (set_i_status I_completed item)) s) in
          let s :=
            match dispatch (m_targetSpaceId (e_migration s)) targetConnectionId
                    item newName with
            | None => completes item s
            | Some call =>
                let s := suspend (o_cancelDuringCall o) (emit (Called index call) s) in
                match o_reply o with
                | Ok reply => completes (set_i_targetId (assigned_id item reply) item) s
                | Throw message =>
                    count_failed
                      (store_item index
                         (set_i_completedAt (o_completedAt o)
                            (set_i_errorMessage message (set_i_status I_failed item))) s)
                end
            end in
          suspend (o_cancelDuringDelay o) s
  end.

(** The state when the loop has gone through [items[0..k-1]]. *)
Definition run_items (x : ExecOracle) (total : nat)
    (targetConnectionId : option string) (k : nat) (s : Engine) : Engine :=
  foldl (fun s index => iteration (x_item x index) total targetConnectionId index s)
    s (seq 0 k).

(** The statements before the first [await]. *)
Definition begin (x : ExecOracle) (migration : Migration)
    (items : list MigrationItem) : Engine :=
  {| e_migration := set_m_startedAt (x_startedAt x) (set_m_status M_running migration);
     e_items := items; e_completed := 0; e_failed := 0; e_skipped := 0;
     e_trace := [] |}.

(** The statements after the loop. *)
Definition finish (x : ExecOracle) (total : nat) (s : Engine) : Engine :=
  let migration :=
    set_m_progress
      {| p_migrationId := None; p_total := total; p_completed := e_completed s;
         p_failed := e_failed s; p_skipped := e_skipped s; p_percentage := 100;
         p_currentItem := None |}
      (set_m_completedAt (x_completedAt x)
         (set_m_status (if Nat.eqb (e_failed s) total then M_failed else M_completed)
            (e_migration s))) in
  let s := with_migration migration s in
  emit (Suspended (e_migration s) (e_items s)) s.

#[global] Arguments js_percentage : simpl never.
#[global] Arguments effective_name : simpl never.
#[global] Arguments dispatch : simpl never.
#[global] Arguments assigned_id : simpl never.
#[global] Arguments started : simpl never.

(** How the promise [executeMigration] returns settles. *)
Inductive Outcome : Type :=
| Resolved (s : Engine)
| Rejected (message : string) (s : Engine).

Definition settled (o : Outcome) : Engine :=
  match o with
  | Resolved s => s
  | Rejected _ s => s
  end.

(** The state in which the loop starts, when the connection id resolved. *)
Definition at_loop_start (x : ExecOracle) (migration : Migration)
    (items : list MigrationItem) : Engine :=
  suspend (x_cancelDuringResolve x) (begin x migration items).

Definition executeMigration (x : ExecOracle) (migration : Migration)
    (items : list MigrationItem) : Outcome :=
  let total := length items in
  let s := at_loop_start x migration items in
  match findDataFilesConnectionId (x_connections x) (m_targetSpaceId migration) with
  | Throw message => Rejected message s
  | Ok targetConnectionId =>
      Resolved (finish x total (run_items x total targetConnectionId total s))
  end.

(** [POST /api/migrations/:migrationId/start]; the store returned is the
    one left when the execution it launches has settled. *)
Definition startMigration (x : ExecOracle) (migrationId : string) (store : Store)
  : Response Migration * Store :=
  match migrations store !! migrationId with
  | None => (Status 404 "Not found", store)
  | Some migration =>
      if decide (m_status migration = M_created) then
        match migrationItems store !! migrationId with
        | None =>
            (* [items.length] throws before anything is assigned *)
            (Json migration, store)
        | Some items =>
            let s := settled (executeMigration x migration items) in
            (Json (e_migration (begin x migration items)),
             {| migrations := <[migrationId := e_migration s]> (migrations store);
                migrationItems := <[migrationId := e_items s]> (migrationItems store) |})
        end
      else (Status 400 "Already started", store)
  end.

(** ** Vocabulary of the specification *)

(** A required member of the creation request is missing. *)
Definition missing_fields (body : CreateBody) : Prop :=
  truthy (b_sourceSpaceId body) = false
  ∨ truthy (b_targetSpaceId body) = false
  ∨ default [] (b_items body) = [].

(** Resolving the source or the target space fails. *)
Definition space_resolution_fails (remote : Remote) (body : CreateBody) : Prop :=
  throws (getSpace remote (default "" (b_sourceSpaceId body))) = true
  ∨ throws (getSpace remote (default "" (b_targetSpaceId body))) = true.

(** One of the two listings of the conflict detector fails. *)
Definition conflict_listing_fails (remote : Remote) (body : CreateBody) : Prop :=
  throws (listConnections remote (b_targetSpaceId body)) = true
  ∨ throws (listDataFiles remote (default "" (b_targetSpaceId body)) true) = true.

(** The creation handler answered with an error and left the store as it was. *)
Definition creation_failed (result : Response CreateReply * Store) (store : Store) : Prop :=
  (∃ code error, result.1 = Status code error) ∧ result.2 = store.

(** The conflicts to be detected for the candidates against what the
    target space lists: the names of the selected connections that are the
    name of a listed connection, then the names of the other selected items
    that a listed file or folder answers to (by its name, or by its base
    name when it has no name), each in the order selected and tagged
    NAME_EXISTS. *)
Definition detected_conflicts (connections : list Connection)
    (files : list DataFile) (candidates : list Candidate) : list Conflict :=
  (fun name => mkConflict name NAME_EXISTS)
  <$> (filter (fun name => name ∈ qName <$> connections)
         (c_name <$> filter (fun c => c_itemType c = "connection") candidates)
       ++ filter (fun name =>
                    Some name
                    ∈ (fun f => or_else (df_name f) (df_baseName f)) <$> files)
            (c_name <$> filter (fun c => c_itemType c ≠ "connection") candidates)).

(** The creation handler stored and returned a new migration in status
    [created] with one item per candidate, and it returned the conflicts
    detected against the two listings of the target space. *)
Definition creation_persisted (remote : Remote)
    (result : Response CreateReply * Store) (body : CreateBody) : Prop :=
  ∃ reply,
    result.1 = Json reply
    ∧ m_status (reply_migration reply) = M_created
    ∧ length (reply_items reply) = length (default [] (b_items body))
    ∧ i_name <$> reply_items reply = c_name <$> default [] (b_items body)
    ∧ migrations result.2 !! m_id (reply_migration reply) = Some (reply_migration reply)
    ∧ migrationItems result.2 !! m_id (reply_migration reply) = Some (reply_items reply)
    ∧ (∀ name, name ∈ (conflict_name <$> reply_conflicts reply)
               ↔ ∃ item, item ∈ reply_items reply ∧ i_name item = name
                         ∧ i_conflictType item = Some NAME_EXISTS)
    ∧ (∃ connections files,
         listConnections remote (b_targetSpaceId body) = Ok connections
         ∧ listDataFiles remote (default "" (b_targetSpaceId body)) true = Ok files
         ∧ reply_conflicts reply
           = detected_conflicts connections files (default [] (b_items body))).

(** ** The creation request as it arrives *)

(** The handler is given whatever JSON the client sent.  The members are
    as in [CreateBody], except that an element of [items] may be [null]
    instead of an item object. *)
Record RawCreateBody : Type := mkRawCreateBody {
  rb_sourceSpaceId : option string;
  rb_targetSpaceId : option string;
  rb_items : option (list (option Candidate));
  rb_options : option Options
}.

(** The body with the [null] elements of [items] left out. *)
Definition item_objects (raw : RawCreateBody) : CreateBody :=
  {| b_sourceSpaceId := rb_sourceSpaceId raw;
     b_targetSpaceId := rb_targetSpaceId raw;
     b_items := match rb_items raw with
                | Some items => Some (omap (fun item : option Candidate => item) items)
                | None => None
                end;
     b_options := rb_options raw |}.

(** [!sourceSpaceId || !targetSpaceId || !items?.length] is false. *)
Definition raw_required_fields (raw : RawCreateBody) : option (string * string) :=
  match rb_sourceSpaceId raw, rb_targetSpaceId raw, rb_items raw with
  | Some sourceSpaceId, Some targetSpaceId, Some items =>
      if truthy (Some sourceSpaceId) && truthy (Some targetSpaceId)
         && negb (Nat.eqb (length items) 0)
      then Some (sourceSpaceId, targetSpaceId)
      else None
  | _, _, _ => None
  end.

(** [POST /api/migrations] on such a body.  When every element of
    [items] is an object the handler runs as [createMigration] does.
    Otherwise, once the required fields are found present and the two
    spaces are resolved, the callback of the first [items.filter] reads
    [i.itemType] of [null]: a [TypeError], with the runtime's message
    [typeError], which the handler's [catch] answers with 500. *)
Definition createMigrationRaw (typeError : string) (remote : Remote)
    (uuid : nat -> string) (now : Z) (tenantId : string) (raw : RawCreateBody)
    (store : Store) : Response CreateReply * Store :=
  if forallb (fun item : option Candidate => bool_decide (is_Some item))
       (default [] (rb_items raw))
  then createMigration remote uuid now tenantId (item_objects raw) store
  else
    match raw_required_fields raw with
    | None => (Status 400 "Missing required fields", store)
    | Some (sourceSpaceId, targetSpaceId) =>
        match (sourceSpace ← getSpace remote sourceSpaceId;
               getSpace remote targetSpaceId) with
        | Throw message => (Status 500 message, store)
        | Ok _ => (Status 500 typeError, store)
        end
    end.

(** A required member of the request as it arrives is missing. *)
Definition raw_missing_fields (raw : RawCreateBody) : Prop :=
  truthy (rb_sourceSpaceId raw) = false
  ∨ truthy (rb_targetSpaceId raw) = false
  ∨ default [] (rb_items raw) = [].

(** An element of the item list is [null]. *)
Definition has_null_item (raw : RawCreateBody) : Prop :=
  None ∈ default [] (rb_items raw).

(** ** Sample data *)

Definition space_S : Space := mkSpace "Source".
Definition space_T : Space := mkSpace "Target".

(** A tenant whose target space ["T"] holds one connection, ["DB1"], and
    no file. *)
Definition remote_DB1 : Remote :=
  {| GET_space := fun spaceId =>
       if String.eqb spaceId "S" then Ok space_S
       else if String.eqb spaceId "T" then Ok space_T
       else Throw "Request failed with status code 404";
     GET_data_connections := fun spaceId =>
       if truthy spaceId && String.eqb (default "" spaceId) "T"
       then Ok (Some [mkConnection "conn-9" "DB1"])
       else Ok (Some []);
     GET_data_files_connections := Ok (Some [mkDFC "dfc-T" "T"; mkDFC "dfc-S" "S"]);
     GET_data_files := fun _ _ => Ok (Some []) |}.

(** A tenant whose target space ["T"] holds one file, ["DB1"], and no
    connection. *)
Definition remote_file_DB1 : Remote :=
  {| GET_space := GET_space remote_DB1;
     GET_data_connections := fun _ => Ok (Some []);
     GET_data_files_connections := GET_data_files_connections remote_DB1;
     GET_data_files := fun connectionId _ =>
       if String.eqb (default "" connectionId) "dfc-T"
       then Ok (Some [mkDataFile (Some "DB1") None "T"])
       else Ok (Some []) |}.

(** The spaces resolve but the connection listing is refused. *)
Definition remote_listing_down : Remote :=
  {| GET_space := GET_space remote_DB1;
     GET_data_connections := fun _ => Throw "Request failed with status code 503";
     GET_data_files_connections := GET_data_files_connections remote_DB1;
     GET_data_files := GET_data_files remote_DB1 |}.

Definition sample_uuid (n : nat) : string := "uuid-" +:+ pretty n.

Definition empty_store : Store := {| migrations := ∅; migrationItems := ∅ |}.

(** A connection and a file, both named ["DB1"]. *)
Definition body_same_name : CreateBody :=
  {| b_sourceSpaceId := Some "S";
     b_targetSpaceId := Some "T";
     b_items := Some [mkCandidate "c1" "connection" "DB1" None;
                      mkCandidate "f1" "file" "DB1" (Some 500%Z)];
     b_options := None |}.

(** The scenario of the specification: connection ["DB1"] and file
    ["report.csv"]. *)
Definition body_scenario (strategy : string) : CreateBody :=
  {| b_sourceSpaceId := Some "S";
     b_targetSpaceId := Some "T";
     b_items := Some [mkCandidate "c1" "connection" "DB1" None;
                      mkCandidate "f1" "file" "report.csv" (Some 500%Z)];
     b_options := Some (mkOptions (Some "copy") (Some strategy)) |}.

(** C8 as the specification words it: the only causes of failure are a
    missing field and a space that does not resolve. *)
Definition createMigration_fails_only_as_listed (remote : Remote)
    (uuid : nat -> string) (now : Z) (tenantId : string) (body : CreateBody)
    (store : Store) : Prop :=
  let result := createMigration remote uuid now tenantId body store in
  let blocked := missing_fields body ∨ space_resolution_fails remote body in
  (blocked → creation_failed result store)
  ∧ (¬ blocked → creation_persisted remote result body).

(** [body_same_name] as it arrives, and the same with a [null] in the
    place of the file. *)
Definition raw_same_name : RawCreateBody :=
  {| rb_sourceSpaceId := Some "S";
     rb_targetSpaceId := Some "T";
     rb_items := Some [Some (mkCandidate "c1" "connection" "DB1" None);
                       Some (mkCandidate "f1" "file" "DB1" (Some 500%Z))];
     rb_options := None |}.

Definition raw_null_item : RawCreateBody :=
  {| rb_sourceSpaceId := Some "S";
     rb_targetSpaceId := Some "T";
     rb_items := Some [Some (mkCandidate "c1" "connection" "DB1" None); None];
     rb_options := None |}.

(** A store holding one migration that already ran to completion. *)
Definition finished_migration : Migration :=
  {| m_id := "uuid-0"; m_tenantId := "tenant"; m_sourceSpaceId := "S";
     m_sourceSpaceName := "Source"; m_targetSpaceId := "T";
     m_targetSpaceName := "Target"; m_status := M_completed;
     m_options := mkOptions (Some "copy") (Some "skip");
     m_progress := mkProgress None 1 1 0 0 100 None;
     m_createdAt := 1000; m_startedAt := Some 2000%Z; m_completedAt := Some 3000%Z |}.

Definition finished_store : Store :=
  {| migrations := {[ "uuid-0" := finished_migration ]};
     migrationItems := {[ "uuid-0" := [] ]} |}.

(** ** Vocabulary of the specification: execution *)

(** An item has reached one of its three final statuses. *)
Definition item_done (st : ItemStatus) : Prop :=
  st = I_completed ∨ st = I_failed ∨ st = I_skipped.

(** The terminal statuses of a migration. *)
Definition terminal (st : MigrationStatus) : Prop :=
  st = M_completed ∨ st = M_failed.

(** How many of the items are in status [st]. *)
Definition tally (st : ItemStatus) (l : list MigrationItem) : nat :=
  length (filter (fun item => i_status item = st) l).

(** The members of an item the engine never assigns. *)
Definition same_static (a b : MigrationItem) : Prop :=
  i_id a = i_id b ∧ i_migrationId a = i_migrationId b
  ∧ i_sourceId a = i_sourceId b ∧ i_itemType a = i_itemType b
  ∧ i_name a = i_name b ∧ i_sizeBytes a = i_sizeBytes b
  ∧ i_conflictType a = i_conflictType b
  ∧ i_conflictResolution a = i_conflictResolution b.

(** The counters of [s'] are those of [s] with the one for [st] advanced. *)
Definition bumped (st : ItemStatus) (s s' : Engine) : Prop :=
  match st with
  | I_completed =>
      e_completed s' = S (e_completed s) ∧ e_failed s' = e_failed s
      ∧ e_skipped s' = e_skipped s
  | I_failed =>
      e_completed s' = e_completed s ∧ e_failed s' = S (e_failed s)
      ∧ e_skipped s' = e_skipped s
  | I_skipped =>
      e_completed s' = e_completed s ∧ e_failed s' = e_failed s
      ∧ e_skipped s' = S (e_skipped s)
  | _ => False
  end.

(** The notification the loop sends before it processes [item] in state [s]. *)
Definition notification (total : nat) (item : MigrationItem) (s : Engine) : Progress :=
  {| p_migrationId := Some (m_id (e_migration s));
     p_total := total;
     p_completed := e_completed s;
     p_failed := e_failed s;
     p_skipped := e_skipped s;
     p_percentage := js_percentage (e_completed s) total;
     p_currentItem := Some (i_name item) |}.


(** What one pass of the loop over [item], begun in state [s] with the
    migration not cancelled, may add to the trace after its
    notification. *)
Definition pass_event (o : ItemOracle) (total : nat)
    (targetConnectionId : option string) (index : nat) (item : MigrationItem)
    (s : Engine) (ev : Event) : Prop :=
  match ev with
  | Notified _ => False
  | Called j call =>
      j = index
      ∧ has_conflict item && resolution_is item "skip" = false
      ∧ dispatch (m_targetSpaceId (e_migration s)) targetConnectionId item
          (effective_name item (o_dateNow o)) = Some call
  | Suspended m its =>
      m_progress m = notification total item s
      ∧ (m_status m = m_status (e_migration s) ∨ m_status m = M_cancelled)
      ∧ length its = length (e_items s)
  | CancelRequested => True
  end.


(** The engine state when the loop reaches [items[k]], in an execution
    whose connection id resolved to [targetConnectionId]. *)
Definition state_before (x : ExecOracle) (migration : Migration)
    (items : list MigrationItem) (targetConnectionId : option string) (k : nat)
  : Engine :=
  run_items x (length items) targetConnectionId k (at_loop_start x migration items).

(** The progress counts stay within the number of items. *)
Definition counts_within (total : nat) (p : Progress) : Prop :=
  p_total p = total ∧ p_completed p + p_failed p + p_skipped p ≤ total.

(** What a status request may see: counts within the total; at a terminal
    status the counts add up to the total, and they are the numbers of
    items in each of the three final statuses. *)
Definition snapshot_ok (total : nat) (m : Migration) (its : list MigrationItem)
  : Prop :=
  counts_within total (m_progress m)
  ∧ (terminal (m_status m) →
     p_completed (m_progress m) + p_failed (m_progress m) + p_skipped (m_progress m)
     = total
     ∧ length its = total
     ∧ Forall (fun item => item_done (i_status item)) its
     ∧ p_completed (m_progress m) = tally I_completed its
     ∧ p_failed (m_progress m) = tally I_failed its
     ∧ p_skipped (m_progress m) = tally I_skipped its).

(** The name a remote write carries, if it carries one. *)
Definition call_name (call : RemoteCall) : option string :=
  match call with
  | DuplicateConnection _ _ name => name
  | CopyDataFile _ _ name => Some name
  | CopyFolder _ _ name => Some name
  end.


(** The migration and the items [createMigration] builds for
    [body_scenario strategy] against [remote_DB1]. *)
Definition scenario_migration (strategy : string) : Migration :=
  {| m_id := "uuid-0"; m_tenantId := "tenant"; m_sourceSpaceId := "S";
     m_sourceSpaceName := "Source"; m_targetSpaceId := "T";
     m_targetSpaceName := "Target"; m_status := M_created;
     m_options := mkOptions (Some "copy") (Some strategy);
     m_progress := initial_progress 2;
     m_createdAt := 1000; m_startedAt := None; m_completedAt := None |}.

Definition scenario_connection (strategy : string) : MigrationItem :=
  {| i_id := "uuid-1"; i_migrationId := "uuid-0"; i_sourceId := "c1";
     i_itemType := "connection"; i_name := "DB1"; i_sizeBytes := 0;
     i_status := I_pending; i_conflictType := Some NAME_EXISTS;
     i_conflictResolution := Some strategy; i_targetId := None;
     i_errorMessage := None; i_startedAt := None; i_completedAt := None |}.

Definition scenario_file : MigrationItem :=
  {| i_id := "uuid-2"; i_migrationId := "uuid-0"; i_sourceId := "f1";
     i_itemType := "file"; i_name := "report.csv"; i_sizeBytes := 500;
     i_status := I_pending; i_conflictType := None;
     i_conflictResolution := None; i_targetId := None;
     i_errorMessage := None; i_startedAt := None; i_completedAt := None |}.

Definition scenario_items (strategy : string) : list MigrationItem :=
  [scenario_connection strategy; scenario_file].

(** An outside world in which every remote call succeeds and nobody
    cancels; the clock advances with the item index. *)
Definition calm_item (k : nat) : ItemOracle :=
  {| o_startedAt := 2000 + 300 * Z.of_nat k;
     o_dateNow := 1700000000000 + 300 * Z.of_nat k;
     o_reply := Ok (mkCopyReply (Some "conn-new") (Some "file-new"));
     o_completedAt := 2100 + 300 * Z.of_nat k;
     o_cancelDuringCall := false;
     o_cancelDuringDelay := false |}.

Definition calm_oracle : ExecOracle :=
  {| x_startedAt := 1900;
     x_connections := Ok (Some [mkDFC "dfc-T" "T"; mkDFC "dfc-S" "S"]);
     x_cancelDuringResolve := false;
     x_item := calm_item;
     x_completedAt := 9000 |}.

(** The same, but every remote write is refused. *)
Definition refusing_oracle : ExecOracle :=
  {| x_startedAt := 1900;
     x_connections := x_connections calm_oracle;
     x_cancelDuringResolve := false;
     x_item := fun k =>
       {| o_startedAt := o_startedAt (calm_item k);
          o_dateNow := o_dateNow (calm_item k);
          o_reply := Throw "Request failed with status code 403";
          o_completedAt := o_completedAt (calm_item k);
          o_cancelDuringCall := false;
          o_cancelDuringDelay := false |};
     x_completedAt := 9000 |}.

(** The same as [calm_oracle], but a cancel request arrives while the
    first item's write is in flight. *)
Definition cancelling_oracle : ExecOracle :=
  {| x_startedAt := 1900;
     x_connections := x_connections calm_oracle;
     x_cancelDuringResolve := false;
     x_item := fun k =>
       {| o_startedAt := o_startedAt (calm_item k);
          o_dateNow := o_dateNow (calm_item k);
          o_reply := o_reply (calm_item k);
          o_completedAt := o_completedAt (calm_item k);
          o_cancelDuringCall := Nat.eqb k 0;
          o_cancelDuringDelay := false |};
     x_completedAt := 9000 |}.

(** The same as [calm_oracle], but [GET /data-files/connections] is
    refused. *)
Definition unresolved_oracle : ExecOracle :=
  {| x_startedAt := 1900;
     x_connections := Throw "Request failed with status code 500";
     x_cancelDuringResolve := false;
     x_item := calm_item;
     x_completedAt := 9000 |}.


(** The percentage as the specification writes it,
    round(100·completed/total): the integer nearest to the exact quotient,
    a tie going to the larger one as with [Math.round]. *)
Definition rounded_percentage (completed total : nat) : Z :=
  ((200 * Z.of_nat completed + Z.of_nat total) / (2 * Z.of_nat total))%Z.

(** 100·completed/total lies exactly halfway between two integers. *)
Definition exact_half (completed total : nat) : Prop :=
  ((200 * Z.of_nat completed) mod (2 * Z.of_nat total) = Z.of_nat total)%Z.

(** The notifications of a trace, in order. *)
Definition notifications_of (trace : list Event) : list Progress :=
  omap (fun ev => match ev with Notified p => Some p | _ => None end) trace.

(** Forty files without conflicts. *)
Definition forty_items : list MigrationItem :=
  (fun k : nat =>
     {| i_id := "item-" +:+ pretty k; i_migrationId := "uuid-0";
        i_sourceId := "f" +:+ pretty k; i_itemType := "file";
        i_name := "file-" +:+ pretty k; i_sizeBytes := 10;
        i_status := I_pending; i_conflictType := None;
        i_conflictResolution := None; i_targetId := None;
        i_errorMessage := None; i_startedAt := None; i_completedAt := None |})
  <$> seq 0 40.

Definition forty_migration : Migration :=
  set_m_progress (initial_progress 40) (scenario_migration "skip").

(** [calm_oracle] a day later. *)
Definition next_day_oracle : ExecOracle :=
  {| x_startedAt := 86401900;
     x_connections := x_connections calm_oracle;
     x_cancelDuringResolve := false;
     x_item := fun k =>
       {| o_startedAt := 86400000 + o_startedAt (calm_item k);
          o_dateNow := 86400000 + o_dateNow (calm_item k);
          o_reply := o_reply (calm_item k);
          o_completedAt := 86400000 + o_completedAt (calm_item k);
          o_cancelDuringCall := false;
          o_cancelDuringDelay := false |};
     x_completedAt := 86409000 |}.

(** ** The requests of the presentation layer, served one after another *)

Inductive Request : Type :=
| CreateRequest (remote : Remote) (uuid : nat -> string) (now : Z)
    (tenantId : string) (body : CreateBody)
| StartRequest (x : ExecOracle) (migrationId : string)
| CancelRequest (migrationId : string)
| StatusRequest (migrationId : string).

Definition handle (store : Store) (request : Request) : Store :=
  match request with
  | CreateRequest remote uuid now tenantId body =>
      (createMigration remote uuid now tenantId body store).2
  | StartRequest x migrationId => (startMigration x migrationId store).2
  | CancelRequest migrationId => (cancelMigration migrationId store).2
  | StatusRequest _ => store
  end.

Definition serve (requests : list Request) (store : Store) : Store :=
  foldl handle store requests.

(** [generateUUID] does not return the id of the migration [migrationId]
    again ([Math.random] is assumed not to repeat an id). *)
Definition leaves_id_free (migrationId : string) (request : Request) : Prop :=
  match request with
  | CreateRequest _ uuid _ _ _ => uuid 0 ≠ migrationId
  | _ => True
  end.

Definition cancels (migrationId : string) (request : Request) : Prop :=
  request = CancelRequest migrationId.

(** A store in which the scenario's migration has been created. *)
Definition scenario_store (strategy : string) : Store :=
  {| migrations := {[ "uuid-0" := scenario_migration strategy ]};
     migrationItems := {[ "uuid-0" := scenario_items strategy ]} |}.


(** The migration [migrationId] is in the store with a status allowed by
    [P], and its items are [items]. *)
Definition held (migrationId : string) (items : list MigrationItem)
    (P : MigrationStatus → Prop) (store : Store) : Prop :=
  ∃ m, migrations store !! migrationId = Some m ∧ P (m_status m)
       ∧ migrationItems store !! migrationId = Some items.


(** ** generateUUID *)

(** One hexadecimal digit, as [toString(16)] writes it. *)
Definition hex_digit (v : N) : ascii :=
  match v with
  | 0 => "0" | 1 => "1" | 2 => "2" | 3 => "3" | 4 => "4" | 5 => "5" | 6 => "6"
  | 7 => "7" | 8 => "8" | 9 => "9" | 10 => "a" | 11 => "b" | 12 => "c"
  | 13 => "d" | 14 => "e" | _ => "f"
  end%N%char.

Fixpoint toString16_digits (fuel : nat) (v : N) (acc : string) : string :=
  match fuel with
  | O => acc
  | S fuel =>
      let acc := String (hex_digit (v mod 16)) acc in
      if (v <? 16)%N then acc else toString16_digits fuel (v / 16) acc
  end.

(** [v.toString(16)] for a non-negative integer. *)
Definition toString16 (v : N) : string :=
  toString16_digits (S (N.to_nat (N.log2 v))) v "".

(** ['...'.replace(/[xy]/g, callback)]: [random16 k] is the value of
    [Math.random() * 16 | 0] at the [k]-th call of the callback. *)
Fixpoint replace_xy (random16 : nat -> N) (k : nat) (template : string) : string :=
  match template with
  | EmptyString => EmptyString
  | String c rest =>
      if Ascii.eqb c "x" then
        toString16 (random16 k) +:+ replace_xy random16 (S k) rest
      else if Ascii.eqb c "y" then
        toString16 (N.lor (N.land (random16 k) 3) 8)
        +:+ replace_xy random16 (S k) rest
      else String c (replace_xy random16 k rest)
  end.

Definition uuid_template : string := "xxxxxxxx-xxxx-4xxx-yxxx-xxxxxxxxxxxx".

Definition generateUUID (random16 : nat -> N) : string :=
  replace_xy random16 0 uuid_template.

(** What a character of a generated id may be, given the character of the
    template at its position. *)
Definition uuid_char_ok (t c : ascii) : Prop :=
  if Ascii.eqb t "x" then ∃ v, (v < 16)%N ∧ c = hex_digit v
  else if Ascii.eqb t "y" then c ∈ ["8"; "9"; "a"; "b"]%char
  else c = t.

(** ** Sessions: [store.tenants], connect, disconnect, [getQlikService] *)

Record Tenant : Type := mkTenant {
  t_tenantUrl : string;
  t_apiKey : string;
  t_connectedAt : Z
}.

(** What the constructor of [QlikService] stores. *)
Record QlikClient : Type := mkQlikClient {
  q_tenantUrl : string;
  q_apiKey : string;
  q_baseUrl : string
}.

Definition newQlikService (tenantUrl apiKey : string) : QlikClient :=
  {| q_tenantUrl := tenantUrl; q_apiKey := apiKey;
     q_baseUrl := "https://" +:+ tenantUrl +:+ "/api/v1" |}.

(** [listSpaces], given the reply to [GET /spaces]. *)
Definition listSpaces (reply : Result (option (list Space))) : Result (list Space) :=
  result ← reply;
  mret (default [] result).

Record ConnectBody : Type := mkConnectBody {
  cb_tenantUrl : option string;
  cb_apiKey : option string
}.

Record ConnectReply : Type := mkConnectReply {
  cr_tenantId : string;
  cr_tenantUrl : string;
  cr_spacesCount : nat
}.

(** The answers of [POST /api/auth/connect]. *)
Inductive ConnectResponse : Type :=
| Connected (reply : ConnectReply)
| ConnectRefused (code : nat) (error : string) (details : option string).

(** [POST /api/auth/connect]; [spaces] is the tenant's reply to
    [GET /spaces] under the given key, [uuid] the value of
    [generateUUID()], [now] the clock. *)
Definition connect (spaces : Result (option (list Space))) (uuid : string) (now : Z)
    (body : ConnectBody) (tenants : gmap string Tenant)
  : ConnectResponse * gmap string Tenant :=
  match cb_tenantUrl body, cb_apiKey body with
  | Some tenantUrl, Some apiKey =>
      if truthy (Some tenantUrl) && truthy (Some apiKey) then
        match listSpaces spaces with
        | Ok found =>
            (Connected {| cr_tenantId := uuid; cr_tenantUrl := tenantUrl;
                          cr_spacesCount := length found |},
             <[uuid := mkTenant tenantUrl apiKey now]> tenants)
        | Throw message =>
            (ConnectRefused 401 "Failed to connect to Qlik Cloud" (Some message),
             tenants)
        end
      else (ConnectRefused 400 "tenantUrl and apiKey are required" None, tenants)
  | _, _ => (ConnectRefused 400 "tenantUrl and apiKey are required" None, tenants)
  end.

(** [POST /api/auth/disconnect]; the body's [tenantId] may be missing. *)
Definition disconnect (tenantId : option string) (tenants : gmap string Tenant)
  : gmap string Tenant :=
  match tenantId with
  | Some tenantId => delete tenantId tenants
  | None => tenants
  end.

(** The middleware [getQlikService]: the client and tenant id it attaches
    to the request, or the 401 answer. *)
Definition getQlikService (header : option string) (tenants : gmap string Tenant)
  : Response (QlikClient * string) :=
  match header ≫= (fun tenantId => (fun t => (tenantId, t)) <$> tenants !! tenantId) with
  | Some (tenantId, tenant) =>
      Json (newQlikService (t_tenantUrl tenant) (t_apiKey tenant), tenantId)
  | None => Status 401 "Not connected"
  end.

(** ** Listing migrations: [GET /api/migrations] *)

(** The comparator [(a, b) => new Date(b.createdAt) - new Date(a.createdAt)]. *)
Definition newest_first (a b : Migration) : Z :=
  (m_createdAt b - m_createdAt a)%Z.

(** [Array.prototype.sort] is a stable sort: an element goes before the
    first element it is not to follow. *)
Fixpoint sort_insert (compare : Migration -> Migration -> Z) (m : Migration)
    (sorted : list Migration) : list Migration :=
  match sorted with
  | [] => [m]
  | m' :: rest =>
      if (compare m m' <=? 0)%Z then m :: sorted
      else m' :: sort_insert compare m rest
  end.

Fixpoint sort (compare : Migration -> Migration -> Z) (l : list Migration)
  : list Migration :=
  match l with
  | [] => []
  | m :: rest => sort_insert compare m (sort compare rest)
  end.

(** [values] is [Array.from(store.migrations.values())], the stored
    migrations in insertion order; [header] the [x-tenant-id] header. *)
Definition listMigrations (header : option string) (values : list Migration)
  : list Migration * nat :=
  let found :=
    sort newest_first
      (List.filter (fun m => match header with
                             | Some tenantId => String.eqb (m_tenantId m) tenantId
                             | None => false
                             end) values) in
  (found, length found).

(** ** Vocabulary of the further properties *)

(** The members of a migration that no handler and no execution assigns
    after its creation. *)
Definition same_identity (a b : Migration) : Prop :=
  m_id a = m_id b ∧ m_tenantId a = m_tenantId b
  ∧ m_sourceSpaceId a = m_sourceSpaceId b
  ∧ m_sourceSpaceName a = m_sourceSpaceName b
  ∧ m_targetSpaceId a = m_targetSpaceId b
  ∧ m_targetSpaceName a = m_targetSpaceName b
  ∧ m_options a = m_options b ∧ m_createdAt a = m_createdAt b.

(** The remote writes of a trace, in order, each with the index of the
    item it was sent for. *)
Definition calls_of (trace : list Event) : list (nat * RemoteCall) :=
  omap (fun ev => match ev with Called j call => Some (j, call) | _ => None end)
    trace.

(** No cancel request arrives while the execution is under way. *)
Definition uninterrupted (x : ExecOracle) : Prop :=
  x_cancelDuringResolve x = false
  ∧ ∀ k, o_cancelDuringCall (x_item x k) = false
         ∧ o_cancelDuringDelay (x_item x k) = false.

(** Every stored migration is filed under its own id and has its list of
    items; the items point back at it, and its progress fits them. *)
Definition store_ok (store : Store) : Prop :=
  ∀ migrationId m,
    migrations store !! migrationId = Some m →
    m_id m = migrationId
    ∧ ∃ items,
        migrationItems store !! migrationId = Some items
        ∧ snapshot_ok (length items) m items
        ∧ Forall (fun item => i_migrationId item = migrationId) items.

(** The item types the engine has a remote write for. *)
Definition known_type (itemType : string) : bool :=
  String.eqb itemType "connection" || String.eqb itemType "folder"
  || String.eqb itemType "file".

(** An item of a type the engine has no remote write for. *)
Definition scenario_app : MigrationItem :=
  {| i_id := "uuid-1"; i_migrationId := "uuid-0"; i_sourceId := "a1";
     i_itemType := "app"; i_name := "Sales"; i_sizeBytes := 0;
     i_status := I_pending; i_conflictType := None;
     i_conflictResolution := None; i_targetId := None;
     i_errorMessage := None; i_startedAt := None; i_completedAt := None |}.

(** What the progress notification sent for [items[j]] says. *)
Definition announces (migration : Migration) (items : list MigrationItem)
    (j : nat) (p : Progress) : Prop :=
  p_currentItem p = i_name <$> items !! j
  ∧ p_total p = length items
  ∧ p_migrationId p = Some (m_id migration)
  ∧ p_completed p + p_failed p + p_skipped p = j
  ∧ p_percentage p = js_percentage (p_completed p) (length items).

(** The scenario's file with a recorded conflict and a resolution the
    engine has no branch for. *)
Definition overwrite_file : MigrationItem :=
  {| i_id := "uuid-2"; i_migrationId := "uuid-0"; i_sourceId := "f1";
     i_itemType := "file"; i_name := "report.csv"; i_sizeBytes := 500;
     i_status := I_pending; i_conflictType := Some NAME_EXISTS;
     i_conflictResolution := Some "overwrite"; i_targetId := None;
     i_errorMessage := None; i_startedAt := None; i_completedAt := None |}.

(** [calm_oracle], but a cancel request arrives while the engine resolves
    the target's data-files connection. *)
Definition impatient_oracle : ExecOracle :=
  {| x_startedAt := 1900; x_connections := x_connections calm_oracle;
     x_cancelDuringResolve := true; x_item := calm_item;
     x_completedAt := 9000 |}.

(** ** Start-up: [findAvailablePort] *)

(** [listen port] is what [server.listen(port, '127.0.0.1')] comes to:
    the port [server.address()] reports once the server listens, or
    [None] when the server emits ['error'].  Each failed attempt resolves
    the promise with the promise of the next attempt; [fuel] bounds the
    number of attempts followed, and [None] says that the promise has not
    settled within them. *)
Fixpoint findAvailablePort (fuel : nat) (listen : nat -> option nat)
    (startPort : nat) : option nat :=
  match fuel with
  | O => None
  | S fuel =>
      match listen startPort with
      | Some port => Some port
      | None => findAvailablePort fuel listen (startPort + 1)
      end
  end.

(** * Properties *)

(** ** Migration creation *)

Lemma List_filter_decide {A} (P : A → Prop) `{!∀ a, Decision (P a)} (l : list A) :
  List.filter (fun a => bool_decide (P a)) l = filter P l.
Proof.
  induction l as [|a l IH]; simpl; [done|].
  rewrite filter_cons, IH.
  destruct (decide (P a));
    [rewrite bool_decide_eq_true_2 | rewrite bool_decide_eq_false_2]; done.
Qed.

Section Creation.
Context (remote : Remote) (uuid : nat -> string) (now : Z) (tenantId : string).

Lemma includes_elem_of (l : list string) (name : string) :
  includes l name = true ↔ name ∈ l.
Proof.
  unfold includes. rewrite existsb_exists. split.
  - intros (x & Hin & Heq). apply String.eqb_eq in Heq. subst x.
    by apply list_elem_of_In.
  - intros Hin. exists name. split; [by apply list_elem_of_In|apply String.eqb_refl].
Qed.

Lemma elem_of_List_filter {A} (f : A -> bool) (l : list A) (x : A) :
  x ∈ List.filter f l ↔ x ∈ l ∧ f x = true.
Proof. by rewrite !list_elem_of_In, filter_In. Qed.

Lemma required_fields_None (body : CreateBody) :
  required_fields body = None ↔ missing_fields body.
Proof.
  unfold required_fields, missing_fields.
  destruct body as [[src|] [tgt|] [items|] opts]; simpl;
    try (split; [intros _|done]; auto; fail).
  destruct (negb (String.eqb src "")), (negb (String.eqb tgt "")), items; simpl;
    split; try done; auto; intros [?|[?|?]]; done.
Qed.

Lemma required_fields_Some (body : CreateBody) src tgt items :
  required_fields body = Some (src, tgt, items) →
  b_sourceSpaceId body = Some src ∧ b_targetSpaceId body = Some tgt
  ∧ b_items body = Some items ∧ items ≠ [].
Proof.
  unfold required_fields.
  destruct body as [[s|] [t|] [its|] opts]; simpl; try done.
  destruct (negb (String.eqb s "")), (negb (String.eqb t "")), its; simpl; try done.
  intros [= -> -> <-]. by repeat split.
Qed.

Lemma resolve_and_detect_throws (body : CreateBody) src tgt items :
  required_fields body = Some (src, tgt, items) →
  throws (resolve_and_detect remote src tgt items) = true
  ↔ space_resolution_fails remote body ∨ conflict_listing_fails remote body.
Proof.
  intros (Hs & Ht & _ & _)%required_fields_Some.
  unfold space_resolution_fails, conflict_listing_fails, resolve_and_detect,
    checkConnectionConflicts, checkFileConflicts.
  rewrite Hs, Ht. simpl.
  destruct (getSpace remote src); simpl; [|intuition congruence].
  destruct (getSpace remote tgt); simpl; [|intuition congruence].
  destruct (listConnections remote (Some tgt)); simpl; [|intuition congruence].
  destruct (listDataFiles remote tgt true); simpl; intuition congruence.
Qed.

Lemma new_items_names migrationId allConflicts options (items : list Candidate) :
  i_name <$> imap (fun k item =>
                     new_item migrationId allConflicts options (uuid (S k)) item) items
  = c_name <$> items.
Proof.
  rewrite fmap_imap. rewrite <- (imap_const c_name). by apply imap_ext.
Qed.

(** A name the conflict detector returns is the name of a candidate. *)
Lemma detected_names_are_candidates src tgt (items : list Candidate) S1 S2 conflicts :
  resolve_and_detect remote src tgt items = Ok (S1, S2, conflicts) →
  ∀ name, name ∈ conflicts → name ∈ (c_name <$> items).
Proof.
  unfold resolve_and_detect, checkConnectionConflicts, checkFileConflicts.
  destruct (getSpace remote src); simpl; [|done].
  destruct (getSpace remote tgt); simpl; [|done].
  destruct (listConnections remote (Some tgt)); simpl; [|done].
  destruct (listDataFiles remote tgt true); simpl; [|done].
  intros [= _ _ <-] name Hin.
  assert (∀ f, name ∈ c_name <$> List.filter f items → name ∈ c_name <$> items) as Hsub.
  { intros f (c & -> & Hc)%list_elem_of_fmap. apply list_elem_of_fmap. exists c.
    split; [done|]. by apply elem_of_List_filter in Hc as [Hc _]. }
  apply elem_of_app in Hin as [Hin|Hin];
    apply elem_of_List_filter in Hin as [Hin _]; by eapply Hsub.
Qed.

Lemma List_filter_ext2 {A B} (f f' : B → bool) (h h' : A → bool) (g : A → B)
    (l : list A) :
  (∀ b, f b = f' b) → (∀ a, h a = h' a) →
  List.filter f (g <$> List.filter h l) = List.filter f' (g <$> List.filter h' l).
Proof.
  intros Hf Hh. rewrite (List.filter_ext h h' Hh). apply List.filter_ext, Hf.
Qed.

(** What the conflict detector returns is what is to be detected against
    the two listings of the target space. *)
Lemma detected_against_listings src tgt (items : list Candidate) S1 S2 conflicts :
  resolve_and_detect remote src tgt items = Ok (S1, S2, conflicts) →
  ∃ connections files,
    listConnections remote (Some tgt) = Ok connections
    ∧ listDataFiles remote tgt true = Ok files
    ∧ (fun name => mkConflict name NAME_EXISTS) <$> conflicts
      = detected_conflicts connections files items.
Proof.
  unfold resolve_and_detect, checkConnectionConflicts, checkFileConflicts.
  destruct (getSpace remote src); simpl; [|done].
  destruct (getSpace remote tgt); simpl; [|done].
  destruct (listConnections remote (Some tgt)) as [connections|]; simpl; [|done].
  destruct (listDataFiles remote tgt true) as [files|]; simpl; [|done].
  intros [= _ _ <-]. exists connections, files. split; [done|]. split; [done|].
  unfold detected_conflicts, connNames, fileNames.
  rewrite <- !List_filter_decide. f_equal. f_equal.
  - apply List_filter_ext2.
    + intros name. apply bool_decide_ext, elem_of_list_to_set.
    + intros c.
      destruct (String.eqb_spec (c_itemType c) "connection");
        [by rewrite bool_decide_eq_true_2 | by rewrite bool_decide_eq_false_2].
  - apply List_filter_ext2.
    + intros name. apply bool_decide_ext.
      rewrite elem_of_list_to_set, list_elem_of_omap, list_elem_of_fmap.
      split; intros (f & ? & ?); by exists f.
    + intros c.
      destruct (String.eqb_spec (c_itemType c) "connection"); cbn;
        [by rewrite bool_decide_eq_false_2; [|tauto]
        | by rewrite bool_decide_eq_true_2].
Qed.

Lemma createMigration_persists (body : CreateBody) (store : Store) src tgt items S1 S2 conflicts :
  required_fields body = Some (src, tgt, items) →
  resolve_and_detect remote src tgt items = Ok (S1, S2, conflicts) →
  creation_persisted remote (createMigration remote uuid now tenantId body store) body.
Proof.
  intros Hreq Hres.
  pose proof (required_fields_Some _ _ _ _ Hreq) as (_ & Htgt & Hitems & _).
  destruct (detected_against_listings _ _ _ _ _ _ Hres)
    as (connections & files & Hconnections & Hfiles & Hdetected).
  unfold creation_persisted, createMigration. rewrite Hreq, Hres, Hitems, Htgt. simpl.
  eexists. split; [reflexivity|]. simpl.
  split; [done|]. split; [apply length_imap|]. split; [apply new_items_names|].
  split; [apply lookup_insert_eq|]. split; [apply lookup_insert_eq|].
  split; [|by exists connections, files].
  intros name. rewrite <- list_fmap_compose. simpl. rewrite list_fmap_id. split.
  - intros Hin.
    pose proof (detected_names_are_candidates _ _ _ _ _ _ Hres _ Hin) as Hc.
    apply list_elem_of_fmap in Hc as (c & -> & Hc).
    apply list_elem_of_lookup in Hc as [k Hk].
    exists (new_item (uuid 0) conflicts (b_options body) (uuid (S k)) c).
    split.
    { apply (elem_of_lookup_imap_2
               (fun k item => new_item (uuid 0) conflicts (b_options body) (uuid (S k)) item)
               items c k Hk). }
    simpl.
    apply includes_elem_of in Hin. by rewrite Hin.
  - intros (item & Hitem & <- & Hann).
    apply elem_of_lookup_imap_1 in Hitem as (k & c & -> & _). simpl in *.
    apply includes_elem_of. by destruct (includes conflicts (c_name c)).
Qed.

(** The outcome of a creation request all of whose items are objects. *)
Lemma createMigration_outcome (body : CreateBody) (store : Store) :
  let result := createMigration remote uuid now tenantId body store in
  let blocked := missing_fields body ∨ space_resolution_fails remote body
                 ∨ conflict_listing_fails remote body in
  (blocked → creation_failed result store)
  ∧ (¬ blocked → creation_persisted remote result body).
Proof.
  simpl. destruct (required_fields body) as [[[src tgt] items]|] eqn:Hreq.
  - assert (¬ missing_fields body) as Hpresent.
    { rewrite <- required_fields_None. congruence. }
    pose proof (resolve_and_detect_throws _ _ _ _ Hreq) as Hthrows.
    destruct (resolve_and_detect remote src tgt items) as [[[S1 S2] conflicts]|message] eqn:Hres.
    + simpl in Hthrows. split.
      * intros [?|Hfail]; [done|]. apply Hthrows in Hfail. done.
      * intros _. by eapply createMigration_persists.
    + split.
      * intros _. unfold creation_failed, createMigration. rewrite Hreq, Hres.
        simpl. eauto.
      * intros Hnot. destruct Hnot. right. by apply Hthrows.
  - split.
    + intros _. unfold creation_failed, createMigration. rewrite Hreq. simpl. eauto.
    + intros Hnot. destruct Hnot. left. by apply required_fields_None.
Qed.

Lemma all_item_objects (items : list (option Candidate)) :
  forallb (fun item : option Candidate => bool_decide (is_Some item)) items = true →
  (None ∉ items)
  ∧ (omap (fun item : option Candidate => item) items = [] ↔ items = []).
Proof.
  intros Hall. split.
  - intros Hnull. rewrite forallb_forall in Hall.
    apply list_elem_of_In in Hnull. apply Hall in Hnull.
    apply bool_decide_eq_true in Hnull. by destruct Hnull.
  - destruct items as [|[c|] items]; [done|done|]. cbn in Hall. done.
Qed.

Lemma some_null_item (items : list (option Candidate)) :
  forallb (fun item : option Candidate => bool_decide (is_Some item)) items = false →
  None ∈ items.
Proof.
  induction items as [|[c|] items IH]; cbn; [done| |by left].
  intros Hrest. right. by apply IH.
Qed.

(** C8, as amended.  For a creation request of the documented shape,
    except that an element of the item list may be null: the handler
    answers with an error and leaves the store untouched whenever a
    required field is missing (the source space id, the target space id,
    and an item list that is not empty), whenever an element of the item
    list is null, whenever resolving either space fails, and also whenever
    one of the conflict detector's two listings of the target space fails.
    In every other case it stores a migration in status "created" with one
    item per candidate and returns them with the detected conflicts: the
    names of the selected connections that are names of connections listed
    for the target space, followed by the names of the other selected
    items that are names of files or folders listed there, each in the
    order selected. *)
Theorem C8_createMigration_outcome (typeError : string) (raw : RawCreateBody)
    (store : Store) :
  let result := createMigrationRaw typeError remote uuid now tenantId raw store in
  let body := item_objects raw in
  let blocked := raw_missing_fields raw ∨ has_null_item raw
                 ∨ space_resolution_fails remote body
                 ∨ conflict_listing_fails remote body in
  (blocked → creation_failed result store)
  ∧ (¬ blocked → creation_persisted remote result body).
Proof.
  cbn zeta. unfold createMigrationRaw.
  destruct (forallb _ _) eqn:Hobjects.
  - apply all_item_objects in Hobjects as [Hnone Hempty].
    assert (raw_missing_fields raw ↔ missing_fields (item_objects raw)) as Hmissing.
    { unfold raw_missing_fields, missing_fields, item_objects. cbn.
      destruct (rb_items raw) as [items|]; cbn in *; tauto. }
    destruct (createMigration_outcome (item_objects raw) store) as [Hfail Hpersist].
    split.
    + intros [Hblocked | [Hblocked | Hblocked]].
      * apply Hfail. left. by apply Hmissing.
      * done.
      * apply Hfail. by right.
    + intros Hnot. apply Hpersist. intros [Hblocked | Hblocked]; apply Hnot.
      * left. by apply Hmissing.
      * by right; right.
  - apply some_null_item in Hobjects. split.
    + intros _. unfold creation_failed.
      destruct (raw_required_fields raw) as [[src tgt]|]; [|cbn; by eauto].
      destruct (getSpace remote src); cbn; [|by eauto].
      destruct (getSpace remote tgt); cbn; by eauto.
    + intros Hnot. destruct Hnot. by right; left.
Qed.

End Creation.

Lemma C8_createMigration_outcome_witness :
  creation_failed
    (createMigrationRaw "Cannot read properties of null (reading 'itemType')"
       remote_DB1 sample_uuid 1000 "tenant" raw_null_item empty_store)
    empty_store
  ∧ creation_failed
      (createMigrationRaw "Cannot read properties of null (reading 'itemType')"
         remote_listing_down sample_uuid 1000 "tenant" raw_same_name empty_store)
      empty_store
  ∧ creation_persisted remote_DB1
      (createMigrationRaw "Cannot read properties of null (reading 'itemType')"
         remote_DB1 sample_uuid 1000 "tenant" raw_same_name empty_store)
      (item_objects raw_same_name).
Proof.
  split; [|split].
  - apply (C8_createMigration_outcome remote_DB1 sample_uuid 1000 "tenant" _
             raw_null_item empty_store).
    right. left. apply (list_elem_of_lookup_2 _ 1). reflexivity.
  - apply (C8_createMigration_outcome remote_listing_down sample_uuid 1000 "tenant" _
             raw_same_name empty_store).
    right. right. right. left. reflexivity.
  - apply (C8_createMigration_outcome remote_DB1 sample_uuid 1000 "tenant" _
             raw_same_name empty_store).
    intros [[H|[H|H]]|[Hnull|[[H|H]|[H|H]]]]; try (vm_compute in H; discriminate H).
    unfold has_null_item in Hnull. cbn in Hnull.
    repeat (apply elem_of_cons in Hnull as [Hnull|Hnull]; [discriminate Hnull|]).
    by apply elem_of_nil in Hnull.
Defined.

(** C8, counterexample to the wording "otherwise it persists": all fields
    are present and both spaces resolve, but the listing of the target
    space's connections is refused; the handler answers 500 and stores
    nothing. *)
Lemma C8_listing_failure_blocks_creation :
  ¬ createMigration_fails_only_as_listed remote_listing_down sample_uuid 1000
      "tenant" body_same_name empty_store.
Proof.
  intros [_ Hpersist].
  destruct Hpersist as (reply & Hreply & _).
  - intros [[H|[H|H]]|[H|H]]; vm_compute in H; discriminate H.
  - vm_compute in Hreply. discriminate Hreply.
Qed.

(** ** Conflict annotation *)

(** An item is annotated exactly when its name is among the names the
    two checks returned, whatever its kind. *)
Lemma new_item_annotated migrationId allConflicts options uuid (item : Candidate) :
  i_conflictType (new_item migrationId allConflicts options uuid item) = Some NAME_EXISTS
  ↔ c_name item ∈ allConflicts.
Proof.
  simpl. rewrite <- includes_elem_of.
  destruct (includes allConflicts (c_name item)); intuition congruence.
Qed.

(** C1, evaluated at the failing input: the target space has a connection
    "DB1" and no file or folder at all; the request selects a connection
    "DB1" and a file "DB1".  The file check finds nothing, yet the file
    item is annotated NAME_EXISTS, because the connection conflict "DB1"
    is looked up by name alone. *)
Theorem C1_file_annotated_from_connection_namespace :
  checkFileConflicts remote_DB1 "T" ["DB1"] = Ok []
  ∧ checkConnectionConflicts remote_DB1 "T" ["DB1"] = Ok ["DB1"]
  ∧ ∃ reply store',
      createMigration remote_DB1 sample_uuid 1000 "tenant" body_same_name empty_store
      = (Json reply, store')
      ∧ (fun item => (i_itemType item, i_name item, i_conflictType item))
          <$> reply_items reply
        = [("connection", "DB1", Some NAME_EXISTS); ("file", "DB1", Some NAME_EXISTS)].
Proof.
  split; [reflexivity|]. split; [reflexivity|].
  eexists _, _. split; [reflexivity|]. reflexivity.
Qed.

(** The symmetric case: the target space has a file "DB1" and no
    connection; the connection item is annotated all the same. *)
Lemma connection_annotated_from_file_namespace :
  checkConnectionConflicts remote_file_DB1 "T" ["DB1"] = Ok []
  ∧ ∃ reply store',
      createMigration remote_file_DB1 sample_uuid 1000 "tenant" body_same_name empty_store
      = (Json reply, store')
      ∧ (fun item => (i_itemType item, i_name item, i_conflictType item))
          <$> reply_items reply
        = [("connection", "DB1", Some NAME_EXISTS); ("file", "DB1", Some NAME_EXISTS)].
Proof.
  split; [reflexivity|]. eexists _, _. split; reflexivity.
Qed.

(** ** Cancellation request *)

(** C10: for every migration id present in the store, [cancelMigration]
    answers with the migration in status "cancelled" and stores it so,
    whatever the status was before; "completed" and "failed" are
    overwritten like any other.  Nothing else in the store changes. *)
Theorem C10_cancel_is_unconditional (migrationId : string) (store : Store)
    (migration : Migration) :
  migrations store !! migrationId = Some migration →
  let result := cancelMigration migrationId store in
  result.1 = Json (set_m_status M_cancelled migration)
  ∧ migrations result.2 !! migrationId = Some (set_m_status M_cancelled migration)
  ∧ m_status (set_m_status M_cancelled migration) = M_cancelled
  ∧ (∀ other, other ≠ migrationId →
       migrations result.2 !! other = migrations store !! other)
  ∧ migrationItems result.2 = migrationItems store.
Proof.
  intros Hfound. unfold cancelMigration. rewrite Hfound. simpl.
  split; [done|]. split; [apply lookup_insert_eq|]. split; [done|].
  split; [|done]. intros other Hother. by apply lookup_insert_ne.
Qed.

Lemma C10_cancel_is_unconditional_witness :
  migrations finished_store !! "uuid-0" = Some finished_migration
  ∧ m_status finished_migration = M_completed
  ∧ migrations (cancelMigration "uuid-0" finished_store).2 !! "uuid-0"
    = Some (set_m_status M_cancelled finished_migration).
Proof.
  split; [reflexivity|]. split; [reflexivity|].
  apply (C10_cancel_is_unconditional "uuid-0" finished_store finished_migration).
  reflexivity.
Defined.

(** ** The execution engine: one pass of the loop *)

Ltac engine_eval :=
  cbv beta iota zeta delta
    [suspend progressCallback store_item count_completed count_failed
     count_skipped emit with_migration
     e_migration e_items e_completed e_failed e_skipped e_trace] in *.

Lemma has_conflict_started o item : has_conflict (started o item) = has_conflict item.
Proof. done. Qed.
Lemma resolution_is_started o item r :
  resolution_is (started o item) r = resolution_is item r.
Proof. done. Qed.
Lemma effective_name_started o item t :
  effective_name (started o item) t = effective_name item t.
Proof. done. Qed.
Lemma dispatch_started tsid tc o item newName :
  dispatch tsid tc (started o item) newName = dispatch tsid tc item newName.
Proof. done. Qed.

(** Splits a goal about [iteration o total tc i s] along the paths of the
    loop body. *)
Ltac iteration_paths o s i item Hi :=
  unfold iteration;
  destruct (e_items s !! i) as [item|] eqn:Hi;
  [ destruct (decide (m_status (e_migration s) = M_cancelled)) as [?Hcancelled|?Hrunning];
    [ engine_eval
    | cbv zeta;
      rewrite has_conflict_started, resolution_is_started, effective_name_started,
        dispatch_started;
      destruct (has_conflict item && resolution_is item "skip") eqn:?Hskip;
      [ engine_eval
      | destruct (dispatch _ _ item _) as [?call|] eqn:?Hdispatch;
        [ destruct (o_reply o) as [?reply|?message] eqn:?Hreply;
          destruct (o_cancelDuringCall o) eqn:?HcancelCall;
          destruct (o_cancelDuringDelay o) eqn:?HcancelDelay; engine_eval
        | destruct (o_cancelDuringDelay o) eqn:?HcancelDelay; engine_eval ] ] ]
  | ].

Lemma iteration_item o total tc i s item :
  e_items s !! i = Some item →
  ∃ item', e_items (iteration o total tc i s) = <[i := item']> (e_items s)
           ∧ same_static item item'
           ∧ bumped (i_status item') s (iteration o total tc i s).
Proof.
  intros Hitem. iteration_paths o s i item' Hi; [..|congruence].
  all: assert (item' = item) as -> by congruence.
  all: rewrite ?list_insert_insert_eq.
  all: eexists; split; [reflexivity|]; split; [by repeat split|]; simpl; done.
Qed.

Lemma iteration_out_of_range o total tc i s :
  e_items s !! i = None → iteration o total tc i s = s.
Proof. intros Hnone. unfold iteration. by rewrite Hnone. Qed.

Lemma iteration_length o total tc i s :
  length (e_items (iteration o total tc i s)) = length (e_items s).
Proof.
  destruct (e_items s !! i) as [item|] eqn:Hi.
  - destruct (iteration_item o total tc i s item Hi) as (item' & -> & _).
    apply length_insert.
  - by rewrite iteration_out_of_range.
Qed.

(** A pass leaves the identity of the migration alone, and its status is
    only ever changed by a cancellation request. *)
Lemma iteration_migration o total tc i s :
  let s' := iteration o total tc i s in
  m_id (e_migration s') = m_id (e_migration s)
  ∧ m_targetSpaceId (e_migration s') = m_targetSpaceId (e_migration s)
  ∧ (m_status (e_migration s') = m_status (e_migration s)
     ∨ m_status (e_migration s') = M_cancelled).
Proof.
  cbv zeta. iteration_paths o s i item Hi; simpl; auto.
Qed.

(** The pass over an item of a cancelled migration: the item is marked
    skipped and counted, and nothing else happens. *)
Lemma iteration_cancelled o total tc i s item :
  e_items s !! i = Some item →
  m_status (e_migration s) = M_cancelled →
  iteration o total tc i s
  = {| e_migration := e_migration s;
       e_items := <[i := set_i_status I_skipped item]> (e_items s);
       e_completed := e_completed s; e_failed := e_failed s;
       e_skipped := S (e_skipped s); e_trace := e_trace s |}.
Proof.
  intros Hitem Hcancelled. unfold iteration. rewrite Hitem.
  by destruct (decide _).
Qed.

(** The pass over an item of a migration that is not cancelled: the
    notification comes first, built from the counters as they stand. *)
Lemma iteration_trace o total tc i s item :
  e_items s !! i = Some item →
  m_status (e_migration s) ≠ M_cancelled →
  ∃ rest,
    e_trace (iteration o total tc i s)
    = (e_trace s ++ Notified (notification total item s) :: rest)%list
    ∧ Forall (pass_event o total tc i item s) rest
    ∧ m_progress (e_migration (iteration o total tc i s)) = notification total item s.
Proof.
  intros Hitem Hnot. iteration_paths o s i item' Hi; [..|congruence].
  all: assert (item' = item) as -> by congruence.
  all: try done.
  all: rewrite <- ?(assoc_L (++)); simpl.
  all: eexists; split; [reflexivity|]; split; [|done].
  all: repeat (apply Forall_cons; split; [simpl; rewrite ?length_insert; auto|]).
  all: apply Forall_nil_2.
Qed.

(** ** The execution engine: the loop *)

Lemma run_items_S x total tc k s :
  run_items x total tc (S k) s
  = iteration (x_item x k) total tc k (run_items x total tc k s).
Proof. unfold run_items. by rewrite seq_S, foldl_app. Qed.

Lemma tally_app st (l1 l2 : list MigrationItem) :
  tally st (l1 ++ l2) = tally st l1 + tally st l2.
Proof. unfold tally. by rewrite filter_app, length_app. Qed.

Lemma tally_singleton st (item : MigrationItem) :
  tally st [item] = if decide (i_status item = st) then 1 else 0.
Proof.
  unfold tally. rewrite filter_cons, filter_nil. by destruct (decide _).
Qed.

(** All items are in status [st] exactly when the tally of [st] is the
    number of items. *)
Lemma tally_all st (l : list MigrationItem) :
  tally st l = length l ↔ Forall (fun item => i_status item = st) l.
Proof.
  unfold tally. induction l as [|item l IH].
  - split; [constructor|done].
  - rewrite filter_cons. pose proof (length_filter (fun item => i_status item = st) l).
    destruct (decide (i_status item = st)) as [Hst|Hst]; simpl.
    + rewrite Forall_cons. split.
      * intros [= Hlen]. split; [done|by apply IH].
      * intros [_ Hall]. f_equal. by apply IH.
    + split; [lia|]. by intros [? _]%Forall_cons.
Qed.

Section Loop.
Context (x : ExecOracle) (total : nat) (tc : option string) (s0 : Engine).

#[local] Abbreviation run k := (run_items x total tc k s0).

Lemma run_length (k : nat) : length (e_items (run k)) = length (e_items s0).
Proof.
  induction k as [|k IH]; [done|]. by rewrite run_items_S, iteration_length.
Qed.

(** The loop has not touched the items it has not reached. *)
Lemma run_untouched (k j : nat) :
  k ≤ j → e_items (run k) !! j = e_items s0 !! j.
Proof.
  induction k as [|k IH]; [done|]. intros Hkj. rewrite run_items_S.
  destruct (e_items (run k) !! k) as [item|] eqn:Hk.
  - destruct (iteration_item (x_item x k) total tc k _ item Hk) as (item' & -> & _).
    rewrite list_lookup_insert_ne by lia. apply IH. lia.
  - rewrite iteration_out_of_range by done. apply IH. lia.
Qed.

(** Nor does it return to an item it has passed. *)
Lemma run_settled (k k' j : nat) :
  j < k → k ≤ k' → e_items (run k') !! j = e_items (run k) !! j.
Proof.
  intros Hjk. induction 1 as [|k' Hle IH]; [done|]. rewrite run_items_S.
  destruct (e_items (run k') !! k') as [item|] eqn:Hk.
  - destruct (iteration_item (x_item x k') total tc k' _ item Hk) as (item' & -> & _).
    rewrite list_lookup_insert_ne by lia. apply IH.
  - by rewrite iteration_out_of_range.
Qed.

Lemma run_migration (k : nat) :
  m_id (e_migration (run k)) = m_id (e_migration s0)
  ∧ m_targetSpaceId (e_migration (run k)) = m_targetSpaceId (e_migration s0)
  ∧ (m_status (e_migration (run k)) = m_status (e_migration s0)
     ∨ m_status (e_migration (run k)) = M_cancelled).
Proof.
  induction k as [|k IH]; [auto|]. destruct IH as (IH1 & IH2 & IH3).
  rewrite run_items_S.
  pose proof (iteration_migration (x_item x k) total tc k (run k)) as (H1 & H2 & H3).
  simpl in *. rewrite H1, H2. split; [done|]. split; [done|].
  destruct H3 as [-> | ->]; auto.
Qed.

(** The pass over [items[k]], seen from the whole run. *)
Lemma run_pass (k : nat) item :
  e_items s0 !! k = Some item →
  ∃ item', e_items (run (S k)) = <[k := item']> (e_items (run k))
           ∧ same_static item item'
           ∧ bumped (i_status item') (run k) (run (S k)).
Proof.
  intros Hitem. rewrite run_items_S. apply iteration_item.
  by rewrite run_untouched.
Qed.

(** A passed item has one of the three final statuses and keeps the
    members the engine never assigns. *)
Lemma run_done (k k' : nat) item :
  e_items s0 !! k = Some item → k < k' →
  ∃ item', e_items (run k') !! k = Some item'
           ∧ same_static item item' ∧ item_done (i_status item').
Proof.
  intros Hitem Hlt. rewrite (run_settled (S k)) by lia.
  destruct (run_pass k item Hitem) as (item' & -> & Hstatic & Hbumped).
  exists item'. split.
  - apply list_lookup_insert_eq. rewrite run_length. by eapply lookup_lt_Some.
  - split; [done|]. unfold item_done, bumped in *. destruct (i_status item'); tauto.
Qed.

(** The counters are the tallies of the statuses of the items passed. *)
Lemma run_counters (k : nat) :
  k ≤ length (e_items s0) →
  e_completed (run k) = e_completed s0 + tally I_completed (take k (e_items (run k)))
  ∧ e_failed (run k) = e_failed s0 + tally I_failed (take k (e_items (run k)))
  ∧ e_skipped (run k) = e_skipped s0 + tally I_skipped (take k (e_items (run k)))
  ∧ Forall (fun item => item_done (i_status item)) (take k (e_items (run k))).
Proof.
  induction k as [|k IH]; intros Hk.
  - rewrite take_0. unfold tally, run_items. simpl. repeat split; try lia. constructor.
  - destruct (lookup_lt_is_Some_2 (e_items s0) k) as [item Hitem]; [lia|].
    destruct (run_pass k item Hitem) as (item' & Heq & _ & Hbumped).
    destruct IH as (IHc & IHf & IHs & IHd); [lia|].
    assert (take (S k) (e_items (run (S k))) = take k (e_items (run k)) ++ [item'])
      as ->.
    { rewrite Heq. erewrite take_S_r.
      - by rewrite take_insert_ge by lia.
      - apply list_lookup_insert_eq. rewrite run_length. lia. }
    rewrite !tally_app, !tally_singleton, Forall_app, Forall_singleton.
    unfold bumped, item_done in *.
    destruct (i_status item'); try done; simpl;
      destruct Hbumped as (-> & -> & ->); repeat split; auto; lia.
Qed.

(** Once the migration is cancelled the loop only marks items skipped. *)
Lemma run_after_cancel (k k' : nat) :
  m_status (e_migration (run k)) = M_cancelled → k ≤ k' →
  e_migration (run k') = e_migration (run k)
  ∧ e_trace (run k') = e_trace (run k)
  ∧ e_completed (run k') = e_completed (run k)
  ∧ e_failed (run k') = e_failed (run k)
  ∧ ∀ (j : nat) item, k ≤ j < k' → e_items s0 !! j = Some item →
      e_items (run k') !! j = Some (set_i_status I_skipped item).
Proof.
  intros Hcancelled. induction 1 as [|k' Hle IH].
  - repeat split; try done. intros j item ?. lia.
  - destruct IH as (IHm & IHt & IHc & IHf & IHi). rewrite run_items_S.
    destruct (e_items (run k') !! k') as [item'|] eqn:Hk.
    + rewrite (iteration_cancelled _ _ _ _ _ item') by (done || congruence). simpl.
      repeat split; try done. intros j item Hj Hitem.
      destruct (decide (j = k')) as [->|Hne].
      * rewrite run_untouched in Hk by lia.
        assert (item' = item) as -> by congruence.
        apply list_lookup_insert_eq. by eapply lookup_lt_Some; rewrite run_untouched.
      * rewrite list_lookup_insert_ne by done. apply IHi; [lia|done].
    + rewrite iteration_out_of_range by done. repeat split; try done.
      intros j item Hj Hitem. destruct (decide (j = k')) as [->|Hne].
      * rewrite run_untouched in Hk by lia. congruence.
      * apply IHi; [lia|done].
Qed.

End Loop.

Lemma iteration_extends o total tc i s :
  ∃ evs, e_trace (iteration o total tc i s) = e_trace s ++ evs.
Proof.
  destruct (e_items s !! i) as [item|] eqn:Hi.
  - destruct (decide (m_status (e_migration s) = M_cancelled)) as [Hc|Hc].
    + rewrite (iteration_cancelled _ _ _ _ _ item) by done. simpl.
      exists []. by rewrite app_nil_r.
    + destruct (iteration_trace o total tc i s item Hi Hc) as (rest & -> & _). eauto.
  - rewrite iteration_out_of_range by done. exists []. by rewrite app_nil_r.
Qed.

Section LoopTrace.
Context (x : ExecOracle) (total : nat) (tc : option string) (s0 : Engine).

#[local] Abbreviation run k := (run_items x total tc k s0).

Lemma run_trace_prefix (k k' : nat) :
  k ≤ k' → ∃ evs, e_trace (run k') = e_trace (run k) ++ evs.
Proof.
  induction 1 as [|k' Hle IH].
  - exists []. by rewrite app_nil_r.
  - destruct IH as (evs & IH). rewrite run_items_S.
    destruct (iteration_extends (x_item x k') total tc k' (run k')) as (evs' & ->).
    rewrite IH, <- (assoc_L (++)). eauto.
Qed.

(** What the pass over [items[k]] adds to the trace. *)
Lemma run_trace_step (k : nat) item :
  e_items s0 !! k = Some item →
  (m_status (e_migration (run k)) = M_cancelled
   ∧ e_trace (run (S k)) = e_trace (run k)
   ∧ e_migration (run (S k)) = e_migration (run k))
  ∨ (m_status (e_migration (run k)) ≠ M_cancelled
     ∧ ∃ rest,
         e_trace (run (S k))
         = e_trace (run k) ++ Notified (notification total item (run k)) :: rest
         ∧ Forall (pass_event (x_item x k) total tc k item (run k)) rest
         ∧ m_progress (e_migration (run (S k))) = notification total item (run k)).
Proof.
  intros Hitem. rewrite <- (run_untouched x total tc s0 k k) in Hitem by done.
  rewrite run_items_S.
  destruct (decide (m_status (e_migration (run k)) = M_cancelled)) as [Hc|Hc].
  - left. by rewrite (iteration_cancelled _ _ _ _ _ item).
  - right. split; [done|]. by apply iteration_trace.
Qed.

(** Every event of the loop is a notification or an event of the pass
    that follows it. *)
Lemma run_events (P : Event → Prop) (k : nat) :
  k ≤ length (e_items s0) →
  (∀ ev, ev ∈ e_trace s0 → P ev) →
  (∀ (j : nat) item ev,
     j < k → e_items s0 !! j = Some item →
     m_status (e_migration (run j)) ≠ M_cancelled →
     ev = Notified (notification total item (run j))
     ∨ pass_event (x_item x j) total tc j item (run j) ev →
     P ev) →
  ∀ ev, ev ∈ e_trace (run k) → P ev.
Proof.
  induction k as [|k IH]; intros Hk Hstart Hpass ev Hev; [by apply Hstart|].
  destruct (lookup_lt_is_Some_2 (e_items s0) k) as [item Hitem]; [lia|].
  assert (∀ ev, ev ∈ e_trace (run k) → P ev) as Hbefore.
  { apply IH; [lia|done|]. intros j item' ev' Hj. apply Hpass. lia. }
  destruct (run_trace_step k item Hitem) as [(_ & Heq & _)|(Hc & rest & Heq & Hrest & _)];
    rewrite Heq in Hev.
  - by apply Hbefore.
  - apply elem_of_app in Hev as [Hev|Hev]; [by apply Hbefore|].
    apply (Hpass k item ev); [lia|done|done|].
    apply elem_of_cons in Hev as [->|Hev]; [by left|right].
    rewrite Forall_forall in Hrest. by apply Hrest.
Qed.

(** A remote write is sent only for an item the loop has reached while
    the migration was not cancelled, that is not to be skipped for a
    conflict; and it is the write [dispatch] chooses. *)
Lemma run_calls (k j : nat) call :
  k ≤ length (e_items s0) →
  (∀ j' call', Called j' call' ∉ e_trace s0) →
  Called j call ∈ e_trace (run k) →
  j < k
  ∧ m_status (e_migration (run j)) ≠ M_cancelled
  ∧ ∃ item, e_items s0 !! j = Some item
            ∧ has_conflict item && resolution_is item "skip" = false
            ∧ dispatch (m_targetSpaceId (e_migration s0)) tc item
                (effective_name item (o_dateNow (x_item x j))) = Some call.
Proof.
  intros Hk Hnone Hin.
  refine (run_events
            (fun ev => ∀ (j : nat) call, ev = Called j call →
               j < k
               ∧ m_status (e_migration (run j)) ≠ M_cancelled
               ∧ ∃ item, e_items s0 !! j = Some item
                         ∧ has_conflict item && resolution_is item "skip" = false
                         ∧ dispatch (m_targetSpaceId (e_migration s0)) tc item
                             (effective_name item (o_dateNow (x_item x j))) = Some call)
            k Hk _ _ _ Hin j call eq_refl).
  - intros ev Hev j' call' ->. by destruct (Hnone j' call').
  - intros j' item ev Hj' Hitem Hc [->|Hpass] j'' call' Heq; [done|]. subst ev.
    destruct Hpass as (-> & Hskip & Hdispatch).
    split; [done|]. split; [done|]. exists item. split; [done|]. split; [done|].
    by destruct (run_migration x total tc s0 j') as (_ & <- & _).
Qed.

End LoopTrace.

(** ** The execution engine: whole runs *)

Lemma iteration_conflict_skip o total tc i s item :
  e_items s !! i = Some item →
  has_conflict item && resolution_is item "skip" = true →
  ∃ item', e_items (iteration o total tc i s) = <[i := item']> (e_items s)
           ∧ i_status item' = I_skipped.
Proof.
  intros Hitem Hskip. iteration_paths o s i item' Hi; [..|congruence].
  all: assert (item' = item) as -> by congruence.
  all: try congruence.
  all: rewrite ?list_insert_insert_eq; eauto.
Qed.

Section Execution.
Context (x : ExecOracle) (migration : Migration) (items : list MigrationItem).

Lemma at_loop_start_spec :
  let s := at_loop_start x migration items in
  e_items s = items
  ∧ e_completed s = 0 ∧ e_failed s = 0 ∧ e_skipped s = 0
  ∧ m_id (e_migration s) = m_id migration
  ∧ m_targetSpaceId (e_migration s) = m_targetSpaceId migration
  ∧ m_progress (e_migration s) = m_progress migration
  ∧ m_status (e_migration s)
    = (if x_cancelDuringResolve x then M_cancelled else M_running)
  ∧ (∀ ev, ev ∈ e_trace s →
       ev = CancelRequested
       ∨ ∃ m, ev = Suspended m items
              ∧ m_progress m = m_progress migration
              ∧ (m_status m = M_running ∨ m_status m = M_cancelled)).
Proof.
  unfold at_loop_start, begin. destruct (x_cancelDuringResolve x); engine_eval; simpl.
  all: repeat split; try done.
  all: intros ev Hev; repeat (apply elem_of_cons in Hev as [->|Hev]); eauto 10.
  all: by apply elem_of_nil in Hev.
Qed.

(** When the connection id resolves, the promise resolves, with the
    state the loop and the closing statements produce. *)
Lemma executeMigration_resolved tcid :
  findDataFilesConnectionId (x_connections x) (m_targetSpaceId migration) = Ok tcid →
  executeMigration x migration items
  = Resolved (finish x (length items)
                (state_before x migration items tcid (length items))).
Proof. intros Hfound. unfold executeMigration. by rewrite Hfound. Qed.

Lemma executeMigration_resolved_inv final :
  executeMigration x migration items = Resolved final →
  ∃ tcid,
    findDataFilesConnectionId (x_connections x) (m_targetSpaceId migration) = Ok tcid
    ∧ final = finish x (length items)
                (state_before x migration items tcid (length items)).
Proof.
  unfold executeMigration.
  destruct (findDataFilesConnectionId _ _) as [tcid|message]; [|done].
  intros [= <-]. eauto.
Qed.

Lemma executeMigration_rejected message s :
  executeMigration x migration items = Rejected message s →
  findDataFilesConnectionId (x_connections x) (m_targetSpaceId migration) = Throw message
  ∧ s = at_loop_start x migration items.
Proof.
  unfold executeMigration.
  destruct (findDataFilesConnectionId _ _) as [tcid|message']; [done|].
  by intros [= <- <-].
Qed.

Lemma state_before_length tcid (k : nat) :
  length (e_items (state_before x migration items tcid k)) = length items.
Proof.
  unfold state_before. rewrite run_length.
  by destruct at_loop_start_spec as (-> & _).
Qed.

(** The counters at the end of the loop are the tallies of the final
    statuses, and every item has a final status. *)
Lemma final_counters tcid :
  let s := state_before x migration items tcid (length items) in
  e_completed s = tally I_completed (e_items s)
  ∧ e_failed s = tally I_failed (e_items s)
  ∧ e_skipped s = tally I_skipped (e_items s)
  ∧ Forall (fun item => item_done (i_status item)) (e_items s).
Proof.
  simpl. pose proof (state_before_length tcid (length items)) as Hlen.
  unfold state_before in *.
  destruct at_loop_start_spec as (Hitems & Hc & Hf & Hs & _).
  destruct (run_counters x (length items) tcid (at_loop_start x migration items)
              (length items)) as (H1 & H2 & H3 & H4).
  { by rewrite Hitems. }
  rewrite Hc, Hf, Hs in *. rewrite take_ge in * by lia. done.
Qed.

Lemma item_done_tallies (l : list MigrationItem) :
  Forall (fun item => item_done (i_status item)) l →
  tally I_completed l + tally I_failed l + tally I_skipped l = length l.
Proof.
  unfold tally. induction 1 as [|item l Hdone _ IH]; [done|].
  rewrite !filter_cons. unfold item_done in Hdone. simpl.
  destruct Hdone as [-> | [-> | ->]]; simpl; lia.
Qed.

End Execution.

(** The creation handler builds [scenario_migration] and [scenario_items]. *)
Lemma scenario_created :
  Forall (fun strategy =>
            (createMigration remote_DB1 sample_uuid 1000 "tenant"
               (body_scenario strategy) empty_store).1
            = Json {| reply_migration := scenario_migration strategy;
                      reply_items := scenario_items strategy;
                      reply_conflicts := [mkConflict "DB1" NAME_EXISTS] |})
    ["skip"; "rename"].
Proof. repeat constructor. Qed.

Lemma finish_spec x total s :
  e_items (finish x total s) = e_items s
  ∧ m_status (e_migration (finish x total s))
    = (if Nat.eqb (e_failed s) total then M_failed else M_completed)
  ∧ m_progress (e_migration (finish x total s))
    = {| p_migrationId := None; p_total := total; p_completed := e_completed s;
         p_failed := e_failed s; p_skipped := e_skipped s; p_percentage := 100;
         p_currentItem := None |}
  ∧ e_trace (finish x total s)
    = e_trace s ++ [Suspended (e_migration (finish x total s)) (e_items s)].
Proof. done. Qed.

(** C2: in every execution that runs to its end, the final migration
    status is "failed" if and only if every item ended "failed"; if some
    item ended "completed", or merely fewer items failed than there are,
    the final status is "completed".  (For a migration with no item the
    equivalence holds too: the status is "failed".) *)
Theorem C2_final_status (x : ExecOracle) (migration : Migration)
    (items : list MigrationItem) (final : Engine) :
  executeMigration x migration items = Resolved final →
  (m_status (e_migration final) = M_failed
   ↔ Forall (fun item => i_status item = I_failed) (e_items final))
  ∧ (Exists (fun item => i_status item = I_completed) (e_items final) →
     m_status (e_migration final) = M_completed)
  ∧ (tally I_failed (e_items final) < length (e_items final) →
     m_status (e_migration final) = M_completed)
  ∧ length (e_items final) = length items.
Proof.
  intros (tcid & _ & ->)%executeMigration_resolved_inv.
  pose proof (final_counters x migration items tcid) as (_ & Hfailed & _ & _).
  pose proof (state_before_length x migration items tcid (length items)) as Hlen.
  simpl in Hfailed.
  remember (state_before x migration items tcid (length items)) as s eqn:Hs.
  clear Hs.
  destruct (finish_spec x (length items) s) as (-> & -> & _ & _).
  rewrite Hfailed, <- Hlen, <- tally_all.
  destruct (Nat.eqb_spec (tally I_failed (e_items s)) (length (e_items s)))
    as [Heq|Hne].
  - split; [done|]. split; [|split; [lia|done]].
    intros (item & Hin & Hst)%Exists_exists.
    apply tally_all in Heq. rewrite Forall_forall in Heq.
    apply Heq in Hin. congruence.
  - split; [done|]. done.
Qed.

Lemma C2_final_status_witness :
  let run := executeMigration refusing_oracle (scenario_migration "rename")
               (scenario_items "rename") in
  run = Resolved (settled run)
  ∧ m_status (e_migration (settled run)) = M_failed
  ∧ ((m_status (e_migration (settled run)) = M_failed
      ↔ Forall (fun item => i_status item = I_failed) (e_items (settled run)))
     ∧ (Exists (fun item => i_status item = I_completed) (e_items (settled run)) →
        m_status (e_migration (settled run)) = M_completed)
     ∧ (tally I_failed (e_items (settled run)) < length (e_items (settled run)) →
        m_status (e_migration (settled run)) = M_completed)
     ∧ length (e_items (settled run)) = length (scenario_items "rename")).
Proof.
  split; [vm_compute; reflexivity|]. split; [vm_compute; reflexivity|].
  apply (C2_final_status refusing_oracle (scenario_migration "rename")
           (scenario_items "rename")).
  vm_compute. reflexivity.
Defined.

Section Runs.
Context (x : ExecOracle) (migration : Migration) (items : list MigrationItem).

(** Every remote write of an execution: the run reached the loop, the
    item was reached while the migration was not cancelled, it is not to
    be skipped for a conflict, and the write is the one [dispatch]
    chooses for it under its effective name. *)
Lemma calls_of_execution (j : nat) call :
  Called j call ∈ e_trace (settled (executeMigration x migration items)) →
  ∃ tcid item,
    findDataFilesConnectionId (x_connections x) (m_targetSpaceId migration) = Ok tcid
    ∧ items !! j = Some item
    ∧ m_status (e_migration (state_before x migration items tcid j)) ≠ M_cancelled
    ∧ has_conflict item && resolution_is item "skip" = false
    ∧ dispatch (m_targetSpaceId migration) tcid item
        (effective_name item (o_dateNow (x_item x j))) = Some call.
Proof.
  pose proof (at_loop_start_spec x migration items)
    as (Hitems & _ & _ & _ & _ & Htarget & _ & _ & Hstart).
  simpl in *.
  assert (∀ j' call', Called j' call' ∉ e_trace (at_loop_start x migration items))
    as Hnone.
  { intros j' call' [Heq|(m & Heq & _)]%Hstart; discriminate Heq. }
  destruct (findDataFilesConnectionId (x_connections x) (m_targetSpaceId migration))
    as [tcid|message] eqn:Hfound.
  - rewrite (executeMigration_resolved x migration items tcid Hfound).
    cbn [settled]. unfold state_before.
    destruct (finish_spec x (length items)
                (run_items x (length items) tcid (length items)
                   (at_loop_start x migration items))) as (_ & _ & _ & ->).
    intros [Hin|Hin]%elem_of_app.
    + apply run_calls in Hin as (_ & Hc & item & Hitem & Hskip & Hdispatch);
        [|by rewrite Hitems|done].
      exists tcid, item. rewrite Hitems in Hitem. rewrite Htarget in Hdispatch. done.
    + apply list_elem_of_singleton in Hin. discriminate Hin.
  - unfold executeMigration. rewrite Hfound. cbn [settled].
    intros Hin. by destruct (Hnone j call).
Qed.

(** The final state of [items[k]] in an execution that ran to its end is
    the state the pass over it left. *)
Lemma final_item tcid (k : nat) :
  k < length items →
  e_items (state_before x migration items tcid (length items)) !! k
  = e_items (iteration (x_item x k) (length items) tcid k
               (state_before x migration items tcid k)) !! k.
Proof.
  intros Hk. unfold state_before.
  rewrite (run_settled _ _ _ _ (S k)) by lia. by rewrite run_items_S.
Qed.

Lemma state_before_item tcid (k : nat) :
  e_items (state_before x migration items tcid k) !! k = items !! k.
Proof.
  unfold state_before. rewrite run_untouched by done.
  by destruct (at_loop_start_spec x migration items) as (-> & _).
Qed.

(** C4: an item that carries a conflict annotation with resolution "skip"
    is never the subject of a remote duplicate or copy call, in any
    execution; and in every execution that runs to its end the item ends
    in status "skipped". *)
Theorem C4_conflict_skip_never_sent (k : nat) (item : MigrationItem) :
  items !! k = Some item →
  has_conflict item = true →
  resolution_is item "skip" = true →
  (∀ call, Called k call ∉ e_trace (settled (executeMigration x migration items)))
  ∧ (∀ final, executeMigration x migration items = Resolved final →
       ∃ item', e_items final !! k = Some item' ∧ i_status item' = I_skipped).
Proof.
  intros Hitem Hconflict Hskip. split.
  - intros call (tcid & item' & _ & Hitem' & _ & Hnot & _)%calls_of_execution.
    assert (item' = item) as -> by congruence.
    by rewrite Hconflict, Hskip in Hnot.
  - intros final (tcid & _ & ->)%executeMigration_resolved_inv.
    destruct (finish_spec x (length items)
                (state_before x migration items tcid (length items))) as (-> & _).
    rewrite final_item by (by eapply lookup_lt_Some).
    destruct (iteration_conflict_skip (x_item x k) (length items) tcid k
                (state_before x migration items tcid k) item) as (item' & -> & Hst).
    + by rewrite state_before_item.
    + by rewrite Hconflict, Hskip.
    + exists item'. split; [|done]. apply list_lookup_insert_eq.
      rewrite state_before_length. by eapply lookup_lt_Some.
Qed.

(** C3: once the loop finds the migration cancelled when it reaches
    [items[k]], every item from [k] on is marked "skipped" (and is
    otherwise as it was), no remote call is made for any of them, nothing
    more is notified, and the items before [k] keep the final statuses
    their own passes gave them. *)
Theorem C3_cancellation_skips_the_rest (tcid : option string) (k : nat) :
  findDataFilesConnectionId (x_connections x) (m_targetSpaceId migration) = Ok tcid →
  k ≤ length items →
  m_status (e_migration (state_before x migration items tcid k)) = M_cancelled →
  ∃ final,
    executeMigration x migration items = Resolved final
    ∧ (∀ (j : nat) item, k ≤ j → items !! j = Some item →
         e_items final !! j = Some (set_i_status I_skipped item))
    ∧ (∀ (j : nat) call, Called j call ∈ e_trace final → j < k)
    ∧ (∀ (j : nat), j < k →
         e_items final !! j = e_items (state_before x migration items tcid k) !! j
         ∧ ∃ item', e_items final !! j = Some item' ∧ item_done (i_status item'))
    ∧ e_trace final
      = e_trace (state_before x migration items tcid k)
        ++ [Suspended (e_migration final) (e_items final)].
Proof.
  intros Hfound Hk Hcancelled. eexists. split; [by apply executeMigration_resolved|].
  pose proof (at_loop_start_spec x migration items) as (Hitems & _).
  simpl in Hitems.
  destruct (finish_spec x (length items)
              (state_before x migration items tcid (length items)))
    as (Hfi & _ & _ & Hft).
  rewrite Hft, Hfi. clear Hft Hfi.
  unfold state_before in *.
  destruct (run_after_cancel x (length items) tcid (at_loop_start x migration items)
              k (length items) Hcancelled Hk) as (_ & Htrace & _ & _ & Hskipped).
  rewrite Hitems in Hskipped. rewrite Htrace.
  split; [|split; [|split]].
  - intros j item Hj Hitem. apply Hskipped; [|done].
    split; [done|]. by eapply lookup_lt_Some.
  - intros j call [Hin|Hin]%elem_of_app.
    + apply run_calls in Hin as (Hlt & _); [done|by rewrite Hitems|].
      intros j' call' Hin'.
      destruct (at_loop_start_spec x migration items) as (_ & _ & _ & _ & _ & _ & _ & _ & Hstart).
      by apply Hstart in Hin' as [Heq|(m & Heq & _)].
    + apply list_elem_of_singleton in Hin. discriminate Hin.
  - intros j Hj. split; [by apply run_settled|].
    destruct (lookup_lt_is_Some_2 items j) as [item Hitem]; [lia|].
    destruct (run_done x (length items) tcid (at_loop_start x migration items)
                j (length items) item) as (item' & Hl & _ & Hdone);
      [by rewrite Hitems|lia|].
    eauto.
  - done.
Qed.

End Runs.

Lemma C4_conflict_skip_never_sent_witness :
  scenario_items "skip" !! 0 = Some (scenario_connection "skip")
  ∧ has_conflict (scenario_connection "skip") = true
  ∧ resolution_is (scenario_connection "skip") "skip" = true
  ∧ executeMigration calm_oracle (scenario_migration "skip") (scenario_items "skip")
    = Resolved (settled (executeMigration calm_oracle (scenario_migration "skip")
                           (scenario_items "skip")))
  ∧ (∀ call, Called 0 call ∉ e_trace (settled (executeMigration calm_oracle
               (scenario_migration "skip") (scenario_items "skip"))))
  ∧ ∃ item', e_items (settled (executeMigration calm_oracle (scenario_migration "skip")
                                 (scenario_items "skip"))) !! 0 = Some item'
             ∧ i_status item' = I_skipped.
Proof.
  assert (executeMigration calm_oracle (scenario_migration "skip") (scenario_items "skip")
          = Resolved (settled (executeMigration calm_oracle (scenario_migration "skip")
                                 (scenario_items "skip")))) as Hresolved.
  { vm_compute. reflexivity. }
  split; [reflexivity|]. split; [reflexivity|]. split; [reflexivity|].
  split; [exact Hresolved|].
  destruct (C4_conflict_skip_never_sent calm_oracle (scenario_migration "skip")
              (scenario_items "skip") 0 (scenario_connection "skip")
              eq_refl eq_refl eq_refl) as [Hnever Hskipped].
  split; [exact Hnever|]. exact (Hskipped _ Hresolved).
Defined.

Lemma C3_cancellation_skips_the_rest_witness :
  findDataFilesConnectionId (x_connections cancelling_oracle)
    (m_targetSpaceId (scenario_migration "rename")) = Ok (Some "dfc-T")
  ∧ 1 ≤ length (scenario_items "rename")
  ∧ m_status (e_migration (state_before cancelling_oracle (scenario_migration "rename")
                             (scenario_items "rename") (Some "dfc-T") 1)) = M_cancelled
  ∧ ∃ final,
      executeMigration cancelling_oracle (scenario_migration "rename")
        (scenario_items "rename") = Resolved final
      ∧ (∀ (j : nat) item, 1 ≤ j → scenario_items "rename" !! j = Some item →
           e_items final !! j = Some (set_i_status I_skipped item))
      ∧ (∀ (j : nat) call, Called j call ∈ e_trace final → j < 1)
      ∧ (∀ (j : nat), j < 1 →
           e_items final !! j
           = e_items (state_before cancelling_oracle (scenario_migration "rename")
                        (scenario_items "rename") (Some "dfc-T") 1) !! j
           ∧ ∃ item', e_items final !! j = Some item' ∧ item_done (i_status item'))
      ∧ e_trace final
        = e_trace (state_before cancelling_oracle (scenario_migration "rename")
                     (scenario_items "rename") (Some "dfc-T") 1)
          ++ [Suspended (e_migration final) (e_items final)].
Proof.
  split; [reflexivity|]. split; [simpl; lia|]. split; [vm_compute; reflexivity|].
  apply (C3_cancellation_skips_the_rest cancelling_oracle (scenario_migration "rename")
           (scenario_items "rename") (Some "dfc-T") 1).
  - reflexivity.
  - simpl; lia.
  - vm_compute; reflexivity.
Defined.

(** ** Progress counts and notifications *)

Section Progress.
Context (x : ExecOracle) (migration : Migration) (items : list MigrationItem).

(** The counters when the loop reaches [items[k]] are the numbers of
    items before [k] that ended in each status; they add up to [k]. *)
Lemma counters_before tcid (k : nat) :
  k ≤ length items →
  let s := state_before x migration items tcid k in
  let final := state_before x migration items tcid (length items) in
  e_completed s = tally I_completed (take k (e_items final))
  ∧ e_failed s = tally I_failed (take k (e_items final))
  ∧ e_skipped s = tally I_skipped (take k (e_items final))
  ∧ e_completed s + e_failed s + e_skipped s = k.
Proof.
  intros Hk. simpl.
  pose proof (at_loop_start_spec x migration items) as (Hitems & Hc & Hf & Hs & _).
  simpl in *. unfold state_before.
  destruct (run_counters x (length items) tcid (at_loop_start x migration items) k)
    as (H1 & H2 & H3 & H4); [by rewrite Hitems|].
  assert (take k (e_items (run_items x (length items) tcid (length items)
                             (at_loop_start x migration items)))
          = take k (e_items (run_items x (length items) tcid k
                               (at_loop_start x migration items)))) as ->.
  { apply list_eq. intros j. destruct (decide (j < k)) as [Hj|Hj].
    - rewrite !lookup_take_lt by done. by apply run_settled.
    - by rewrite !lookup_take_ge by lia. }
  rewrite Hc, Hf, Hs in *. simpl in *.
  split; [done|]. split; [done|]. split; [done|].
  rewrite H1, H2, H3, item_done_tallies by done.
  rewrite length_take, run_length, Hitems. lia.
Qed.

Lemma state_before_status tcid (k : nat) :
  m_status (e_migration (state_before x migration items tcid k)) = M_running
  ∨ m_status (e_migration (state_before x migration items tcid k)) = M_cancelled.
Proof.
  unfold state_before.
  destruct (run_migration x (length items) tcid (at_loop_start x migration items) k)
    as (_ & _ & [-> | ->]); [|by right].
  destruct (at_loop_start_spec x migration items)
    as (_ & _ & _ & _ & _ & _ & _ & -> & _).
  destruct (x_cancelDuringResolve x); auto.
Qed.

(** Every state the loop exposes at an [await] has counts within the
    total and a status that is not terminal. *)
Lemma loop_observations tcid m its :
  counts_within (length items) (m_progress migration) →
  Suspended m its ∈ e_trace (state_before x migration items tcid (length items)) →
  counts_within (length items) (m_progress m) ∧ ¬ terminal (m_status m).
Proof.
  intros Hinitial Hin.
  pose proof (at_loop_start_spec x migration items)
    as (Hitems & _ & _ & _ & _ & _ & _ & _ & Hstart).
  simpl in *.
  refine (run_events x (length items) tcid (at_loop_start x migration items)
            (fun ev => ∀ m its, ev = Suspended m its →
               counts_within (length items) (m_progress m) ∧ ¬ terminal (m_status m))
            (length items) _ _ _ _ Hin m its eq_refl).
  - by rewrite Hitems.
  - intros ev Hev m' its' ->.
    apply Hstart in Hev as [Heq|(m'' & [= <- <-] & -> & Hst)]; [done|].
    split; [done|]. unfold terminal. intros [?|?]; destruct Hst; congruence.
  - intros j item ev Hj Hitem Hc [->|Hpass] m' its' Heq; [done|]. subst ev.
    destruct Hpass as (-> & Hst & _).
    destruct (counters_before tcid j) as (_ & _ & _ & Hsum); [lia|].
    fold (state_before x migration items tcid j) in *.
    split.
    + unfold counts_within, notification. simpl. split; [done|lia].
    + pose proof (state_before_status tcid j) as Hrun.
      unfold terminal. intros [?|?]; destruct Hst, Hrun; congruence.
Qed.

(** Every state a status request can observe during an execution and
    after it has settled is a good snapshot, provided the stored progress
    was within the item count when the execution started. *)
Lemma observations_within_total :
  counts_within (length items) (m_progress migration) →
  let s := settled (executeMigration x migration items) in
  (∀ m its, Suspended m its ∈ e_trace s → snapshot_ok (length items) m its)
  ∧ snapshot_ok (length items) (e_migration s) (e_items s).
Proof.
  intros Hinitial. simpl.
  pose proof (at_loop_start_spec x migration items)
    as (Hitems & _ & _ & _ & _ & _ & Hprogress & Hstatus & Hstart).
  simpl in Hitems, Hprogress, Hstatus, Hstart.
  destruct (findDataFilesConnectionId (x_connections x) (m_targetSpaceId migration))
    as [tcid|message] eqn:Hfound.
  - rewrite (executeMigration_resolved x migration items tcid Hfound). cbn [settled].
    pose proof (final_counters x migration items tcid) as (Hc & Hf & Hs & Hdone).
    pose proof (state_before_length x migration items tcid (length items)) as Hlen.
    simpl in Hc, Hf, Hs, Hdone.
    destruct (finish_spec x (length items)
                (state_before x migration items tcid (length items)))
      as (Hfi & Hfs & Hfp & Hft).
    assert (snapshot_ok (length items)
              (e_migration (finish x (length items)
                              (state_before x migration items tcid (length items))))
              (e_items (state_before x migration items tcid (length items))))
      as Hfinal.
    { unfold snapshot_ok, counts_within. rewrite Hfp. simpl.
      pose proof (item_done_tallies _ Hdone) as Hsum.
      rewrite Hc, Hf, Hs, Hsum, Hlen. done. }
    split; [|by rewrite Hfi].
    intros m its. rewrite Hft. intros [Hin|Hin]%elem_of_app.
    + destruct (loop_observations tcid m its Hinitial Hin) as (Hcounts & Hnot).
      split; [done|]. intros Hterminal. by destruct Hnot.
    + apply list_elem_of_singleton in Hin. by injection Hin as -> ->.
  - unfold executeMigration. rewrite Hfound. cbn [settled].
    assert (∀ m : Migration, m_progress m = m_progress migration →
              (m_status m = M_running ∨ m_status m = M_cancelled) →
              ∀ its, snapshot_ok (length items) m its) as Hok.
    { intros m Hp Hst its. split; [by rewrite Hp|].
      unfold terminal. intros [?|?]; destruct Hst; congruence. }
    split.
    + intros m its [Heq|(m' & [= <- <-] & Hp & Hst)]%Hstart; [done|]. by apply Hok.
    + apply Hok; [done|]. rewrite Hstatus. destruct (x_cancelDuringResolve x); auto.
Qed.

End Progress.

Lemma created_counts_within total : counts_within total (initial_progress total).
Proof. split; simpl; [done|lia]. Qed.

(** What creation leaves behind is what executions start from: status
    "created", the initial progress, every item "pending". *)
Lemma created_state (remote : Remote) (uuid : nat -> string) (now : Z)
    (tenantId : string) (body : CreateBody) (store store' : Store) (reply : CreateReply) :
  createMigration remote uuid now tenantId body store = (Json reply, store') →
  m_status (reply_migration reply) = M_created
  ∧ m_progress (reply_migration reply) = initial_progress (length (reply_items reply))
  ∧ Forall (fun item => i_status item = I_pending) (reply_items reply).
Proof.
  unfold createMigration.
  destruct (required_fields body) as [[[src tgt] items]|]; [|done].
  destruct (resolve_and_detect remote src tgt items) as [[[S1 S2] conflicts]|]; [|done].
  intros [= <- _]. simpl. rewrite length_imap. split; [done|]. split; [done|].
  apply Forall_forall. intros item Hin.
  by apply elem_of_lookup_imap_1 in Hin as (k & c & -> & _).
Qed.

(** C5: for every migration a creation request has produced, in every
    execution of it, every state a status request can observe (before
    the execution, at any of its [await]s, and once it has settled) has
    completed + failed + skipped ≤ total, with total the number of items;
    and whenever the observed status is terminal the three counts add up
    to the total, every item is in exactly one of the statuses completed,
    failed and skipped, and the counts are the numbers of items in each. *)
Theorem C5_progress_counts_within_total (remote : Remote) (uuid : nat -> string)
    (now : Z) (tenantId : string) (body : CreateBody) (store store' : Store)
    (reply : CreateReply) (x : ExecOracle) :
  createMigration remote uuid now tenantId body store = (Json reply, store') →
  let total := length (reply_items reply) in
  let s := settled (executeMigration x (reply_migration reply) (reply_items reply)) in
  snapshot_ok total (reply_migration reply) (reply_items reply)
  ∧ (∀ m its, Suspended m its ∈ e_trace s → snapshot_ok total m its)
  ∧ snapshot_ok total (e_migration s) (e_items s).
Proof.
  intros (Hstatus & Hprogress & _)%created_state. simpl.
  assert (counts_within (length (reply_items reply))
            (m_progress (reply_migration reply))) as Hwithin.
  { rewrite Hprogress. apply created_counts_within. }
  split.
  - split; [done|]. rewrite Hstatus. unfold terminal. intros [?|?]; discriminate.
  - by apply observations_within_total.
Qed.

Lemma C5_progress_counts_within_total_witness :
  createMigration remote_DB1 sample_uuid 1000 "tenant" (body_scenario "skip") empty_store
  = (Json {| reply_migration := scenario_migration "skip";
             reply_items := scenario_items "skip";
             reply_conflicts := [mkConflict "DB1" NAME_EXISTS] |},
     scenario_store "skip")
  ∧ snapshot_ok 2
      (e_migration (settled (executeMigration cancelling_oracle
                      (scenario_migration "skip") (scenario_items "skip"))))
      (e_items (settled (executeMigration cancelling_oracle
                  (scenario_migration "skip") (scenario_items "skip")))).
Proof.
  assert (createMigration remote_DB1 sample_uuid 1000 "tenant" (body_scenario "skip")
            empty_store
          = (Json {| reply_migration := scenario_migration "skip";
                     reply_items := scenario_items "skip";
                     reply_conflicts := [mkConflict "DB1" NAME_EXISTS] |},
             scenario_store "skip")) as Hcreated.
  { vm_compute. reflexivity. }
  split; [exact Hcreated|].
  apply (C5_progress_counts_within_total remote_DB1 sample_uuid 1000 "tenant"
           (body_scenario "skip") empty_store (scenario_store "skip") _
           cancelling_oracle Hcreated).
Defined.

(** The percentage against the exactly rounded quotient, for every count
    up to a total of 200, by evaluation: they agree except at exact halves,
    where the binary64 product may fall just below the half and the
    percentage is one less. *)
Lemma js_percentage_vs_rounded :
  forallb (fun total =>
             forallb (fun completed =>
                        let p := js_percentage completed total in
                        let r := rounded_percentage completed total in
                        Z.eqb p r
                        || (Z.eqb p (r - 1)
                            && Z.eqb (200 * Z.of_nat completed mod (2 * Z.of_nat total))
                                 (Z.of_nat total)))
                     (seq 0 (S total)))
          (seq 1 200) = true.
Proof. vm_compute. reflexivity. Qed.

Lemma js_percentage_rounded (completed total : nat) :
  1 ≤ total ≤ 200 → completed ≤ total →
  js_percentage completed total = rounded_percentage completed total
  ∨ (exact_half completed total
     ∧ js_percentage completed total = (rounded_percentage completed total - 1)%Z).
Proof.
  intros Htotal Hcompleted. pose proof js_percentage_vs_rounded as Hall.
  rewrite forallb_forall in Hall.
  specialize (Hall total). rewrite forallb_forall in Hall.
  specialize (Hall ltac:(apply in_seq; lia) completed ltac:(apply in_seq; lia)).
  cbv zeta in Hall.
  apply orb_true_iff in Hall as [Hsame | Hless]; [left; by apply Z.eqb_eq|].
  apply andb_true_iff in Hless as [Hless Hhalf]. right.
  split; [by apply Z.eqb_eq in Hhalf | by apply Z.eqb_eq].
Qed.

Section Notifications.
Context (x : ExecOracle) (migration : Migration) (items : list MigrationItem).

(** C6, as amended: for every item the loop processes (one it reaches
    while the migration is not cancelled) a progress notification is
    emitted before anything is done to the item: when it is emitted the
    item is still as it was and no remote call has been made for it, and
    everything the pass over the item does follows it in the trace.  The
    notification carries the total, the numbers of items before this one
    that ended completed, failed and skipped, the item's name, and
    percentage = Math.round((completed / total) * 100) as JavaScript
    evaluates it on binary64 numbers from that completed count.  For a
    migration of at most 200 items this percentage is
    round(100·completed/total) whenever 100·completed/total is not an exact
    half; at an exact half it is that value or one less. *)
Theorem C6_notification_before_processing (tcid : option string) (k : nat)
    (item : MigrationItem) :
  findDataFilesConnectionId (x_connections x) (m_targetSpaceId migration) = Ok tcid →
  items !! k = Some item →
  m_status (e_migration (state_before x migration items tcid k)) ≠ M_cancelled →
  ∃ final rest later,
    executeMigration x migration items = Resolved final
    ∧ e_trace final
      = e_trace (state_before x migration items tcid k)
        ++ Notified
             {| p_migrationId := Some (m_id migration);
                p_total := length items;
                p_completed := tally I_completed (take k (e_items final));
                p_failed := tally I_failed (take k (e_items final));
                p_skipped := tally I_skipped (take k (e_items final));
                p_percentage :=
                  js_percentage (tally I_completed (take k (e_items final)))
                    (length items);
                p_currentItem := Some (i_name item) |}
           :: rest ++ later
    ∧ e_items (state_before x migration items tcid k) !! k = Some item
    ∧ (∀ call, Called k call ∉ e_trace (state_before x migration items tcid k))
    ∧ Forall (pass_event (x_item x k) (length items) tcid k item
                (state_before x migration items tcid k)) rest
    ∧ (length items ≤ 200 →
       let completed := tally I_completed (take k (e_items final)) in
       js_percentage completed (length items)
       = rounded_percentage completed (length items)
       ∨ (exact_half completed (length items)
          ∧ js_percentage completed (length items)
            = (rounded_percentage completed (length items) - 1)%Z)).
Proof.
  intros Hfound Hitem Hrunning.
  pose proof (at_loop_start_spec x migration items)
    as (Hitems & _ & _ & _ & Hid & _ & _ & _ & Hstart).
  simpl in Hitems, Hid, Hstart.
  assert (k < length items) as Hk by (by eapply lookup_lt_Some).
  assert (∀ j' call', Called j' call' ∉ e_trace (at_loop_start x migration items))
    as Hnone.
  { intros j' call' [Heq|(m & Heq & _)]%Hstart; discriminate Heq. }
  destruct (counters_before x migration items tcid k) as (Hc & Hf & Hs & Hsum); [lia|].
  simpl in Hc, Hf, Hs, Hsum.
  destruct (finish_spec x (length items)
              (state_before x migration items tcid (length items)))
    as (Hfi & _ & _ & Hft).
  unfold state_before in *.
  destruct (run_trace_step x (length items) tcid (at_loop_start x migration items)
              k item) as [(Hcancelled & _)|(_ & rest & Hstep & Hrest & _)];
    [by rewrite Hitems|done|].
  destruct (run_trace_prefix x (length items) tcid (at_loop_start x migration items)
              (S k) (length items)) as (evs & Hevs); [lia|].
  eexists _, rest, (evs ++ [Suspended _ _]).
  split; [by apply executeMigration_resolved|].
  unfold state_before. rewrite Hfi, Hft, Hevs, Hstep, <- Hc, <- Hf, <- Hs.
  destruct (run_migration x (length items) tcid (at_loop_start x migration items) k)
    as (Hid' & _).
  unfold notification. rewrite Hid', Hid.
  split; [by rewrite <- !(assoc_L (++))|].
  split; [by rewrite run_untouched, Hitems|].
  split.
  { intros call Hin. apply run_calls in Hin as (Hlt & _); [lia|rewrite Hitems; lia|done]. }
  split; [done|].
  intros Hbound. cbv zeta. apply js_percentage_rounded; lia.
Qed.

End Notifications.

Lemma C6_notification_before_processing_witness :
  findDataFilesConnectionId (x_connections calm_oracle)
    (m_targetSpaceId (scenario_migration "skip")) = Ok (Some "dfc-T")
  ∧ scenario_items "skip" !! 1 = Some scenario_file
  ∧ m_status (e_migration (state_before calm_oracle (scenario_migration "skip")
                             (scenario_items "skip") (Some "dfc-T") 1)) ≠ M_cancelled
  ∧ ∃ final rest later,
      executeMigration calm_oracle (scenario_migration "skip") (scenario_items "skip")
      = Resolved final
      ∧ e_trace final
        = e_trace (state_before calm_oracle (scenario_migration "skip")
                     (scenario_items "skip") (Some "dfc-T") 1)
          ++ Notified
               {| p_migrationId := Some (m_id (scenario_migration "skip"));
                  p_total := length (scenario_items "skip");
                  p_completed := tally I_completed (take 1 (e_items final));
                  p_failed := tally I_failed (take 1 (e_items final));
                  p_skipped := tally I_skipped (take 1 (e_items final));
                  p_percentage :=
                    js_percentage (tally I_completed (take 1 (e_items final)))
                      (length (scenario_items "skip"));
                  p_currentItem := Some (i_name scenario_file) |}
             :: rest ++ later
      ∧ e_items (state_before calm_oracle (scenario_migration "skip")
                   (scenario_items "skip") (Some "dfc-T") 1) !! 1
        = Some scenario_file
      ∧ (∀ call, Called 1 call ∉ e_trace (state_before calm_oracle
                    (scenario_migration "skip") (scenario_items "skip")
                    (Some "dfc-T") 1))
      ∧ Forall (pass_event (x_item calm_oracle 1) (length (scenario_items "skip"))
                  (Some "dfc-T") 1 scenario_file
                  (state_before calm_oracle (scenario_migration "skip")
                     (scenario_items "skip") (Some "dfc-T") 1)) rest
      ∧ (length (scenario_items "skip") ≤ 200 →
         let completed := tally I_completed (take 1 (e_items final)) in
         js_percentage completed (length (scenario_items "skip"))
         = rounded_percentage completed (length (scenario_items "skip"))
         ∨ (exact_half completed (length (scenario_items "skip"))
            ∧ js_percentage completed (length (scenario_items "skip"))
              = (rounded_percentage completed (length (scenario_items "skip")) - 1)%Z)).
Proof.
  assert (m_status (e_migration (state_before calm_oracle (scenario_migration "skip")
                                   (scenario_items "skip") (Some "dfc-T") 1))
          ≠ M_cancelled) as Hrunning.
  { vm_compute. discriminate. }
  split; [reflexivity|]. split; [reflexivity|]. split; [exact Hrunning|].
  apply (C6_notification_before_processing calm_oracle (scenario_migration "skip")
           (scenario_items "skip") (Some "dfc-T") 1 scenario_file);
    [reflexivity|reflexivity|exact Hrunning].
Defined.

(** C6, counterexample to "percentage = round(100·completed/total)": in
    the execution of forty conflict-free files that all succeed, the
    notification before the 24th file carries completed = 23 of
    total = 40 and percentage 57, while 100·23/40 = 57.5 rounds to 58.
    In binary64, 23/40 is slightly below 0.575 and the product with 100
    is 57.49999999999999.  (Ties that survive the arithmetic go up: 1 of
    8 gives 13.) *)
Lemma C6_percentage_differs_at_tie :
  ∃ p,
    notifications_of
      (e_trace (settled (executeMigration calm_oracle forty_migration forty_items)))
      !! 23 = Some p
    ∧ p_total p = 40 ∧ p_completed p = 23
    ∧ p_percentage p = 57%Z
    ∧ rounded_percentage 23 40 = 58%Z
    ∧ js_percentage 1 8 = 13%Z.
Proof.
  eexists. split; [vm_compute; reflexivity|]. simpl.
  repeat split; vm_compute; reflexivity.
Qed.

(** ** Names under which items are copied *)

Lemma append_same_prefix (name suffix : string) :
  name +:+ suffix = name → suffix = "".
Proof.
  induction name as [|a name IH]; [done|]. intros [= Heq]. by apply IH.
Qed.

Lemma effective_name_rename (item : MigrationItem) (dateNow : Z) :
  has_conflict item = true → resolution_is item "rename" = true →
  effective_name item dateNow = i_name item +:+ "_copy_" +:+ pretty dateNow.
Proof. intros Hc Hr. unfold effective_name. by rewrite Hc, Hr. Qed.

Lemma effective_name_original (item : MigrationItem) (dateNow : Z) :
  has_conflict item = false → effective_name item dateNow = i_name item.
Proof. intros Hc. unfold effective_name. by rewrite Hc. Qed.

(** The synthesized name is not the original one, and it determines the
    clock reading it was made from. *)
Lemma renamed_differs (name : string) (dateNow : Z) :
  name +:+ "_copy_" +:+ pretty dateNow ≠ name.
Proof. intros Heq%append_same_prefix. discriminate Heq. Qed.

Lemma renamed_inj (name : string) (t1 t2 : Z) :
  name +:+ "_copy_" +:+ pretty t1 = name +:+ "_copy_" +:+ pretty t2 → t1 = t2.
Proof.
  intros Heq%(inj (String.app name))%(inj (String.app "_copy_")).
  by apply (inj pretty).
Qed.

(** The name a dispatched write carries: the effective name, except that
    a connection is duplicated without a name when the effective name is
    the original one. *)
Lemma dispatch_name tsid tc (item : MigrationItem) (newName : string) call :
  dispatch tsid tc item newName = Some call →
  call_name call
  = if String.eqb (i_itemType item) "connection"
    then (if String.eqb newName (i_name item) || String.eqb newName ""
          then None else Some newName)
    else Some newName.
Proof.
  unfold dispatch, duplicateConnection, copyFolder, copyDataFile.
  destruct (String.eqb (i_itemType item) "connection").
  - intros [= <-]. simpl.
    destruct (String.eqb newName (i_name item)); simpl; [done|].
    by destruct (String.eqb newName "").
  - destruct (String.eqb (i_itemType item) "folder"); [by intros [= <-]|].
    destruct (String.eqb (i_itemType item) "file"); [by intros [= <-]|done].
Qed.

(** C7, as amended: whenever a remote call is made for an item that
    carries a conflict annotation with resolution "rename", the name it
    passes is the original name followed by "_copy_" and the decimal clock
    reading [Date.now()], which differs from the original name, and
    differs from the name passed for the same item name in any other run
    whose clock reading differs; whenever a remote call is made for an
    item with no conflict annotation, the original name is used: it is
    the name passed for a file or a folder, and a connection is
    duplicated without a new name. *)
Theorem C7_names_passed_to_remote_calls (x : ExecOracle) (migration : Migration)
    (items : list MigrationItem) (k : nat) (item : MigrationItem) (call : RemoteCall) :
  items !! k = Some item →
  Called k call ∈ e_trace (settled (executeMigration x migration items)) →
  (has_conflict item = true → resolution_is item "rename" = true →
     call_name call = Some (i_name item +:+ "_copy_" +:+ pretty (o_dateNow (x_item x k)))
     ∧ call_name call ≠ Some (i_name item)
     ∧ ∀ x' migration' items' (k' : nat) item' call',
         items' !! k' = Some item' →
         Called k' call' ∈ e_trace (settled (executeMigration x' migration' items')) →
         has_conflict item' = true → resolution_is item' "rename" = true →
         i_name item' = i_name item →
         o_dateNow (x_item x' k') ≠ o_dateNow (x_item x k) →
         call_name call' ≠ call_name call)
  ∧ (has_conflict item = false →
     effective_name item (o_dateNow (x_item x k)) = i_name item
     ∧ call_name call
       = if String.eqb (i_itemType item) "connection" then None
         else Some (i_name item)).
Proof.
  assert (∀ x migration items (k : nat) item call,
            items !! k = Some item →
            Called k call ∈ e_trace (settled (executeMigration x migration items)) →
            has_conflict item = true → resolution_is item "rename" = true →
            call_name call
            = Some (i_name item +:+ "_copy_" +:+ pretty (o_dateNow (x_item x k))))
    as Hrenamed.
  { clear. intros x migration items k item call Hitem Hin Hc Hr.
    apply calls_of_execution in Hin as (tcid & item' & _ & Hitem' & _ & _ & Hd).
    assert (item' = item) as -> by congruence.
    apply dispatch_name in Hd. rewrite Hd, effective_name_rename by done.
    destruct (String.eqb_spec (i_name item +:+ "_copy_" +:+ pretty (o_dateNow (x_item x k)))
                (i_name item)) as [Heq|_].
    { by apply renamed_differs in Heq. }
    destruct (String.eqb_spec (i_name item +:+ "_copy_" +:+ pretty (o_dateNow (x_item x k)))
                "") as [Heq|_].
    { destruct (i_name item); discriminate Heq. }
    simpl. by destruct (String.eqb (i_itemType item) "connection"). }
  intros Hitem Hin. split.
  - intros Hc Hr. rewrite (Hrenamed _ _ _ _ _ _ Hitem Hin Hc Hr).
    split; [done|]. split.
    + intros [= Heq]. by apply renamed_differs in Heq.
    + intros x' migration' items' k' item' call' Hitem' Hin' Hc' Hr' Hname Hclock.
      rewrite (Hrenamed _ _ _ _ _ _ Hitem' Hin' Hc' Hr'), Hname.
      intros [= Heq]. by apply renamed_inj in Heq.
  - intros Hc. split; [by apply effective_name_original|].
    apply calls_of_execution in Hin as (tcid & item' & _ & Hitem' & _ & _ & Hd).
    assert (item' = item) as -> by congruence.
    apply dispatch_name in Hd. rewrite Hd, effective_name_original by done.
    by rewrite String.eqb_refl.
Qed.

Lemma C7_names_passed_to_remote_calls_witness :
  scenario_items "rename" !! 0 = Some (scenario_connection "rename")
  ∧ Called 0 (DuplicateConnection "c1" "T" (Some "DB1_copy_1700000000000"))
      ∈ e_trace (settled (executeMigration calm_oracle (scenario_migration "rename")
                            (scenario_items "rename")))
  ∧ Called 0 (DuplicateConnection "c1" "T" (Some "DB1_copy_1700086400000"))
      ∈ e_trace (settled (executeMigration next_day_oracle (scenario_migration "rename")
                            (scenario_items "rename")))
  ∧ call_name (DuplicateConnection "c1" "T" (Some "DB1_copy_1700000000000"))
    ≠ Some (i_name (scenario_connection "rename"))
  ∧ call_name (DuplicateConnection "c1" "T" (Some "DB1_copy_1700086400000"))
    ≠ call_name (DuplicateConnection "c1" "T" (Some "DB1_copy_1700000000000")).
Proof.
  assert (Called 0 (DuplicateConnection "c1" "T" (Some "DB1_copy_1700000000000"))
            ∈ e_trace (settled (executeMigration calm_oracle (scenario_migration "rename")
                                  (scenario_items "rename")))) as Hfirst.
  { apply (list_elem_of_lookup_2 _ 2). vm_compute. reflexivity. }
  assert (Called 0 (DuplicateConnection "c1" "T" (Some "DB1_copy_1700086400000"))
            ∈ e_trace (settled (executeMigration next_day_oracle (scenario_migration "rename")
                                  (scenario_items "rename")))) as Hsecond.
  { apply (list_elem_of_lookup_2 _ 2). vm_compute. reflexivity. }
  split; [reflexivity|]. split; [exact Hfirst|]. split; [exact Hsecond|].
  destruct (C7_names_passed_to_remote_calls calm_oracle (scenario_migration "rename")
              (scenario_items "rename") 0 (scenario_connection "rename")
              (DuplicateConnection "c1" "T" (Some "DB1_copy_1700000000000"))
              eq_refl Hfirst) as [Hrenamed _].
  destruct (Hrenamed eq_refl eq_refl) as (_ & Hdiffers & Hdistinct).
  split; [exact Hdiffers|].
  apply (Hdistinct next_day_oracle (scenario_migration "rename") (scenario_items "rename")
           0 (scenario_connection "rename")
           (DuplicateConnection "c1" "T" (Some "DB1_copy_1700086400000"))
           eq_refl Hsecond eq_refl eq_refl eq_refl).
  vm_compute. discriminate.
Defined.

(** ** A failed resolution of the file-storage connection *)

Lemma createMigration_keeps (remote : Remote) (uuid : nat -> string) (now : Z)
    (tenantId : string) (body : CreateBody) (store : Store) (migrationId : string) :
  uuid 0 ≠ migrationId →
  migrations (createMigration remote uuid now tenantId body store).2 !! migrationId
  = migrations store !! migrationId
  ∧ migrationItems (createMigration remote uuid now tenantId body store).2 !! migrationId
    = migrationItems store !! migrationId.
Proof.
  intros Hfresh. unfold createMigration.
  destruct (required_fields body) as [[[src tgt] items]|]; [|done].
  destruct (resolve_and_detect remote src tgt items) as [[[S1 S2] conflicts]|]; [|done].
  simpl. by rewrite !lookup_insert_ne.
Qed.

Section Stuck.
Context (migrationId : string) (items : list MigrationItem).

#[local] Abbreviation held P store := (held migrationId items P store).

Lemma handle_held (P : MigrationStatus → Prop) (store : Store) (request : Request) :
  ¬ P M_created →
  (P M_cancelled ∨ ¬ cancels migrationId request) →
  leaves_id_free migrationId request →
  held P store → held P (handle store request).
Proof.
  intros Hcreated Hcancel Hfree (m & Hm & HP & Hitems).
  destruct request as [remote uuid now tenantId body|x sid|sid|sid]; simpl.
  - destruct (createMigration_keeps remote uuid now tenantId body store migrationId Hfree)
      as (Hk1 & Hk2).
    exists m. by rewrite Hk1, Hk2.
  - unfold startMigration. destruct (decide (sid = migrationId)) as [->|Hne].
    + rewrite Hm. destruct (decide (m_status m = M_created)) as [Heq|_].
      * rewrite Heq in HP. done.
      * by exists m.
    + destruct (migrations store !! sid) as [m'|]; [|by exists m].
      destruct (decide (m_status m' = M_created)); [|by exists m].
      destruct (migrationItems store !! sid); [|by exists m].
      exists m. simpl. by rewrite !lookup_insert_ne.
  - unfold cancelMigration. destruct (decide (sid = migrationId)) as [->|Hne].
    + rewrite Hm. exists (set_m_status M_cancelled m). simpl.
      rewrite lookup_insert_eq. destruct Hcancel as [Hc|Hc]; [done|].
      by destruct Hc.
    + destruct (migrations store !! sid) as [m'|]; [|by exists m].
      exists m. simpl. by rewrite lookup_insert_ne.
  - by exists m.
Qed.

Lemma serve_held (P : MigrationStatus → Prop) (requests : list Request) (store : Store) :
  ¬ P M_created →
  (P M_cancelled ∨ Forall (fun request => ¬ cancels migrationId request) requests) →
  Forall (leaves_id_free migrationId) requests →
  held P store → held P (serve requests store).
Proof.
  intros Hcreated. revert store.
  induction requests as [|request requests IH]; intros store Hcancel Hfree Hheld;
    [done|].
  apply Forall_cons in Hfree as [Hfree1 Hfree].
  unfold serve. simpl. apply IH; [|done|].
  - destruct Hcancel as [Hc|Hc]; [by left|right]. by apply Forall_cons in Hc as [_ ?].
  - apply handle_held; [done| |done|done].
    destruct Hcancel as [Hc|Hc]; [by left|right]. by apply Forall_cons in Hc as [? _].
Qed.

End Stuck.

(** C9, as amended: if the request that resolves the target space's
    file-storage connection id throws, [executeMigration] rejects before
    it processes any item: nothing is notified, no remote write is sent,
    the items are left as they were (all "pending").  The engine has set
    the status to "running" and assigns nothing after it, and a second
    start is refused, so the migration never reaches the terminal
    statuses "completed" and "failed", whatever requests are served
    afterwards; its status is "running" unless a cancellation request
    sets it to "cancelled" (during the failing call or at any later
    time), and all its items stay "pending". *)
Theorem C9_resolution_failure_is_never_recovered (x : ExecOracle)
    (migrationId : string) (store : Store) (migration : Migration)
    (items : list MigrationItem) (message : string) :
  migrations store !! migrationId = Some migration →
  m_status migration = M_created →
  migrationItems store !! migrationId = Some items →
  Forall (fun item => i_status item = I_pending) items →
  x_connections x = Throw message →
  (∃ s, executeMigration x migration items = Rejected message s
        ∧ e_items s = items
        ∧ (∀ ev, ev ∈ e_trace s →
             (∀ p, ev ≠ Notified p) ∧ (∀ (j : nat) call, ev ≠ Called j call))
        ∧ m_status (e_migration s)
          = (if x_cancelDuringResolve x then M_cancelled else M_running))
  ∧ ∀ requests, Forall (leaves_id_free migrationId) requests →
      ∃ m, migrations (serve requests (startMigration x migrationId store).2)
             !! migrationId = Some m
           ∧ (m_status m = M_running ∨ m_status m = M_cancelled)
           ∧ ¬ terminal (m_status m)
           ∧ (x_cancelDuringResolve x = false →
              Forall (fun request => ¬ cancels migrationId request) requests →
              m_status m = M_running)
           ∧ migrationItems (serve requests (startMigration x migrationId store).2)
               !! migrationId = Some items
           ∧ Forall (fun item => i_status item = I_pending) items.
Proof.
  intros Hm Hcreated Hitems Hpending Hthrow.
  pose proof (at_loop_start_spec x migration items)
    as (Hsi & _ & _ & _ & _ & _ & _ & Hst & Hstart).
  simpl in Hsi, Hst, Hstart.
  assert (executeMigration x migration items
          = Rejected message (at_loop_start x migration items)) as Hrun.
  { unfold executeMigration. by rewrite Hthrow. }
  split.
  - exists (at_loop_start x migration items).
    split; [done|]. split; [done|]. split; [|done].
    intros ev Hev. apply Hstart in Hev as [Heq|(m & Heq & _)]; subst ev;
      split; intros; discriminate.
  - intros requests Hfree.
    assert ((startMigration x migrationId store).2
            = {| migrations :=
                   <[migrationId := e_migration (at_loop_start x migration items)]>
                     (migrations store);
                 migrationItems := <[migrationId := items]> (migrationItems store) |})
      as Hstarted.
    { unfold startMigration. rewrite Hm, Hitems, Hrun.
      destruct (decide (m_status migration = M_created)); [|done].
      simpl. by rewrite Hsi. }
    rewrite Hstarted.
    set (started := {| migrations := _; migrationItems := _ |}).
    assert (held migrationId items
              (fun st => st = M_running ∨ st = M_cancelled) started) as Hheld.
    { eexists. split; [apply lookup_insert_eq|]. split; [|apply lookup_insert_eq].
      rewrite Hst. destruct (x_cancelDuringResolve x); auto. }
    destruct (serve_held migrationId items
                (fun st => st = M_running ∨ st = M_cancelled) requests started)
      as (m & Hlookup & Hstatus & Hstays); [|by left; right|done|done|].
    { intros [?|?]; discriminate. }
    exists m. split; [done|]. split; [done|].
    split; [unfold terminal; intros [?|?]; destruct Hstatus; congruence|].
    split; [|done].
    intros Hquiet Hnocancel.
    assert (held migrationId items (fun st => st = M_running) started) as Hrunning.
    { eexists. split; [apply lookup_insert_eq|]. split; [|apply lookup_insert_eq].
      by rewrite Hst, Hquiet. }
    destruct (serve_held migrationId items (fun st => st = M_running) requests started)
      as (m' & Hlookup' & Hstatus' & _); [discriminate|by right|done|done|].
    congruence.
Qed.

Lemma C9_resolution_failure_is_never_recovered_witness :
  migrations (scenario_store "skip") !! "uuid-0" = Some (scenario_migration "skip")
  ∧ m_status (scenario_migration "skip") = M_created
  ∧ migrationItems (scenario_store "skip") !! "uuid-0" = Some (scenario_items "skip")
  ∧ Forall (fun item => i_status item = I_pending) (scenario_items "skip")
  ∧ x_connections unresolved_oracle = Throw "Request failed with status code 500"
  ∧ ∃ m, migrations
           (serve [StatusRequest "uuid-0"; StartRequest calm_oracle "uuid-0"]
              (startMigration unresolved_oracle "uuid-0" (scenario_store "skip")).2)
           !! "uuid-0" = Some m
         ∧ m_status m = M_running.
Proof.
  assert (Forall (fun item => i_status item = I_pending) (scenario_items "skip"))
    as Hpending by (repeat constructor).
  split; [reflexivity|]. split; [reflexivity|]. split; [reflexivity|].
  split; [exact Hpending|]. split; [reflexivity|].
  destruct (C9_resolution_failure_is_never_recovered unresolved_oracle "uuid-0"
              (scenario_store "skip") (scenario_migration "skip")
              (scenario_items "skip") "Request failed with status code 500"
              eq_refl eq_refl eq_refl Hpending eq_refl) as [_ Hforever].
  destruct (Hforever [StatusRequest "uuid-0"; StartRequest calm_oracle "uuid-0"])
    as (m & Hlookup & _ & _ & Hrunning & _).
  { repeat constructor. }
  exists m. split; [exact Hlookup|]. apply Hrunning; [reflexivity|].
  repeat constructor; discriminate.
Defined.

(** C9, counterexample to "remains in status running forever": the
    resolution fails and the migration is left "running"; a cancellation
    request served afterwards sets it to "cancelled". *)
Lemma C9_cancel_after_failed_resolution :
  m_status <$> migrations (startMigration unresolved_oracle "uuid-0"
                             (scenario_store "skip")).2 !! "uuid-0"
  = Some M_running
  ∧ m_status <$> migrations
                   (serve [CancelRequest "uuid-0"]
                      (startMigration unresolved_oracle "uuid-0"
                         (scenario_store "skip")).2) !! "uuid-0"
    = Some M_cancelled.
Proof. split; vm_compute; reflexivity. Qed.

(** C7, counterexample to "distinct across repeated runs": two runs in
    which [Date.now()] reads the same at the rename (here one whose remote
    writes succeed and one whose writes are refused) pass the same name. *)
Lemma C7_same_clock_reading_same_name :
  Called 0 (DuplicateConnection "c1" "T" (Some "DB1_copy_1700000000000"))
    ∈ e_trace (settled (executeMigration calm_oracle (scenario_migration "rename")
                          (scenario_items "rename")))
  ∧ Called 0 (DuplicateConnection "c1" "T" (Some "DB1_copy_1700000000000"))
      ∈ e_trace (settled (executeMigration refusing_oracle (scenario_migration "rename")
                            (scenario_items "rename")))
  ∧ x_item calm_oracle 0 ≠ x_item refusing_oracle 0.
Proof.
  split; [|split].
  - apply (list_elem_of_lookup_2 _ 2). vm_compute. reflexivity.
  - apply (list_elem_of_lookup_2 _ 2). vm_compute. reflexivity.
  - vm_compute. discriminate.
Qed.

(** ** The scenarios of the specification *)

(** Strategy "skip": the connection is skipped, the file is copied, the
    migration completes with total 2, completed 1, skipped 1, failed 0. *)
Lemma scenario_skip :
  let final := settled (executeMigration calm_oracle (scenario_migration "skip")
                          (scenario_items "skip")) in
  i_status <$> e_items final = [I_skipped; I_completed]
  ∧ m_status (e_migration final) = M_completed
  ∧ m_progress (e_migration final)
    = {| p_migrationId := None; p_total := 2; p_completed := 1; p_failed := 0;
         p_skipped := 1; p_percentage := 100; p_currentItem := None |}
  ∧ omap (fun ev => match ev with Called _ call => Some call | _ => None end)
      (e_trace final)
    = [CopyDataFile "f1" (Some "dfc-T") "report.csv"].
Proof. vm_compute. done. Qed.

(** Strategy "rename": the connection is duplicated under a synthesized
    name, both items complete. *)
Lemma scenario_rename :
  let final := settled (executeMigration calm_oracle (scenario_migration "rename")
                          (scenario_items "rename")) in
  i_status <$> e_items final = [I_completed; I_completed]
  ∧ m_status (e_migration final) = M_completed
  ∧ p_completed (m_progress (e_migration final)) = 2
  ∧ omap (fun ev => match ev with Called _ call => Some call | _ => None end)
      (e_trace final)
    = [DuplicateConnection "c1" "T" (Some "DB1_copy_1700000000000");
       CopyDataFile "f1" (Some "dfc-T") "report.csv"]
  ∧ notifications_of (e_trace final)
    = [ {| p_migrationId := Some "uuid-0"; p_total := 2; p_completed := 0;
           p_failed := 0; p_skipped := 0; p_percentage := 0;
           p_currentItem := Some "DB1" |};
        {| p_migrationId := Some "uuid-0"; p_total := 2; p_completed := 1;
           p_failed := 0; p_skipped := 0; p_percentage := 50;
           p_currentItem := Some "report.csv" |} ].
Proof. vm_compute. done. Qed.

(** * Further properties of the code *)

(** ** generateUUID *)

Lemma toString16_digit (v : N) :
  (v < 16)%N → toString16 v = String (hex_digit v) EmptyString.
Proof.
  intros Hv. unfold toString16. simpl.
  rewrite N.mod_small by done. by apply N.ltb_lt in Hv as ->.
Qed.

Lemma variant_digit (r : N) :
  hex_digit (N.lor (N.land r 3) 8) ∈ ["8"; "9"; "a"; "b"]%char
  ∧ (N.lor (N.land r 3) 8 < 16)%N.
Proof.
  assert (N.land r 3 < 4)%N as Hlt.
  { change 3%N with (N.ones 2). rewrite N.land_ones. by apply N.mod_lt. }
  assert (N.land r 3 = 0 ∨ N.land r 3 = 1 ∨ N.land r 3 = 2 ∨ N.land r 3 = 3)%N
    as [-> | [-> | [-> | ->]]] by lia.
  all: split; [|by vm_compute].
  all: vm_compute hex_digit.
  all: repeat (first [apply list_elem_of_here | apply list_elem_of_further]).
Qed.

Lemma replace_xy_chars (random16 : nat -> N) (template : string) (k : nat) :
  (∀ j, (random16 j < 16)%N) →
  Forall2 uuid_char_ok (list_ascii_of_string template)
    (list_ascii_of_string (replace_xy random16 k template)).
Proof.
  intros Hrandom. revert k.
  induction template as [|t template IH]; intros k; simpl; [constructor|].
  destruct (Ascii.eqb t "x") eqn:Hx.
  - rewrite toString16_digit by done. simpl. constructor; [|apply IH].
    unfold uuid_char_ok. rewrite Hx. eauto.
  - destruct (Ascii.eqb t "y") eqn:Hy.
    + destruct (variant_digit (random16 k)) as [Hin Hlt].
      rewrite toString16_digit by done. simpl. constructor; [|apply IH].
      unfold uuid_char_ok. by rewrite Hx, Hy.
    + simpl. constructor; [|apply IH]. unfold uuid_char_ok. by rewrite Hx, Hy.
Qed.

Lemma get_list_ascii (s : string) (i : nat) :
  String.get i s = list_ascii_of_string s !! i.
Proof.
  revert i. induction s as [|c s IH]; intros [|i]; simpl; auto.
Qed.

Lemma length_list_ascii (s : string) :
  String.length s = length (list_ascii_of_string s).
Proof. induction s as [|c s IH]; simpl; congruence. Qed.

(** X1: when every [Math.random() * 16 | 0] is a value from 0 to 15,
    [generateUUID] returns a string of 36 characters that follows its
    template position by position: a lowercase hexadecimal digit for each
    x, one of 8, 9, a, b for the y, and the template's own character (the
    dashes and the version digit 4) everywhere else. *)
Theorem X1_generateUUID_format (random16 : nat -> N) :
  (∀ j, (random16 j < 16)%N) →
  Forall2 uuid_char_ok (list_ascii_of_string uuid_template)
    (list_ascii_of_string (generateUUID random16))
  ∧ String.length (generateUUID random16) = 36
  ∧ (∀ i, i ∈ [8; 13; 18; 23] → String.get i (generateUUID random16) = Some "-"%char)
  ∧ String.get 14 (generateUUID random16) = Some "4"%char.
Proof.
  intros Hrandom.
  assert (Forall2 uuid_char_ok (list_ascii_of_string uuid_template)
            (list_ascii_of_string (generateUUID random16))) as Hchars
    by (unfold generateUUID; apply replace_xy_chars, Hrandom).
  split; [exact Hchars|].
  remember (generateUUID random16) as id eqn:Hid. clear Hid.
  assert (∀ i t, list_ascii_of_string uuid_template !! i = Some t →
                 Ascii.eqb t "x" = false → Ascii.eqb t "y" = false →
                 String.get i id = Some t) as Hfixed.
  { intros i t Ht Hx Hy. rewrite get_list_ascii.
    destruct (Forall2_lookup_l _ _ _ _ _ Hchars Ht) as (c & Hc & Hok).
    unfold uuid_char_ok in Hok. rewrite Hx, Hy in Hok. by subst. }
  split; [|split].
  - rewrite length_list_ascii. rewrite <- (Forall2_length _ _ _ Hchars). reflexivity.
  - intros i Hi.
    repeat (apply elem_of_cons in Hi as [-> | Hi]; [apply Hfixed; reflexivity|]).
    by apply elem_of_nil in Hi.
  - apply Hfixed; reflexivity.
Qed.

Lemma X1_generateUUID_format_witness :
  (∀ j : nat, ((fun k => N.of_nat (k mod 16)) j < 16)%N)
  ∧ generateUUID (fun k => N.of_nat (k mod 16))
    = "01234567-89ab-4cde-b012-3456789abcde"
  ∧ String.length (generateUUID (fun k => N.of_nat (k mod 16))) = 36.
Proof.
  assert (∀ j : nat, (N.of_nat (j mod 16) < 16)%N) as Hrange.
  { intros j. pose proof (Nat.mod_upper_bound j 16). lia. }
  split; [exact Hrange|]. split; [vm_compute; reflexivity|].
  apply (X1_generateUUID_format (fun k => N.of_nat (k mod 16)) Hrange).
Defined.

(** ** QlikService *)

Lemma find_first {A} (p : A → bool) (l : list A) :
  match List.find p l with
  | Some x =>
      ∃ i, l !! i = Some x ∧ p x = true
           ∧ ∀ j y, j < i → l !! j = Some y → p y = false
  | None => ∀ y, y ∈ l → p y = false
  end.
Proof.
  induction l as [|a l IH]; simpl.
  - intros y Hy. by apply elem_of_nil in Hy.
  - destruct (p a) eqn:Ha.
    + exists 0. repeat split; [done|]. intros j y Hj. lia.
    + destruct (List.find p l) as [x|].
      * destruct IH as (i & Hi & Hx & Hbefore). exists (S i).
        repeat split; [done..|]. intros [|j] y Hj; simpl.
        -- by intros [= <-].
        -- apply Hbefore. lia.
      * intros y [-> | Hy]%elem_of_cons; auto.
Qed.

Lemma sublist_List_filter {A} (p : A → bool) (l : list A) :
  List.filter p l `sublist_of` l.
Proof.
  induction l as [|a l IH]; simpl; [done|].
  destruct (p a); by constructor.
Qed.

(** X2: [getDataFilesConnectionId] fails exactly when its request fails,
    with the same message.  Otherwise it answers with the id of the FIRST
    data-files connection of the reply that belongs to the space: every
    connection listed before it belongs to another space.  It answers
    null exactly when no connection of the reply (or no reply data at
    all) belongs to the space. *)
Theorem X2_getDataFilesConnectionId_first_of_space (remote : Remote) (spaceId : string) :
  match GET_data_files_connections remote with
  | Throw message => getDataFilesConnectionId remote spaceId = Throw message
  | Ok reply =>
      let connections := default [] reply in
      match getDataFilesConnectionId remote spaceId with
      | Throw _ => False
      | Ok (Some id) =>
          ∃ i c, connections !! i = Some c ∧ dfc_id c = id
                 ∧ dfc_spaceId c = spaceId
                 ∧ ∀ j c', j < i → connections !! j = Some c' →
                           dfc_spaceId c' ≠ spaceId
      | Ok None => ∀ c, c ∈ connections → dfc_spaceId c ≠ spaceId
      end
  end.
Proof.
  unfold getDataFilesConnectionId, findDataFilesConnectionId.
  destruct (GET_data_files_connections remote) as [reply|message]; [|done].
  cbn.
  pose proof (find_first (fun c => String.eqb (dfc_spaceId c) spaceId)
                (default [] reply)) as Hfind.
  destruct (List.find _ _) as [c|]; cbn.
  - destruct Hfind as (i & Hi & Hc & Hbefore). exists i, c.
    repeat split; [done| |].
    + by apply String.eqb_eq.
    + intros j c' Hj Hc'. apply String.eqb_neq. eauto.
  - intros c Hc. apply String.eqb_neq. eauto.
Qed.

(** X3: [listDataFiles] sends its one data-files request scoped to the
    space's data-files connection when [getDataFilesConnectionId] found
    one, and returns the reply's files as they are.  When it found none
    it asks for the files of all spaces and keeps, in order, exactly those
    whose [spaceId] is the requested space.  It fails when either request
    fails. *)
Theorem X3_listDataFiles_scope (remote : Remote) (spaceId : string)
    (includeFolders : bool) :
  match getDataFilesConnectionId remote spaceId with
  | Throw message => listDataFiles remote spaceId includeFolders = Throw message
  | Ok connectionId =>
      if truthy connectionId then
        listDataFiles remote spaceId includeFolders
        = default [] <$> GET_data_files remote connectionId includeFolders
      else
        match GET_data_files remote None includeFolders with
        | Throw message =>
            listDataFiles remote spaceId includeFolders = Throw message
        | Ok reply =>
            ∃ files,
              listDataFiles remote spaceId includeFolders = Ok files
              ∧ files `sublist_of` default [] reply
              ∧ ∀ f, f ∈ files ↔ f ∈ default [] reply ∧ df_spaceId f = spaceId
        end
  end.
Proof.
  unfold listDataFiles.
  destruct (getDataFilesConnectionId remote spaceId) as [connectionId|message];
    [|done].
  cbn. destruct (truthy connectionId).
  - by destruct (GET_data_files remote connectionId includeFolders).
  - destruct (GET_data_files remote None includeFolders) as [reply|message];
      [|done].
    cbn. eexists. split; [done|]. split.
    + apply sublist_List_filter.
    + intros f. rewrite elem_of_List_filter, String.eqb_eq. tauto.
Qed.


(** X5: when the data files of the target space can be listed,
    [checkFileConflicts] returns, in the order given, exactly the given
    names that some listed file answers to.  A file answers to its [name]
    when that is present and not empty, and to its [baseName] only
    otherwise: a file with a name is never matched through its base
    name. *)
Theorem X5_checkFileConflicts_exact (remote : Remote) (targetSpaceId : string)
    (names : list string) :
  match listDataFiles remote targetSpaceId true with
  | Throw message => checkFileConflicts remote targetSpaceId names = Throw message
  | Ok existing =>
      ∃ conflicts,
        checkFileConflicts remote targetSpaceId names = Ok conflicts
        ∧ conflicts `sublist_of` names
        ∧ ∀ name, name ∈ conflicts ↔
                  name ∈ names
                  ∧ ∃ f, f ∈ existing
                         ∧ ((df_name f = Some name ∧ name ≠ "")
                            ∨ (truthy (df_name f) = false
                               ∧ df_baseName f = Some name))
  end.
Proof.
  unfold checkFileConflicts.
  destruct (listDataFiles remote targetSpaceId true) as [existing|message];
    [|done].
  cbn. eexists. split; [done|]. split.
  - apply sublist_List_filter.
  - intros name.
    rewrite elem_of_List_filter, bool_decide_eq_true, elem_of_list_to_set,
      list_elem_of_omap.
    apply and_iff_compat_l. split.
    + intros (f & Hf & Hname). exists f. split; [done|].
      unfold or_else in Hname. destruct (truthy (df_name f)) eqn:Htruthy.
      * left. split; [done|]. intros ->. rewrite Hname in Htruthy. done.
      * by right.
    + intros (f & Hf & Hname). exists f. split; [done|]. unfold or_else.
      destruct Hname as [[Hname Hne] | [-> Hname]]; [|done].
      rewrite Hname. cbn. by apply String.eqb_neq in Hne as ->.
Qed.

(** ** The creation handler *)

Lemma resolve_and_detect_Ok (remote : Remote) src tgt (items : list Candidate)
    sourceSpace targetSpace allConflicts :
  resolve_and_detect remote src tgt items = Ok (sourceSpace, targetSpace, allConflicts) →
  GET_space remote src = Ok sourceSpace
  ∧ GET_space remote tgt = Ok targetSpace
  ∧ ∃ connConflicts fileConflicts,
      checkConnectionConflicts remote tgt (connNames items) = Ok connConflicts
      ∧ checkFileConflicts remote tgt (fileNames items) = Ok fileConflicts
      ∧ allConflicts = connConflicts ++ fileConflicts.
Proof.
  unfold resolve_and_detect, getSpace.
  destruct (GET_space remote src) as [S1|]; [|done].
  destruct (GET_space remote tgt) as [S2|]; [|done].
  destruct (checkConnectionConflicts _ _ _) as [cc|]; [|done].
  destruct (checkFileConflicts _ _ _) as [fc|]; [|done].
  cbn. intros [= -> -> <-]. eauto 10.
Qed.

Lemma createMigration_Json (remote : Remote) (uuid : nat -> string) (now : Z)
    (tenantId : string) (body : CreateBody) (store store' : Store) (reply : CreateReply) :
  createMigration remote uuid now tenantId body store = (Json reply, store') →
  ∃ src tgt candidates sourceSpace targetSpace allConflicts,
    required_fields body = Some (src, tgt, candidates)
    ∧ resolve_and_detect remote src tgt candidates
      = Ok (sourceSpace, targetSpace, allConflicts)
    ∧ reply_migration reply
      = {| m_id := uuid 0; m_tenantId := tenantId; m_sourceSpaceId := src;
           m_sourceSpaceName := space_name sourceSpace; m_targetSpaceId := tgt;
           m_targetSpaceName := space_name targetSpace; m_status := M_created;
           m_options := default (mkOptions (Some "copy") (Some "skip")) (b_options body);
           m_progress := initial_progress (length candidates);
           m_createdAt := now; m_startedAt := None; m_completedAt := None |}
    ∧ reply_items reply
      = imap (fun k item => new_item (uuid 0) allConflicts (b_options body)
                              (uuid (S k)) item) candidates
    ∧ reply_conflicts reply = (fun name => mkConflict name NAME_EXISTS) <$> allConflicts
    ∧ store' = {| migrations := <[uuid 0 := reply_migration reply]> (migrations store);
                  migrationItems :=
                    <[uuid 0 := reply_items reply]> (migrationItems store) |}.
Proof.
  unfold createMigration.
  destruct (required_fields body) as [[[src tgt] candidates]|] eqn:Hfields; [|done].
  destruct (resolve_and_detect remote src tgt candidates)
    as [[[sourceSpace targetSpace] allConflicts]|] eqn:Hresolve; [|done].
  intros [= <- <-]. exists src, tgt, candidates, sourceSpace, targetSpace, allConflicts.
  by repeat split.
Qed.

(** X6: a migration that [POST /api/migrations] creates carries the first
    generated id, the tenant, the two space ids of the request, the names
    the two spaces resolved to, status created, the clock reading, and a
    progress of zero over as many items as were selected.  Its items are
    the selected candidates one for one and in the same order: the k-th
    item has the (k+1)-th generated id, points back at the migration, has
    the candidate's source id, type and name, the candidate's size or 0
    when none was given, status pending, and no target id, error or
    timestamp yet. *)
Theorem X6_created_items_follow_candidates (remote : Remote) (uuid : nat -> string)
    (now : Z) (tenantId : string) (body : CreateBody) (store store' : Store)
    (reply : CreateReply) :
  createMigration remote uuid now tenantId body store = (Json reply, store') →
  ∃ sourceSpaceId targetSpaceId candidates sourceSpace targetSpace,
    b_sourceSpaceId body = Some sourceSpaceId
    ∧ b_targetSpaceId body = Some targetSpaceId
    ∧ b_items body = Some candidates
    ∧ GET_space remote sourceSpaceId = Ok sourceSpace
    ∧ GET_space remote targetSpaceId = Ok targetSpace
    ∧ reply_migration reply
      = {| m_id := uuid 0; m_tenantId := tenantId;
           m_sourceSpaceId := sourceSpaceId;
           m_sourceSpaceName := space_name sourceSpace;
           m_targetSpaceId := targetSpaceId;
           m_targetSpaceName := space_name targetSpace; m_status := M_created;
           m_options := default (mkOptions (Some "copy") (Some "skip")) (b_options body);
           m_progress := mkProgress None (length candidates) 0 0 0 0 None;
           m_createdAt := now; m_startedAt := None; m_completedAt := None |}
    ∧ length (reply_items reply) = length candidates
    ∧ ∀ (k : nat) c, candidates !! k = Some c →
        ∃ item, reply_items reply !! k = Some item
                ∧ i_id item = uuid (S k)
                ∧ i_migrationId item = uuid 0
                ∧ i_sourceId item = c_sourceId c
                ∧ i_itemType item = c_itemType c
                ∧ i_name item = c_name c
                ∧ i_sizeBytes item = default 0%Z (c_sizeBytes c)
                ∧ i_status item = I_pending
                ∧ i_targetId item = None ∧ i_errorMessage item = None
                ∧ i_startedAt item = None ∧ i_completedAt item = None.
Proof.
  intros (src & tgt & candidates & sourceSpace & targetSpace & allConflicts
          & Hfields & Hresolve & Hmigration & Hitems & _ & _)%createMigration_Json.
  apply required_fields_Some in Hfields as (Hsrc & Htgt & Hcandidates & _).
  apply resolve_and_detect_Ok in Hresolve as (HS & HT & _).
  exists src, tgt, candidates, sourceSpace, targetSpace.
  repeat split; try done.
  - rewrite Hitems. apply length_imap.
  - intros k c Hc. eexists. rewrite Hitems, list_lookup_imap, Hc. cbn.
    by repeat split.
Qed.

Lemma X6_created_items_follow_candidates_witness :
  ∃ reply store',
    createMigration remote_DB1 sample_uuid 1000 "tenant" body_same_name empty_store
    = (Json reply, store')
    ∧ i_id <$> reply_items reply = ["uuid-1"; "uuid-2"]
    ∧ ∃ candidates,
        b_items body_same_name = Some candidates
        ∧ length (reply_items reply) = length candidates.
Proof.
  eexists _, _. split; [vm_compute; reflexivity|]. split; [vm_compute; reflexivity|].
  destruct (X6_created_items_follow_candidates remote_DB1 sample_uuid 1000 "tenant"
              body_same_name empty_store _ _ eq_refl)
    as (? & ? & candidates & ? & ? & ? & ? & Hcandidates & ? & ? & ? & Hlength & ?).
  exists candidates. split; [exact Hcandidates | exact Hlength].
Defined.

(** X7: the conflict annotations of a created item go together.  An item
    whose name is among the conflicts the reply reports has conflict type
    NAME_EXISTS and, as its resolution, the request's conflict strategy,
    or "skip" when the request names none (no options, no strategy, or an
    empty one); every other item has neither.  The migration's own options
    are the request's when it has any, and copy/skip otherwise. *)
Theorem X7_created_items_conflict_annotation (remote : Remote) (uuid : nat -> string)
    (now : Z) (tenantId : string) (body : CreateBody) (store store' : Store)
    (reply : CreateReply) (item : MigrationItem) :
  createMigration remote uuid now tenantId body store = (Json reply, store') →
  item ∈ reply_items reply →
  let strategy :=
    match b_options body with
    | Some {| conflictStrategy := Some s |} => if String.eqb s "" then "skip" else s
    | _ => "skip"
    end in
  if bool_decide (i_name item ∈ conflict_name <$> reply_conflicts reply)
  then i_conflictType item = Some NAME_EXISTS
       ∧ i_conflictResolution item = Some strategy
  else i_conflictType item = None ∧ i_conflictResolution item = None.
Proof.
  intros (src & tgt & candidates & sourceSpace & targetSpace & allConflicts
          & _ & _ & _ & Hitems & Hconflicts & _)%createMigration_Json Hitem.
  rewrite Hitems in Hitem.
  apply list_elem_of_lookup in Hitem as [k Hk].
  rewrite list_lookup_imap in Hk.
  destruct (candidates !! k) as [c|]; [|done]. cbn in Hk.
  injection Hk as <-. cbn.
  assert (chosen_strategy (b_options body)
          = match b_options body with
            | Some {| conflictStrategy := Some s |} =>
                if String.eqb s "" then "skip" else s
            | _ => "skip"
            end) as <-.
  { unfold chosen_strategy, or_else.
    destruct (b_options body) as [[? [s|]]|]; cbn; try done.
    by destruct (String.eqb s ""). }
  rewrite Hconflicts, <- list_fmap_compose.
  replace (conflict_name ∘ (fun name => mkConflict name NAME_EXISTS) <$> allConflicts)
    with allConflicts by (by rewrite <- (list_fmap_id allConflicts) at 1).
  destruct (includes allConflicts (c_name c)) eqn:Hincludes.
  - apply includes_elem_of in Hincludes. by rewrite bool_decide_eq_true_2.
  - rewrite bool_decide_eq_false_2; [done|].
    rewrite <- includes_elem_of. congruence.
Qed.

Lemma X7_created_items_conflict_annotation_witness :
  (i_conflictType (scenario_connection "skip") = Some NAME_EXISTS
   ∧ i_conflictResolution (scenario_connection "skip") = Some "skip")
  ∧ (i_conflictType scenario_file = None ∧ i_conflictResolution scenario_file = None).
Proof.
  assert (createMigration remote_DB1 sample_uuid 1000 "tenant"
            {| b_sourceSpaceId := Some "S"; b_targetSpaceId := Some "T";
               b_items := b_items (body_scenario "skip"); b_options := None |}
            empty_store
          = (Json {| reply_migration := scenario_migration "skip";
                     reply_items := scenario_items "skip";
                     reply_conflicts := [mkConflict "DB1" NAME_EXISTS] |},
             scenario_store "skip")) as Hcreated by (vm_compute; reflexivity).
  split.
  - apply (X7_created_items_conflict_annotation _ _ _ _ _ _ _ _
             (scenario_connection "skip") Hcreated).
    apply (list_elem_of_lookup_2 _ 0). reflexivity.
  - apply (X7_created_items_conflict_annotation _ _ _ _ _ _ _ _
             scenario_file Hcreated).
    apply (list_elem_of_lookup_2 _ 1). reflexivity.
Defined.

(** X8: what the creation handler returns is what a status request for
    the new id answers right afterwards: the same migration and the same
    items.  A status request for any other id is answered as before the
    creation, and when the creation fails every status request is. *)
Theorem X8_created_then_status (remote : Remote) (uuid : nat -> string) (now : Z)
    (tenantId : string) (body : CreateBody) (store : Store) :
  let result := createMigration remote uuid now tenantId body store in
  match result.1 with
  | Json reply =>
      m_id (reply_migration reply) = uuid 0
      ∧ getMigrationStatus (uuid 0) result.2
        = Json (reply_migration reply, Some (reply_items reply))
      ∧ ∀ other, other ≠ uuid 0 →
          getMigrationStatus other result.2 = getMigrationStatus other store
  | Status _ _ => result.2 = store
  end.
Proof.
  cbn zeta.
  destruct (createMigration remote uuid now tenantId body store)
    as [[reply|code error] store'] eqn:Hcreate; cbn [fst snd].
  - apply createMigration_Json in Hcreate
      as (src & tgt & candidates & sourceSpace & targetSpace & allConflicts
          & _ & _ & Hmigration & _ & _ & ->).
    split; [by rewrite Hmigration|]. unfold getMigrationStatus. cbn. split.
    + by rewrite !lookup_insert_eq.
    + intros other Hother. by rewrite !lookup_insert_ne.
  - unfold createMigration in Hcreate.
    destruct (required_fields body) as [[[src tgt] candidates]|]; [|congruence].
    destruct (resolve_and_detect remote src tgt candidates) as [[[? ?] ?]|];
      congruence.
Qed.

(** ** The status, cancel and start handlers *)

(** X9: a cancel request for an id the store does not hold answers 404
    and leaves the store as it is; one for a stored migration changes
    nothing of it but the status.  Cancelling twice is the same as
    cancelling once: same answer, same store. *)
Theorem X9_cancelMigration_idempotent (migrationId : string) (store : Store) :
  cancelMigration migrationId (cancelMigration migrationId store).2
  = cancelMigration migrationId store
  ∧ match migrations store !! migrationId with
    | None => cancelMigration migrationId store = (Status 404 "Not found", store)
    | Some m =>
        ∃ m', (cancelMigration migrationId store).1 = Json m'
              ∧ m' = mkMigration (m_id m) (m_tenantId m) (m_sourceSpaceId m)
                       (m_sourceSpaceName m) (m_targetSpaceId m)
                       (m_targetSpaceName m) M_cancelled (m_options m)
                       (m_progress m) (m_createdAt m) (m_startedAt m)
                       (m_completedAt m)
    end.
Proof.
  unfold cancelMigration.
  destruct (migrations store !! migrationId) as [m|] eqn:Hm; cbn.
  - rewrite lookup_insert_eq, insert_insert_eq. split; [done|]. by eexists.
  - by rewrite Hm.
Qed.

(** ** One pass of the loop, case by case *)

Lemma calls_of_app (t1 t2 : list Event) :
  calls_of (t1 ++ t2) = calls_of t1 ++ calls_of t2.
Proof. apply omap_app. Qed.

Lemma same_identity_refl (m : Migration) : same_identity m m.
Proof. by repeat split. Qed.

Lemma same_identity_trans (a b c : Migration) :
  same_identity a b → same_identity b c → same_identity a c.
Proof. unfold same_identity. intuition congruence. Qed.

Lemma iteration_outcome o total tc i s item :
  e_items s !! i = Some item →
  let s' := iteration o total tc i s in
  same_identity (e_migration s) (e_migration s')
  ∧ m_startedAt (e_migration s') = m_startedAt (e_migration s)
  ∧ m_completedAt (e_migration s') = m_completedAt (e_migration s)
  ∧ ∃ item',
      e_items s' = <[i := item']> (e_items s)
      ∧ ((m_status (e_migration s) = M_cancelled
          ∧ item' = set_i_status I_skipped item
          ∧ calls_of (e_trace s') = calls_of (e_trace s))
         ∨ (m_status (e_migration s) ≠ M_cancelled
            ∧ has_conflict item && resolution_is item "skip" = true
            ∧ item' = set_i_status I_skipped (started o item)
            ∧ calls_of (e_trace s') = calls_of (e_trace s))
         ∨ (m_status (e_migration s) ≠ M_cancelled
            ∧ has_conflict item && resolution_is item "skip" = false
            ∧ dispatch (m_targetSpaceId (e_migration s)) tc item
                (effective_name item (o_dateNow o)) = None
            ∧ item' = set_i_completedAt (o_completedAt o)
                        (set_i_status I_completed (started o item))
            ∧ calls_of (e_trace s') = calls_of (e_trace s))
         ∨ (m_status (e_migration s) ≠ M_cancelled
            ∧ has_conflict item && resolution_is item "skip" = false
            ∧ ∃ call,
                dispatch (m_targetSpaceId (e_migration s)) tc item
                  (effective_name item (o_dateNow o)) = Some call
                ∧ calls_of (e_trace s') = calls_of (e_trace s) ++ [(i, call)]
                ∧ match o_reply o with
                  | Ok reply =>
                      item' = set_i_completedAt (o_completedAt o)
                                (set_i_status I_completed
                                   (set_i_targetId (assigned_id (started o item) reply)
                                      (started o item)))
                  | Throw message =>
                      item' = set_i_completedAt (o_completedAt o)
                                (set_i_errorMessage message
                                   (set_i_status I_failed (started o item)))
                  end)).
Proof.
  intros Hitem. cbn zeta.
  iteration_paths o s i item' Hi; [..|congruence].
  all: assert (item' = item) as -> by congruence.
  all: rewrite ?list_insert_insert_eq.
  all: rewrite ?calls_of_app; cbn [calls_of omap]; rewrite ?app_nil_r.
  all: split; [by repeat split|]; split; [done|]; split; [done|].
  all: eexists; split; [reflexivity|].
  all: first
         [ by left
         | right; left; by repeat split
         | right; right; left; by repeat split
         | right; right; right; repeat split; [done..|]; eexists; by repeat split ].
Qed.

(** ** The loop as a whole, item by item *)

Lemma elem_of_calls_of (j : nat) (call : RemoteCall) (trace : list Event) :
  (j, call) ∈ calls_of trace ↔ Called j call ∈ trace.
Proof.
  unfold calls_of. rewrite list_elem_of_omap. split.
  - intros ([] & Hev & Heq); try done. by injection Heq as -> ->.
  - intros Hev. by exists (Called j call).
Qed.

Lemma iteration_uninterrupted o total tc i s :
  o_cancelDuringCall o = false → o_cancelDuringDelay o = false →
  m_status (e_migration (iteration o total tc i s)) = m_status (e_migration s).
Proof.
  intros Hcall Hdelay. iteration_paths o s i item Hi; first [congruence | done].
Qed.

Section LoopOutcome.
Context (x : ExecOracle) (total : nat) (tc : option string) (s0 : Engine).

#[local] Abbreviation run k := (run_items x total tc k s0).

Lemma run_identity (k : nat) :
  same_identity (e_migration s0) (e_migration (run k))
  ∧ m_startedAt (e_migration (run k)) = m_startedAt (e_migration s0)
  ∧ m_completedAt (e_migration (run k)) = m_completedAt (e_migration s0).
Proof.
  induction k as [|k IH].
  - unfold run_items; simpl. split; [apply same_identity_refl|done].
  - rewrite run_items_S. destruct IH as (Hid & Hs & Hc).
    destruct (e_items (run k) !! k) as [item|] eqn:Hitem.
    + destruct (iteration_outcome (x_item x k) total tc k _ item Hitem)
        as (Hid' & Hs' & Hc' & _).
      split; [by eapply same_identity_trans|]. split; congruence.
    + by rewrite iteration_out_of_range.
Qed.

Lemma run_calls_sorted (k : nat) :
  calls_of (e_trace s0) = [] →
  Forall (fun c => c.1 < k) (calls_of (e_trace (run k)))
  ∧ StronglySorted (fun a b => a.1 < b.1) (calls_of (e_trace (run k))).
Proof.
  intros Hnone. induction k as [|k IH].
  - unfold run_items; simpl. rewrite Hnone. split; constructor.
  - destruct IH as [Hbound Hsorted]. rewrite run_items_S.
    assert (Forall (fun c => c.1 < S k) (calls_of (e_trace (run k)))) as Hbound'.
    { eapply Forall_impl; [exact Hbound|]. intros c Hc. simpl in Hc. lia. }
    destruct (e_items (run k) !! k) as [item|] eqn:Hitem.
    + destruct (iteration_outcome (x_item x k) total tc k _ item Hitem)
        as (_ & _ & _ & item' & _ & Hcases).
      destruct Hcases
        as [(_ & _ & ->) | [(_ & _ & _ & ->) | [(_ & _ & _ & _ & ->)
           | (_ & _ & call & _ & -> & _)]]]; try done.
      split.
      * apply Forall_app. split; [done|]. repeat constructor.
      * apply StronglySorted_app_2; [|done|repeat constructor].
        intros a b Ha Hb. apply list_elem_of_singleton in Hb as ->.
        rewrite Forall_forall in Hbound. by apply Hbound.
    + by rewrite iteration_out_of_range.
Qed.

Lemma run_uninterrupted (k : nat) :
  (∀ j, o_cancelDuringCall (x_item x j) = false
        ∧ o_cancelDuringDelay (x_item x j) = false) →
  m_status (e_migration (run k)) = m_status (e_migration s0).
Proof.
  intros Hquiet. induction k as [|k IH]; [done|].
  rewrite run_items_S, iteration_uninterrupted; [done|apply Hquiet..].
Qed.
End LoopOutcome.

Section Outcome.
Context (x : ExecOracle) (migration : Migration) (items : list MigrationItem).

Lemma state_before_target tcid (k : nat) :
  m_targetSpaceId (e_migration (state_before x migration items tcid k))
  = m_targetSpaceId migration.
Proof.
  unfold state_before.
  destruct (run_migration x (length items) tcid (at_loop_start x migration items) k)
    as (_ & -> & _).
  by destruct (at_loop_start_spec x migration items) as (_ & _ & _ & _ & _ & -> & _).
Qed.

(** What became of [items[k]]: the four ways through the loop body. *)
Lemma execution_item tcid (k : nat) item :
  findDataFilesConnectionId (x_connections x) (m_targetSpaceId migration) = Ok tcid →
  items !! k = Some item →
  let o := x_item x k in
  let before := state_before x migration items tcid k in
  let final := settled (executeMigration x migration items) in
  ∃ item',
    e_items final !! k = Some item'
    ∧ ((m_status (e_migration before) = M_cancelled
        ∧ item' = set_i_status I_skipped item
        ∧ ∀ call, Called k call ∉ e_trace final)
       ∨ (m_status (e_migration before) ≠ M_cancelled
          ∧ has_conflict item && resolution_is item "skip" = true
          ∧ item' = set_i_status I_skipped (started o item)
          ∧ ∀ call, Called k call ∉ e_trace final)
       ∨ (m_status (e_migration before) ≠ M_cancelled
          ∧ has_conflict item && resolution_is item "skip" = false
          ∧ dispatch (m_targetSpaceId migration) tcid item
              (effective_name item (o_dateNow o)) = None
          ∧ item' = set_i_completedAt (o_completedAt o)
                      (set_i_status I_completed (started o item))
          ∧ ∀ call, Called k call ∉ e_trace final)
       ∨ (m_status (e_migration before) ≠ M_cancelled
          ∧ has_conflict item && resolution_is item "skip" = false
          ∧ ∃ call,
              dispatch (m_targetSpaceId migration) tcid item
                (effective_name item (o_dateNow o)) = Some call
              ∧ Called k call ∈ e_trace final
              ∧ match o_reply o with
                | Ok reply =>
                    item' = set_i_completedAt (o_completedAt o)
                              (set_i_status I_completed
                                 (set_i_targetId (assigned_id (started o item) reply)
                                    (started o item)))
                | Throw message =>
                    item' = set_i_completedAt (o_completedAt o)
                              (set_i_errorMessage message
                                 (set_i_status I_failed (started o item)))
                end)).
Proof.
  intros Htcid Hitem. cbn zeta.
  assert (∀ call,
            Called k call ∈ e_trace (settled (executeMigration x migration items)) →
            m_status (e_migration (state_before x migration items tcid k)) ≠ M_cancelled
            ∧ has_conflict item && resolution_is item "skip" = false
            ∧ dispatch (m_targetSpaceId migration) tcid item
                (effective_name item (o_dateNow (x_item x k))) = Some call) as Hsent.
  { intros call Hcall.
    apply calls_of_execution in Hcall
      as (tcid' & item'' & Htcid' & Hitem'' & Hrunning & Hskip & Hdispatch).
    assert (tcid' = tcid) as -> by congruence.
    assert (item'' = item) as -> by congruence. done. }
  assert (k < length items) as Hk by (by eapply lookup_lt_Some).
  rewrite (executeMigration_resolved x migration items tcid Htcid) in *.
  cbn [settled] in *.
  destruct (finish_spec x (length items)
              (state_before x migration items tcid (length items)))
    as (Hitems & _ & _ & Htrace).
  rewrite Hitems, (final_item x migration items tcid k Hk).
  pose proof (state_before_item x migration items tcid k) as Hbefore.
  rewrite Hitem in Hbefore.
  destruct (iteration_outcome (x_item x k) (length items) tcid k _ item Hbefore)
    as (_ & _ & _ & item' & Hitems' & Hcases).
  rewrite state_before_target in Hcases.
  exists item'. split.
  { rewrite Hitems'. apply list_lookup_insert_eq.
    by rewrite state_before_length. }
  destruct Hcases
    as [(Hc & -> & _) | [(Hr & Hskip & -> & _) | [(Hr & Hskip & Hnone & -> & _)
       | (Hr & Hskip & call & Hcall & Hcalls & Hreply)]]].
  - left. repeat split; [done|]. intros call Hcall. by apply Hsent in Hcall as [? _].
  - right; left. repeat split; [done..|]. intros call Hcall.
    apply Hsent in Hcall as (_ & ? & _). congruence.
  - right; right; left. repeat split; [done..|]. intros call Hcall.
    apply Hsent in Hcall as (_ & _ & ?). congruence.
  - right; right; right. repeat split; [done..|]. exists call.
    repeat split; [done| |done].
    rewrite Htrace. apply elem_of_app. left.
    destruct (run_trace_prefix x (length items) tcid (at_loop_start x migration items)
                (S k) (length items)) as [evs Hevs]; [lia|].
    unfold state_before. rewrite Hevs. apply elem_of_app. left.
    rewrite run_items_S. apply elem_of_calls_of.
    fold (state_before x migration items tcid k). rewrite Hcalls.
    apply elem_of_app. right. by apply list_elem_of_singleton.
Qed.

Lemma execution_identity :
  let s := settled (executeMigration x migration items) in
  same_identity migration (e_migration s)
  ∧ m_startedAt (e_migration s) = Some (x_startedAt x)
  ∧ m_completedAt (e_migration s)
    = match executeMigration x migration items with
      | Resolved _ => Some (x_completedAt x)
      | Rejected _ _ => m_completedAt migration
      end.
Proof.
  cbn zeta.
  assert (same_identity migration (e_migration (at_loop_start x migration items))
          ∧ m_startedAt (e_migration (at_loop_start x migration items))
            = Some (x_startedAt x)
          ∧ m_completedAt (e_migration (at_loop_start x migration items))
            = m_completedAt migration) as (Hid & Hs & Hc).
  { unfold at_loop_start, begin, suspend, emit, with_migration.
    destruct (x_cancelDuringResolve x); cbn; by repeat split. }
  unfold executeMigration.
  destruct (findDataFilesConnectionId _ _) as [tcid|message]; cbn [settled]; [|done].
  destruct (run_identity x (length items) tcid (at_loop_start x migration items)
              (length items)) as (Hid' & Hs' & Hc').
  remember (run_items _ _ _ _ _) as s eqn:Heqs. clear Heqs.
  pose proof (same_identity_trans _ _ _ Hid Hid') as Hall.
  unfold finish, emit, with_migration. cbn.
  split; [|split; congruence].
  unfold same_identity in *. cbn. tauto.
Qed.
End Outcome.

(** ** What an execution leaves behind *)

Lemma execution_items_static (x : ExecOracle) (migration : Migration)
    (items : list MigrationItem) :
  Forall2 same_static items (e_items (settled (executeMigration x migration items))).
Proof.
  destruct (executeMigration x migration items) as [final|message s] eqn:Hexec;
    cbn [settled].
  - apply executeMigration_resolved_inv in Hexec as Hinv.
    destruct Hinv as (tcid & Htcid & Hfinal).
    apply Forall2_same_length_lookup_2.
    { rewrite Hfinal.
      destruct (finish_spec x (length items)
                  (state_before x migration items tcid (length items))) as (-> & _).
      by rewrite state_before_length. }
    intros k item item' Hitem Hitem'.
    destruct (execution_item x migration items tcid k item Htcid Hitem)
      as (item'' & Hfound & Hcases).
    rewrite Hexec in Hfound. cbn [settled] in Hfound.
    assert (item'' = item') as -> by congruence.
    destruct Hcases
      as [(_ & -> & _) | [(_ & _ & -> & _) | [(_ & _ & _ & -> & _)
         | (_ & _ & call & _ & _ & Hreply)]]]; [by repeat split..|].
    destruct (o_reply (x_item x k)); subst item'; by repeat split.
  - apply executeMigration_rejected in Hexec as [_ ->].
    destruct (at_loop_start_spec x migration items) as (-> & _).
    apply Forall2_same_length_lookup_2; [done|].
    intros k item item' Hitem Hitem'.
    assert (item' = item) as -> by congruence. by repeat split.
Qed.

Lemma settled_not_created (x : ExecOracle) (migration : Migration)
    (items : list MigrationItem) :
  m_status (e_migration (settled (executeMigration x migration items))) ≠ M_created.
Proof.
  unfold executeMigration.
  destruct (findDataFilesConnectionId _ _) as [tcid|message]; cbn [settled].
  - destruct (finish_spec x (length items)
                (run_items x (length items) tcid (length items)
                   (at_loop_start x migration items))) as (_ & -> & _).
    by destruct (Nat.eqb _ _).
  - destruct (at_loop_start_spec x migration items)
      as (_ & _ & _ & _ & _ & _ & _ & -> & _).
    by destruct (x_cancelDuringResolve x).
Qed.

(** X10: an execution assigns nothing but state.  However it ends
    (resolved or rejected, cancelled or not), the migration keeps its id,
    tenant, space ids and names, options and creation time, and its start
    time is the clock reading taken at the start; the list of items keeps
    its length and order, and each item keeps its id, migration id, source
    id, type, name, size and conflict annotation. *)
Theorem X10_execution_assigns_only_state (x : ExecOracle) (migration : Migration)
    (items : list MigrationItem) :
  let s := settled (executeMigration x migration items) in
  same_identity migration (e_migration s)
  ∧ m_startedAt (e_migration s) = Some (x_startedAt x)
  ∧ Forall2 same_static items (e_items s).
Proof.
  cbn zeta.
  destruct (execution_identity x migration items) as (Hid & Hstarted & _).
  split; [done|]. split; [done|]. apply execution_items_static.
Qed.

Section ItemOutcome.
Context (x : ExecOracle) (migration : Migration) (items : list MigrationItem)
  (final : Engine) (k : nat) (item item' : MigrationItem).
Hypothesis Hresolved : executeMigration x migration items = Resolved final.
Hypothesis Hitem : items !! k = Some item.
Hypothesis Hitem' : e_items final !! k = Some item'.

Lemma item_cases :
  ∃ tcid,
    findDataFilesConnectionId (x_connections x) (m_targetSpaceId migration) = Ok tcid
    ∧ let o := x_item x k in
      let before := state_before x migration items tcid k in
      (m_status (e_migration before) = M_cancelled
       ∧ item' = set_i_status I_skipped item
       ∧ ∀ call, Called k call ∉ e_trace final)
      ∨ (m_status (e_migration before) ≠ M_cancelled
         ∧ has_conflict item && resolution_is item "skip" = true
         ∧ item' = set_i_status I_skipped (started o item)
         ∧ ∀ call, Called k call ∉ e_trace final)
      ∨ (m_status (e_migration before) ≠ M_cancelled
         ∧ has_conflict item && resolution_is item "skip" = false
         ∧ dispatch (m_targetSpaceId migration) tcid item
             (effective_name item (o_dateNow o)) = None
         ∧ item' = set_i_completedAt (o_completedAt o)
                     (set_i_status I_completed (started o item))
         ∧ ∀ call, Called k call ∉ e_trace final)
      ∨ (m_status (e_migration before) ≠ M_cancelled
         ∧ has_conflict item && resolution_is item "skip" = false
         ∧ ∃ call,
             dispatch (m_targetSpaceId migration) tcid item
               (effective_name item (o_dateNow o)) = Some call
             ∧ Called k call ∈ e_trace final
             ∧ match o_reply o with
               | Ok reply =>
                   item' = set_i_completedAt (o_completedAt o)
                             (set_i_status I_completed
                                (set_i_targetId (assigned_id (started o item) reply)
                                   (started o item)))
               | Throw message =>
                   item' = set_i_completedAt (o_completedAt o)
                             (set_i_errorMessage message
                                (set_i_status I_failed (started o item)))
               end).
Proof.
  destruct (executeMigration_resolved_inv x migration items final Hresolved)
    as (tcid & Htcid & _).
  exists tcid. split; [done|].
  destruct (execution_item x migration items tcid k item Htcid Hitem)
    as (item'' & Hfound & Hcases).
  rewrite Hresolved in Hfound, Hcases. cbn [settled] in Hfound, Hcases.
  assert (item'' = item') as -> by congruence. exact Hcases.
Qed.
End ItemOutcome.

Lemma dispatch_None tsid tc (item : MigrationItem) (newName : string) :
  dispatch tsid tc item newName = None ↔ known_type (i_itemType item) = false.
Proof.
  unfold dispatch, known_type.
  destruct (String.eqb (i_itemType item) "connection"); [done|].
  destruct (String.eqb (i_itemType item) "folder"); [done|].
  by destruct (String.eqb (i_itemType item) "file").
Qed.

(** X11: in an execution that ran through, an item ends in status failed
    exactly when a remote write was sent for it and that write threw
    (the request was refused, or its reply could not be read).  The item
    then carries the thrown message as its error message and the two clock
    readings as start and completion time, and its target id is left as it
    was. *)
Theorem X11_failed_item_records_the_error (x : ExecOracle) (migration : Migration)
    (items : list MigrationItem) (final : Engine) (k : nat)
    (item item' : MigrationItem) :
  executeMigration x migration items = Resolved final →
  items !! k = Some item →
  e_items final !! k = Some item' →
  (i_status item' = I_failed
   ↔ (∃ call, Called k call ∈ e_trace final)
     ∧ throws (o_reply (x_item x k)) = true)
  ∧ (i_status item' = I_failed →
     ∃ message,
       o_reply (x_item x k) = Throw message
       ∧ i_errorMessage item' = Some message
       ∧ i_startedAt item' = Some (o_startedAt (x_item x k))
       ∧ i_completedAt item' = Some (o_completedAt (x_item x k))
       ∧ i_targetId item' = i_targetId item).
Proof.
  intros Hresolved Hitem Hitem'.
  destruct (item_cases x migration items final k item item' Hresolved Hitem Hitem')
    as (tcid & _ & Hcases).
  destruct Hcases
    as [(_ & -> & Hnone) | [(_ & _ & -> & Hnone) | [(_ & _ & _ & -> & Hnone)
       | (_ & _ & call & _ & Hcall & Hreply)]]].
  1-3: split; [split; [done|]; intros [[call Hcall] _]; by apply Hnone in Hcall
              | done].
  destruct (o_reply (x_item x k)) as [reply|message]; subst item'.
  - split; [|done]. split; [done|]. by intros [_ ?].
  - split; [|intros _; by exists message].
    split; [intros _; split; [by exists call|done] | done].
Qed.

Lemma X11_failed_item_records_the_error_witness :
  let final := settled (executeMigration refusing_oracle (scenario_migration "rename")
                          (scenario_items "rename")) in
  ∃ item',
    e_items final !! 0 = Some item'
    ∧ (i_status item' = I_failed
       ↔ (∃ call, Called 0 call ∈ e_trace final)
         ∧ throws (o_reply (x_item refusing_oracle 0)) = true)
    ∧ i_status item' = I_failed
    ∧ i_errorMessage item' = Some "Request failed with status code 403".
Proof.
  cbn zeta.
  assert (executeMigration refusing_oracle (scenario_migration "rename")
            (scenario_items "rename")
          = Resolved (settled (executeMigration refusing_oracle
                                 (scenario_migration "rename")
                                 (scenario_items "rename")))) as Hresolved
    by (vm_compute; reflexivity).
  eexists. split; [vm_compute; reflexivity|].
  split; [|split; vm_compute; reflexivity].
  apply (X11_failed_item_records_the_error refusing_oracle
           (scenario_migration "rename") (scenario_items "rename") _ 0
           (scenario_connection "rename") _ Hresolved eq_refl).
  vm_compute. reflexivity.
Defined.

(** X12: an item that ends in status completed carries the two clock
    readings as start and completion time and keeps its error message as
    it was.  Either a remote write was sent for it and answered, and the
    item's target id is what the answer carries ([qID] for a connection,
    [id] for a file or folder; none when the answer has no such member),
    or the item's type is none of connection, folder and file, nothing was
    sent, and the target id is left as it was. *)
Theorem X12_completed_item_records_the_target (x : ExecOracle) (migration : Migration)
    (items : list MigrationItem) (final : Engine) (k : nat)
    (item item' : MigrationItem) :
  executeMigration x migration items = Resolved final →
  items !! k = Some item →
  e_items final !! k = Some item' →
  i_status item' = I_completed →
  i_startedAt item' = Some (o_startedAt (x_item x k))
  ∧ i_completedAt item' = Some (o_completedAt (x_item x k))
  ∧ i_errorMessage item' = i_errorMessage item
  ∧ ((∃ call reply,
        Called k call ∈ e_trace final
        ∧ o_reply (x_item x k) = Ok reply
        ∧ i_targetId item'
          = if String.eqb (i_itemType item) "connection" then reply_qID reply
            else reply_id reply)
     ∨ (known_type (i_itemType item) = false
        ∧ (∀ call, Called k call ∉ e_trace final)
        ∧ i_targetId item' = i_targetId item)).
Proof.
  intros Hresolved Hitem Hitem' Hstatus.
  destruct (item_cases x migration items final k item item' Hresolved Hitem Hitem')
    as (tcid & _ & Hcases).
  destruct Hcases
    as [(_ & -> & Hnone) | [(_ & _ & -> & Hnone) | [(_ & _ & Hdispatch & -> & Hnone)
       | (_ & _ & call & _ & Hcall & Hreply)]]]; [done..| |].
  - repeat split; [done..|]. right. by apply dispatch_None in Hdispatch.
  - destruct (o_reply (x_item x k)) as [reply|message]; subst item'; [|done].
    repeat split; [done..|]. left. by exists call, reply.
Qed.

Lemma X12_completed_item_records_the_target_witness :
  let final := settled (executeMigration calm_oracle (scenario_migration "rename")
                          (scenario_items "rename")) in
  let item' :=
    {| i_id := "uuid-1"; i_migrationId := "uuid-0"; i_sourceId := "c1";
       i_itemType := "connection"; i_name := "DB1"; i_sizeBytes := 0;
       i_status := I_completed; i_conflictType := Some NAME_EXISTS;
       i_conflictResolution := Some "rename"; i_targetId := Some "conn-new";
       i_errorMessage := None; i_startedAt := Some 2000%Z;
       i_completedAt := Some 2100%Z |} in
  e_items final !! 0 = Some item'
  ∧ i_status item' = I_completed
  ∧ i_startedAt item' = Some (o_startedAt (x_item calm_oracle 0))
  ∧ i_completedAt item' = Some (o_completedAt (x_item calm_oracle 0)).
Proof.
  cbn zeta.
  assert (executeMigration calm_oracle (scenario_migration "rename")
            (scenario_items "rename")
          = Resolved (settled (executeMigration calm_oracle
                                 (scenario_migration "rename")
                                 (scenario_items "rename")))) as Hresolved
    by (vm_compute; reflexivity).
  lazymatch goal with
  | |- ?found ∧ _ => assert found as Hfound by (vm_compute; reflexivity)
  end.
  split; [exact Hfound|]. split; [reflexivity|].
  destruct (X12_completed_item_records_the_target calm_oracle
              (scenario_migration "rename") (scenario_items "rename") _ 0
              (scenario_connection "rename") _ Hresolved eq_refl Hfound eq_refl)
    as (Hstarted & Hcompleted & _).
  split; [exact Hstarted | exact Hcompleted].
Defined.

(** X13: an item that ends in status skipped was never sent to the remote
    system, and gets no completion time, target id or error message: these
    stay as they were.  It was skipped for one of two reasons.  Either the
    migration was cancelled when the loop reached it, and then nothing but
    its status changed; or it carries a conflict with resolution "skip",
    and then it has also got its start time. *)
Theorem X13_skipped_item_is_left_alone (x : ExecOracle) (migration : Migration)
    (items : list MigrationItem) (final : Engine) (k : nat)
    (item item' : MigrationItem) :
  executeMigration x migration items = Resolved final →
  items !! k = Some item →
  e_items final !! k = Some item' →
  i_status item' = I_skipped →
  (∀ call, Called k call ∉ e_trace final)
  ∧ i_completedAt item' = i_completedAt item
  ∧ i_targetId item' = i_targetId item
  ∧ i_errorMessage item' = i_errorMessage item
  ∧ ((∃ tcid,
        findDataFilesConnectionId (x_connections x) (m_targetSpaceId migration)
        = Ok tcid
        ∧ m_status (e_migration (state_before x migration items tcid k)) = M_cancelled
        ∧ item' = set_i_status I_skipped item)
     ∨ (has_conflict item = true ∧ resolution_is item "skip" = true
        ∧ i_startedAt item' = Some (o_startedAt (x_item x k)))).
Proof.
  intros Hresolved Hitem Hitem' Hstatus.
  destruct (item_cases x migration items final k item item' Hresolved Hitem Hitem')
    as (tcid & Htcid & Hcases).
  destruct Hcases
    as [(Hcancelled & -> & Hnone) | [(_ & Hskip & -> & Hnone)
       | [(_ & _ & Hdispatch & -> & Hnone)
       | (_ & _ & call & _ & Hcall & Hreply)]]]; [| |done|].
  - repeat split; [done..|]. left. by exists tcid.
  - apply andb_true_iff in Hskip as [? ?]. repeat split; [done..|]. by right.
  - by destruct (o_reply (x_item x k)); subst item'.
Qed.

Lemma X13_skipped_item_is_left_alone_witness :
  let final := settled (executeMigration cancelling_oracle (scenario_migration "rename")
                          (scenario_items "rename")) in
  e_items final !! 1 = Some (set_i_status I_skipped scenario_file)
  ∧ (∀ call, Called 1 call ∉ e_trace final)
  ∧ i_completedAt (set_i_status I_skipped scenario_file) = None.
Proof.
  cbn zeta.
  assert (executeMigration cancelling_oracle (scenario_migration "rename")
            (scenario_items "rename")
          = Resolved (settled (executeMigration cancelling_oracle
                                 (scenario_migration "rename")
                                 (scenario_items "rename")))) as Hresolved
    by (vm_compute; reflexivity).
  split; [vm_compute; reflexivity|]. split; [|reflexivity].
  eapply (X13_skipped_item_is_left_alone cancelling_oracle
            (scenario_migration "rename") (scenario_items "rename") _ 1
            scenario_file (set_i_status I_skipped scenario_file) Hresolved eq_refl).
  - vm_compute. reflexivity.
  - reflexivity.
Defined.

Lemma state_before_uninterrupted (x : ExecOracle) (migration : Migration)
    (items : list MigrationItem) tcid (k : nat) :
  uninterrupted x →
  m_status (e_migration (state_before x migration items tcid k)) = M_running.
Proof.
  intros [Hresolve Hquiet]. unfold state_before.
  rewrite run_uninterrupted by done.
  destruct (at_loop_start_spec x migration items)
    as (_ & _ & _ & _ & _ & _ & _ & -> & _).
  by rewrite Hresolve.
Qed.

(** X14: an item whose type is none of connection, folder and file is
    reported as completed although nothing was copied: in an execution that
    nobody cancels, such an item (unless it carries a conflict to skip)
    ends in status completed with a completion time, no remote write is
    sent for it, and its target id stays as it was. *)
Theorem X14_unknown_type_completes_without_a_call (x : ExecOracle)
    (migration : Migration) (items : list MigrationItem) (final : Engine)
    (k : nat) (item : MigrationItem) :
  executeMigration x migration items = Resolved final →
  uninterrupted x →
  items !! k = Some item →
  known_type (i_itemType item) = false →
  has_conflict item && resolution_is item "skip" = false →
  ∃ item',
    e_items final !! k = Some item'
    ∧ i_status item' = I_completed
    ∧ i_completedAt item' = Some (o_completedAt (x_item x k))
    ∧ i_targetId item' = i_targetId item
    ∧ ∀ call, Called k call ∉ e_trace final.
Proof.
  intros Hresolved Hquiet Hitem Htype Hskip.
  destruct (executeMigration_resolved_inv x migration items final Hresolved)
    as (tcid & Htcid & _).
  destruct (execution_item x migration items tcid k item Htcid Hitem)
    as (item' & Hfound & Hcases).
  rewrite Hresolved in Hfound, Hcases. cbn [settled] in Hfound, Hcases.
  rewrite (state_before_uninterrupted x migration items tcid k Hquiet) in Hcases.
  exists item'. split; [done|].
  destruct Hcases
    as [(? & _) | [(_ & ? & _) | [(_ & _ & _ & -> & Hnone)
       | (_ & _ & call & Hdispatch & _)]]]; [congruence..|done|].
  apply dispatch_None with (tsid := m_targetSpaceId migration) (tc := tcid)
    (newName := effective_name item (o_dateNow (x_item x k))) in Htype.
  congruence.
Qed.

Lemma X14_unknown_type_completes_without_a_call_witness :
  let final :=
    settled (executeMigration calm_oracle (scenario_migration "skip") [scenario_app]) in
  uninterrupted calm_oracle
  ∧ known_type (i_itemType scenario_app) = false
  ∧ m_status (e_migration final) = M_completed
  ∧ ∃ item',
      e_items final !! 0 = Some item'
      ∧ i_status item' = I_completed
      ∧ i_completedAt item' = Some (o_completedAt (x_item calm_oracle 0))
      ∧ i_targetId item' = i_targetId scenario_app
      ∧ ∀ call, Called 0 call ∉ e_trace final.
Proof.
  cbn zeta.
  assert (uninterrupted calm_oracle) as Hquiet.
  { split; [reflexivity|]. intros k. split; reflexivity. }
  split; [exact Hquiet|]. split; [reflexivity|]. split; [vm_compute; reflexivity|].
  apply (X14_unknown_type_completes_without_a_call calm_oracle
           (scenario_migration "skip") [scenario_app] _ 0 scenario_app);
    [|exact Hquiet|reflexivity..].
  vm_compute. reflexivity.
Defined.

(** ** The remote writes of an execution *)

(** X15: the remote writes of an execution go out in the order of the
    items and at most one per item: the item indices of the successive
    writes are strictly increasing, and each is the index of an item of
    the list. *)
Theorem X15_calls_in_item_order (x : ExecOracle) (migration : Migration)
    (items : list MigrationItem) :
  let sent := (calls_of (e_trace (settled (executeMigration x migration items)))).*1 in
  StronglySorted lt sent
  ∧ NoDup sent
  ∧ Forall (fun j => j < length items) sent.
Proof.
  cbn zeta.
  assert (calls_of (e_trace (at_loop_start x migration items)) = []) as Hnone.
  { unfold at_loop_start, begin, suspend, emit, with_migration.
    by destruct (x_cancelDuringResolve x). }
  assert (StronglySorted lt
            (calls_of (e_trace (settled (executeMigration x migration items)))).*1
          ∧ Forall (fun j => j < length items)
              (calls_of (e_trace (settled (executeMigration x migration items)))).*1)
    as [Hsorted Hbound].
  { unfold executeMigration.
    destruct (findDataFilesConnectionId _ _) as [tcid|message]; cbn [settled].
    - destruct (finish_spec x (length items)
                  (run_items x (length items) tcid (length items)
                     (at_loop_start x migration items))) as (_ & _ & _ & ->).
      rewrite calls_of_app. cbn [calls_of omap]. rewrite app_nil_r.
      destruct (run_calls_sorted x (length items) tcid
                  (at_loop_start x migration items) (length items) Hnone)
        as [Hbound Hsorted].
      split.
      + eapply StronglySorted_fmap; [|exact Hsorted]. by intros [] [].
      + by apply Forall_fmap.
    - rewrite Hnone. split; constructor. }
  split; [done|]. split; [|done].
  clear Hbound. induction Hsorted as [|j sent Hsorted IH Hless]; constructor.
  - intros Hin. rewrite Forall_forall in Hless. apply Hless in Hin. lia.
  - done.
Qed.

(** X16: every remote write of an execution is the one the item's type
    asks for, from the item's source to the migration's target.  A write
    sent for an item is a connection duplication exactly when the item is
    a connection, and then goes to the migration's target space; it is a
    folder copy exactly when the item is a folder and a file copy exactly
    when it is a file, and then goes to the data-files connection id that
    was resolved for the target space at the start (which is null when the
    target has none: the engine sends the write all the same).  The write
    always names the item's own source id. *)
Theorem X16_call_targets (x : ExecOracle) (migration : Migration)
    (items : list MigrationItem) (k : nat) (item : MigrationItem) (call : RemoteCall) :
  items !! k = Some item →
  Called k call ∈ e_trace (settled (executeMigration x migration items)) →
  ∃ targetConnectionId,
    findDataFilesConnectionId (x_connections x) (m_targetSpaceId migration)
    = Ok targetConnectionId
    ∧ match call with
      | DuplicateConnection sourceId targetSpaceId _ =>
          i_itemType item = "connection"
          ∧ sourceId = i_sourceId item
          ∧ targetSpaceId = m_targetSpaceId migration
      | CopyFolder sourceId connectionId _ =>
          i_itemType item = "folder"
          ∧ sourceId = i_sourceId item
          ∧ connectionId = targetConnectionId
      | CopyDataFile sourceId connectionId _ =>
          i_itemType item = "file"
          ∧ sourceId = i_sourceId item
          ∧ connectionId = targetConnectionId
      end.
Proof.
  intros Hitem Hcall.
  apply calls_of_execution in Hcall
    as (tcid & item' & Htcid & Hitem' & _ & _ & Hdispatch).
  assert (item' = item) as -> by congruence.
  exists tcid. split; [done|].
  unfold dispatch, duplicateConnection, copyFolder, copyDataFile in Hdispatch.
  destruct (String.eqb (i_itemType item) "connection") eqn:Hconnection.
  { injection Hdispatch as <-. by apply String.eqb_eq in Hconnection. }
  destruct (String.eqb (i_itemType item) "folder") eqn:Hfolder.
  { injection Hdispatch as <-. by apply String.eqb_eq in Hfolder. }
  destruct (String.eqb (i_itemType item) "file") eqn:Hfile; [|done].
  injection Hdispatch as <-. by apply String.eqb_eq in Hfile.
Qed.

Lemma X16_call_targets_witness :
  scenario_items "rename" !! 1 = Some scenario_file
  ∧ Called 1 (CopyDataFile "f1" (Some "dfc-T") "report.csv")
      ∈ e_trace (settled (executeMigration calm_oracle (scenario_migration "rename")
                            (scenario_items "rename")))
  ∧ ∃ targetConnectionId,
      findDataFilesConnectionId (x_connections calm_oracle)
        (m_targetSpaceId (scenario_migration "rename")) = Ok targetConnectionId
      ∧ i_itemType scenario_file = "file"
      ∧ "f1" = i_sourceId scenario_file
      ∧ Some "dfc-T" = targetConnectionId.
Proof.
  assert (Called 1 (CopyDataFile "f1" (Some "dfc-T") "report.csv")
            ∈ e_trace (settled (executeMigration calm_oracle
                                  (scenario_migration "rename")
                                  (scenario_items "rename")))) as Hcall.
  { vm_compute. apply (list_elem_of_lookup_2 _ 6). reflexivity. }
  split; [reflexivity|]. split; [exact Hcall|].
  exact (X16_call_targets calm_oracle (scenario_migration "rename")
           (scenario_items "rename") 1 scenario_file _ eq_refl Hcall).
Defined.

(** ** The progress notifications of an execution *)

Lemma notifications_of_app (t1 t2 : list Event) :
  notifications_of (t1 ++ t2) = notifications_of t1 ++ notifications_of t2.
Proof. apply omap_app. Qed.

Lemma notifications_of_cons (p : Progress) (rest : list Event) :
  notifications_of (Notified p :: rest) = p :: notifications_of rest.
Proof. reflexivity. Qed.

Lemma pass_events_silent o total tc i item s (rest : list Event) :
  Forall (pass_event o total tc i item s) rest → notifications_of rest = [].
Proof.
  induction 1 as [|ev rest Hev _ IH]; [done|].
  destruct ev; cbn in *; done.
Qed.

Section Sent.
Context (x : ExecOracle) (migration : Migration) (items : list MigrationItem)
  (tcid : option string).

#[local] Abbreviation before k := (state_before x migration items tcid k).

Lemma notifications_before (k : nat) :
  k ≤ length items →
  let sent := notifications_of (e_trace (before k)) in
  length sent ≤ k
  ∧ (m_status (e_migration (before k)) ≠ M_cancelled → length sent = k)
  ∧ (∀ j p, sent !! j = Some p → announces migration items j p)
  ∧ (∀ j item, length sent ≤ j → j < k → items !! j = Some item →
       e_items (before k) !! j = Some (set_i_status I_skipped item)).
Proof.
  cbn zeta. induction k as [|k IH]; intros Hk.
  - assert (notifications_of (e_trace (before 0)) = []) as ->.
    { unfold state_before, run_items, at_loop_start, begin, suspend, emit,
        with_migration. simpl. by destruct (x_cancelDuringResolve x). }
    split; [done|]. split; [done|]. split.
    + intros j p Hp. by rewrite lookup_nil in Hp.
    + intros; lia.
  - destruct IH as (Hlen & Hall & Hsaid & Hskipped); [lia|].
    destruct (lookup_lt_is_Some_2 items k) as [item Hitem]; [lia|].
    assert (e_items (at_loop_start x migration items) !! k = Some item) as Hitem0.
    { by destruct (at_loop_start_spec x migration items) as (-> & _). }
    pose proof (state_before_item x migration items tcid k) as Hbefore.
    rewrite Hitem in Hbefore.
    destruct (run_trace_step x (length items) tcid (at_loop_start x migration items)
                k item Hitem0)
      as [(Hcancelled & Htrace & Hmigration) | (Hrunning & rest & Htrace & Hrest & _)];
      fold (before k) in *; fold (before (S k)) in *.
    + rewrite Htrace, Hmigration. split; [lia|]. split; [done|]. split; [done|].
      intros j item' Hj Hjk Hitem'.
      destruct (decide (j = k)) as [-> | Hne].
      * unfold state_before at 1. rewrite run_items_S. fold (before k).
        rewrite (iteration_cancelled _ _ _ _ _ item Hbefore Hcancelled). cbn.
        assert (item' = item) as -> by congruence.
        apply list_lookup_insert_eq. by rewrite state_before_length.
      * unfold state_before at 1.
        rewrite (run_settled x (length items) tcid _ k (S k) j) by lia.
        apply Hskipped; [done|lia|done].
    + specialize (Hall Hrunning).
      rewrite Htrace, notifications_of_app, notifications_of_cons.
      rewrite (pass_events_silent _ _ _ _ _ _ _ Hrest).
      rewrite length_app. cbn [length]. split; [lia|]. split; [intros; lia|]. split.
      * intros j p Hp.
        destruct (decide (j < k)) as [Hjk | Hjk].
        { rewrite lookup_app_l in Hp by lia. by apply Hsaid. }
        rewrite lookup_app_r in Hp by lia. rewrite Hall in Hp.
        destruct (j - k) as [|[|?]] eqn:Hdiff; try done.
        assert (j = k) as -> by lia. injection Hp as <-.
        unfold announces, notification. cbn. rewrite Hitem.
        destruct (counters_before x migration items tcid k) as (_ & _ & _ & Hsum);
          [lia|].
        destruct (run_migration x (length items) tcid
                    (at_loop_start x migration items) k) as (Hid & _).
        destruct (at_loop_start_spec x migration items)
          as (_ & _ & _ & _ & Hid0 & _).
        fold (before k) in Hid. repeat split; [|done]. congruence.
      * intros; lia.
Qed.
End Sent.

(** X17: in an execution that ran through, the progress notifications
    are sent for an initial stretch of the items, one per item and in the
    items' order.  The k-th notification (counting from 0) names the k-th
    item as current item, carries the migration's id and the number of
    items as total, reports exactly k items as done (completed, failed and
    skipped together), and its percentage is computed from its completed
    count.  Every item beyond that stretch is one the loop reached after a
    cancellation: it ends skipped with nothing but its status changed.
    When nobody cancels, every item gets its notification. *)
Theorem X17_notifications_follow_items (x : ExecOracle) (migration : Migration)
    (items : list MigrationItem) (final : Engine) :
  executeMigration x migration items = Resolved final →
  let sent := notifications_of (e_trace final) in
  length sent ≤ length items
  ∧ (∀ k p, sent !! k = Some p → announces migration items k p)
  ∧ (∀ k item, length sent ≤ k → items !! k = Some item →
       e_items final !! k = Some (set_i_status I_skipped item))
  ∧ (uninterrupted x → length sent = length items).
Proof.
  intros Hresolved. cbn zeta.
  destruct (executeMigration_resolved_inv x migration items final Hresolved)
    as (tcid & Htcid & ->).
  destruct (finish_spec x (length items)
              (state_before x migration items tcid (length items)))
    as (-> & _ & _ & ->).
  rewrite notifications_of_app.
  change (notifications_of [Suspended _ _]) with (@nil Progress).
  rewrite app_nil_r.
  destruct (notifications_before x migration items tcid (length items))
    as (Hlen & Hall & Hsaid & Hskipped); [done|].
  split; [done|]. split; [done|]. split.
  - intros k item Hk Hitem. apply Hskipped; [done| |done].
    by eapply lookup_lt_Some.
  - intros Hquiet. apply Hall.
    by rewrite (state_before_uninterrupted x migration items tcid _ Hquiet).
Qed.

Lemma X17_notifications_follow_items_witness :
  let final := settled (executeMigration cancelling_oracle (scenario_migration "rename")
                          (scenario_items "rename")) in
  p_currentItem <$> notifications_of (e_trace final) = [Some "DB1"]
  ∧ (∀ k item, length (notifications_of (e_trace final)) ≤ k →
       scenario_items "rename" !! k = Some item →
       e_items final !! k = Some (set_i_status I_skipped item)).
Proof.
  cbn zeta.
  assert (executeMigration cancelling_oracle (scenario_migration "rename")
            (scenario_items "rename")
          = Resolved (settled (executeMigration cancelling_oracle
                                 (scenario_migration "rename")
                                 (scenario_items "rename")))) as Hresolved
    by (vm_compute; reflexivity).
  split; [vm_compute; reflexivity|].
  destruct (X17_notifications_follow_items cancelling_oracle
              (scenario_migration "rename") (scenario_items "rename") _ Hresolved)
    as (_ & _ & Hskipped & _).
  exact Hskipped.
Defined.

(** ** The start handler *)

(** X18: a migration is executed at most once.  Once a start request for
    a stored migration has been served, whatever came of the execution,
    a second start request for it is refused with 400 and changes nothing
    in the store. *)
Theorem X18_start_at_most_once (x x' : ExecOracle) (migrationId : string)
    (store : Store) :
  is_Some (migrations store !! migrationId) →
  is_Some (migrationItems store !! migrationId) →
  startMigration x' migrationId (startMigration x migrationId store).2
  = (Status 400 "Already started", (startMigration x migrationId store).2).
Proof.
  intros [m Hm] [items Hitems].
  unfold startMigration at 2 3. rewrite Hm, Hitems.
  destruct (decide (m_status m = M_created)) as [Hcreated|Hstarted]; cbn [snd].
  - unfold startMigration. cbn [migrations]. rewrite lookup_insert_eq.
    rewrite decide_False; [done|]. apply settled_not_created.
  - unfold startMigration. rewrite Hm. by rewrite decide_False.
Qed.

Lemma X18_start_at_most_once_witness :
  (∃ started, (startMigration calm_oracle "uuid-0" (scenario_store "skip")).1
              = Json started)
  ∧ startMigration next_day_oracle "uuid-0"
      (startMigration calm_oracle "uuid-0" (scenario_store "skip")).2
    = (Status 400 "Already started",
       (startMigration calm_oracle "uuid-0" (scenario_store "skip")).2).
Proof.
  split; [eexists; vm_compute; reflexivity|].
  apply X18_start_at_most_once; eexists; vm_compute; reflexivity.
Defined.

(** X19: a start request for a migration in status created answers with
    that migration as the engine has just marked it: status running, the
    start clock reading as startedAt, everything else as stored.  When
    the execution has settled, the store holds under the same id a
    migration with the same identity that is no longer in status created,
    and a list of items that has the same length and order and the same
    static members item by item; no other migration and no other item
    list of the store has changed. *)
Theorem X19_start_answers_running (x : ExecOracle) (migrationId : string)
    (store : Store) (m : Migration) (items : list MigrationItem) :
  migrations store !! migrationId = Some m →
  m_status m = M_created →
  migrationItems store !! migrationId = Some items →
  let result := startMigration x migrationId store in
  result.1 = Json (mkMigration (m_id m) (m_tenantId m) (m_sourceSpaceId m)
                     (m_sourceSpaceName m) (m_targetSpaceId m) (m_targetSpaceName m)
                     M_running (m_options m) (m_progress m) (m_createdAt m)
                     (Some (x_startedAt x)) (m_completedAt m))
  ∧ (∃ m' items',
       migrations result.2 !! migrationId = Some m'
       ∧ migrationItems result.2 !! migrationId = Some items'
       ∧ same_identity m m'
       ∧ m_startedAt m' = Some (x_startedAt x)
       ∧ m_status m' ≠ M_created
       ∧ Forall2 same_static items items')
  ∧ (∀ other, other ≠ migrationId →
       migrations result.2 !! other = migrations store !! other
       ∧ migrationItems result.2 !! other = migrationItems store !! other).
Proof.
  intros Hm Hcreated Hitems. cbn zeta. unfold startMigration.
  rewrite Hm, Hitems, decide_True by done. cbn [fst snd migrations migrationItems].
  split; [done|]. split.
  - eexists _, _. rewrite !lookup_insert_eq.
    destruct (execution_identity x m items) as (Hid & Hstarted & _).
    split; [reflexivity|]. split; [reflexivity|]. split; [exact Hid|].
    split; [exact Hstarted|].
    split; [apply settled_not_created | apply execution_items_static].
  - intros other Hother. by rewrite !lookup_insert_ne.
Qed.

Lemma X19_start_answers_running_witness :
  (m_status <$> migrations (scenario_store "skip") !! "uuid-0") = Some M_created
  ∧ ∃ started,
      (startMigration calm_oracle "uuid-0" (scenario_store "skip")).1 = Json started
      ∧ m_status started = M_running
      ∧ m_startedAt started = Some 1900%Z.
Proof.
  split; [vm_compute; reflexivity|].
  destruct (X19_start_answers_running calm_oracle "uuid-0" (scenario_store "skip")
              (scenario_migration "skip") (scenario_items "skip"))
    as (Hanswer & _); [vm_compute; reflexivity..|].
  eexists. split; [exact Hanswer|]. split; reflexivity.
Defined.

(** X20: a cancellation served while no execution of the migration is
    under way is final.  Whatever requests are served afterwards (start
    requests included, and as long as no later creation draws the same id
    again), the migration stays in status cancelled, its items stay exactly
    as they were, and every start request for it is refused with 400. *)
Theorem X20_cancelled_migration_never_runs (migrationId : string) (store : Store)
    (m : Migration) (items : list MigrationItem) (requests : list Request) :
  migrations store !! migrationId = Some m →
  migrationItems store !! migrationId = Some items →
  Forall (leaves_id_free migrationId) requests →
  let store' := serve requests (cancelMigration migrationId store).2 in
  (∃ m', migrations store' !! migrationId = Some m' ∧ m_status m' = M_cancelled)
  ∧ migrationItems store' !! migrationId = Some items
  ∧ ∀ x, startMigration x migrationId store' = (Status 400 "Already started", store').
Proof.
  intros Hm Hitems Hfree. cbn zeta.
  destruct (serve_held migrationId items (fun st => st = M_cancelled) requests
              (cancelMigration migrationId store).2)
    as (m' & Hm' & Hstatus & Hitems'); [done|by left|done| |].
  { unfold cancelMigration. rewrite Hm. cbn [snd].
    exists (set_m_status M_cancelled m). cbn. by rewrite lookup_insert_eq. }
  split; [by exists m'|]. split; [done|].
  intros x. unfold startMigration. rewrite Hm'.
  rewrite decide_False; [done|congruence].
Qed.

Lemma X20_cancelled_migration_never_runs_witness :
  let store' :=
    serve [StartRequest calm_oracle "uuid-0"; StatusRequest "uuid-0"]
      (cancelMigration "uuid-0" (scenario_store "skip")).2 in
  (∃ m', migrations store' !! "uuid-0" = Some m' ∧ m_status m' = M_cancelled)
  ∧ migrationItems store' !! "uuid-0" = Some (scenario_items "skip")
  ∧ ∀ x, startMigration x "uuid-0" store' = (Status 400 "Already started", store').
Proof.
  apply (X20_cancelled_migration_never_runs "uuid-0" (scenario_store "skip")
           (scenario_migration "skip") (scenario_items "skip")).
  - vm_compute. reflexivity.
  - vm_compute. reflexivity.
  - repeat constructor.
Defined.

(** ** The store, whatever requests are served *)

Lemma store_ok_handle (store : Store) (request : Request) :
  store_ok store → store_ok (handle store request).
Proof.
  intros Hok. destruct request as [remote uuid now tenantId body|x id|id|id];
    cbn [handle]; [| | |done].
  - destruct (createMigration remote uuid now tenantId body store)
      as [[reply|code error] store'] eqn:Hcreate; cbn [snd].
    + apply createMigration_Json in Hcreate
        as (src & tgt & candidates & sourceSpace & targetSpace & allConflicts
            & _ & _ & Hmigration & Hitems & _ & ->).
      intros id m. cbn [migrations migrationItems].
      destruct (decide (id = uuid 0)) as [-> | Hne].
      * rewrite !lookup_insert_eq. intros [= <-].
        split; [by rewrite Hmigration|].
        eexists. split; [done|]. split.
        -- split; [|rewrite Hmigration; by intros [? | ?]].
           rewrite Hmigration, Hitems, length_imap. apply created_counts_within.
        -- rewrite Hitems. apply Forall_lookup. intros k item.
           rewrite list_lookup_imap.
           destruct (candidates !! k); [|done]. by intros [= <-].
      * rewrite !lookup_insert_ne by done. apply Hok.
    + unfold createMigration in Hcreate.
      destruct (required_fields body) as [[[src tgt] candidates]|].
      * destruct (resolve_and_detect remote src tgt candidates) as [[[? ?] ?]|];
          [done|]. by injection Hcreate as _ _ <-.
      * by injection Hcreate as _ _ <-.
  - unfold startMigration.
    destruct (migrations store !! id) as [m|] eqn:Hm; [|done].
    destruct (decide (m_status m = M_created)); [|done].
    destruct (migrationItems store !! id) as [items|] eqn:Hitems; [|done].
    cbn [snd]. intros id' m'. cbn [migrations migrationItems].
    destruct (decide (id' = id)) as [-> | Hne].
    + rewrite !lookup_insert_eq. intros [= <-].
      destruct (Hok id m Hm) as (Hid & items0 & Hitems0 & [Hcounts _] & Hback).
      assert (items0 = items) as -> by congruence.
      destruct (execution_identity x m items) as ((Hid' & _) & _).
      pose proof (execution_items_static x m items) as Hstatic.
      split; [congruence|]. eexists. split; [done|]. split.
      * rewrite <- (Forall2_length _ _ _ Hstatic).
        by apply (observations_within_total x m items).
      * apply Forall_lookup. intros k item' Hitem'.
        destruct (Forall2_lookup_r _ _ _ _ _ Hstatic Hitem')
          as (item & Hitem & _ & Hsame & _).
        rewrite Forall_lookup in Hback. rewrite <- Hsame. by eapply Hback.
    + rewrite !lookup_insert_ne by done. apply Hok.
  - unfold cancelMigration.
    destruct (migrations store !! id) as [m|] eqn:Hm; [|done].
    cbn [snd]. intros id' m'. cbn [migrations migrationItems].
    destruct (decide (id' = id)) as [-> | Hne].
    + rewrite lookup_insert_eq. intros [= <-].
      destruct (Hok id m Hm) as (Hid & items & Hitems & [Hcounts _] & Hback).
      split; [done|]. exists items. split; [done|]. split; [|done].
      split; [done|]. by intros [? | ?].
    + rewrite lookup_insert_ne by done. apply Hok.
Qed.

(** X21: whatever sequence of creation, start, cancel and status requests
    the server has served since it came up, its store is consistent.
    Every stored migration is filed under its own id and has its list of
    items; each of these items points back at the migration; the
    migration's progress has the number of items as total and counts that
    do not exceed it; and when the migration is completed or failed, the
    three counts add up to the total and are the numbers of items in
    status completed, failed and skipped, with no item in another
    status. *)
Theorem X21_store_stays_consistent (requests : list Request) :
  store_ok (serve requests empty_store).
Proof.
  assert (∀ store, store_ok store → store_ok (serve requests store)) as Hserve.
  { unfold serve. induction requests as [|request requests IH]; intros store Hok;
      [done|].
    cbn [foldl]. apply IH. by apply store_ok_handle. }
  apply Hserve. intros id m Hm. unfold empty_store in Hm. cbn [migrations] in Hm.
  by rewrite lookup_empty in Hm.
Qed.

(** ** Listing the migrations of a tenant *)

Lemma sort_insert_perm compare (m : Migration) (l : list Migration) :
  sort_insert compare m l ≡ₚ m :: l.
Proof.
  induction l as [|m' l IH]; simpl; [done|].
  destruct (compare m m' <=? 0)%Z; [done|]. rewrite IH. apply Permutation_swap.
Qed.

Lemma sort_perm compare (l : list Migration) : sort compare l ≡ₚ l.
Proof.
  induction l as [|m l IH]; simpl; [done|]. by rewrite sort_insert_perm, IH.
Qed.

Lemma sort_insert_sorted (m : Migration) (l : list Migration) :
  StronglySorted (fun a b => (m_createdAt b ≤ m_createdAt a)%Z) l →
  StronglySorted (fun a b => (m_createdAt b ≤ m_createdAt a)%Z)
    (sort_insert newest_first m l).
Proof.
  induction 1 as [|m' l Hsorted IH Hall]; simpl; [by repeat constructor|].
  unfold newest_first at 1.
  destruct (m_createdAt m' - m_createdAt m <=? 0)%Z eqn:Hcompare.
  - apply Z.leb_le in Hcompare. constructor; [by constructor|].
    constructor; [lia|]. eapply Forall_impl; [exact Hall|]. intros a Ha. cbn in Ha. lia.
  - apply Z.leb_gt in Hcompare. constructor; [done|].
    rewrite sort_insert_perm. constructor; [lia|done].
Qed.

Lemma sort_insert_stable (t : Z) (m : Migration) (l : list Migration) :
  filter (fun a => m_createdAt a = t) (sort_insert newest_first m l)
  = filter (fun a => m_createdAt a = t) (m :: l).
Proof.
  induction l as [|m' l IH]; simpl; [done|].
  unfold newest_first at 1.
  destruct (m_createdAt m' - m_createdAt m <=? 0)%Z eqn:Hcompare; [done|].
  apply Z.leb_gt in Hcompare.
  rewrite (filter_cons _ m'), IH, !(filter_cons _ m), (filter_cons _ m').
  destruct (decide (m_createdAt m' = t)), (decide (m_createdAt m = t)); try done.
  lia.
Qed.

(** X22: [GET /api/migrations] answers with exactly the stored migrations
    whose tenant is the one named in the request header, each as often as
    it is stored, and with their number as total; none at all when the
    header is missing.  They come newest first, and migrations with the
    same creation time keep the order in which they are stored. *)
Theorem X22_listMigrations_newest_first (header : option string)
    (values : list Migration) :
  let mine := filter (fun m => header = Some (m_tenantId m)) values in
  let found := (listMigrations header values).1 in
  (listMigrations header values).2 = length found
  ∧ found ≡ₚ mine
  ∧ StronglySorted (fun a b => (m_createdAt b ≤ m_createdAt a)%Z) found
  ∧ (∀ t, filter (fun m => m_createdAt m = t) found
          = filter (fun m => m_createdAt m = t) mine)
  ∧ (header = None → found = []).
Proof.
  cbn zeta. unfold listMigrations. cbn [fst snd].
  assert (List.filter (fun m => match header with
                                | Some tenantId => String.eqb (m_tenantId m) tenantId
                                | None => false
                                end) values
          = filter (fun m => header = Some (m_tenantId m)) values) as ->.
  { rewrite <- List_filter_decide. apply List.filter_ext. intros m.
    destruct header as [tenantId|]; [|done].
    destruct (String.eqb_spec (m_tenantId m) tenantId) as [-> | Hne].
    - by rewrite bool_decide_eq_true_2.
    - rewrite bool_decide_eq_false_2; [done|]. congruence. }
  remember (filter _ values) as mine eqn:Hmine.
  split; [done|]. split; [apply sort_perm|]. split; [|split].
  - clear Hmine. induction mine as [|m mine IH]; simpl; [constructor|].
    by apply sort_insert_sorted.
  - intros t. clear Hmine. induction mine as [|m mine IH]; simpl; [done|].
    rewrite sort_insert_stable, !(filter_cons _ m), IH. done.
  - intros ->. subst mine. induction values as [|m values IH]; [done|].
    rewrite filter_cons. by destruct (decide _).
Qed.

(** ** Tenant sessions *)

(** X23: [POST /api/auth/connect] opens a session only when both
    [tenantUrl] and [apiKey] are given and not empty and the tenant's
    spaces can be listed with them.  It then answers with the generated
    tenant id, the URL and the number of spaces listed, and from then on
    the middleware admits requests carrying that id, handing them a client
    built from exactly that URL and key; requests carrying any other id
    are treated as before.  Otherwise it answers 400 (something missing) or
    401 (the listing failed, with its message) and no session is
    opened. *)
Theorem X23_connect_opens_a_session (spaces : Result (option (list Space)))
    (uuid : string) (now : Z) (body : ConnectBody) (tenants : gmap string Tenant) :
  let result := connect spaces uuid now body tenants in
  match result.1 with
  | Connected reply =>
      ∃ tenantUrl apiKey listed,
        cb_tenantUrl body = Some tenantUrl ∧ tenantUrl ≠ ""
        ∧ cb_apiKey body = Some apiKey ∧ apiKey ≠ ""
        ∧ listSpaces spaces = Ok listed
        ∧ reply = mkConnectReply uuid tenantUrl (length listed)
        ∧ getQlikService (Some uuid) result.2
          = Json (mkQlikClient tenantUrl apiKey ("https://" +:+ tenantUrl +:+ "/api/v1"),
                  uuid)
        ∧ ∀ other, other ≠ uuid →
            getQlikService (Some other) result.2 = getQlikService (Some other) tenants
  | ConnectRefused code error details =>
      result.2 = tenants
      ∧ ((code = 400 ∧ details = None
          ∧ (truthy (cb_tenantUrl body) = false ∨ truthy (cb_apiKey body) = false))
         ∨ (code = 401 ∧ ∃ message, spaces = Throw message ∧ details = Some message))
  end.
Proof.
  cbn zeta. unfold connect.
  destruct (cb_tenantUrl body) as [tenantUrl|];
    [|cbn; split; [done|]; left; repeat split; by left].
  destruct (cb_apiKey body) as [apiKey|];
    [|cbn; split; [done|]; left; repeat split; by right].
  destruct (truthy (Some tenantUrl)) eqn:Hurl;
    [|cbn [andb fst snd]; split; [done|]; left; repeat split; by left].
  destruct (truthy (Some apiKey)) eqn:Hkey;
    [|cbn [andb fst snd]; split; [done|]; left; repeat split; by right].
  cbn [andb]. destruct spaces as [reply|message]; cbn.
  - exists tenantUrl, apiKey, (default [] reply).
    cbn in Hurl, Hkey. apply negb_true_iff, String.eqb_neq in Hurl, Hkey.
    repeat split; [done..| |].
    + unfold getQlikService. cbn. by rewrite lookup_insert_eq.
    + intros other Hother. unfold getQlikService. cbn.
      by rewrite lookup_insert_ne.
  - split; [done|]. right. by eauto.
Qed.

(** X24: [POST /api/auth/disconnect] closes the session it names and no
    other: afterwards the middleware answers 401 to requests carrying that
    tenant id and treats requests carrying any other id as before.  A
    disconnect that names no session changes nothing, and a request without
    the tenant header is always answered 401. *)
Theorem X24_disconnect_closes_the_session (tenantId : string)
    (tenants : gmap string Tenant) :
  getQlikService (Some tenantId) (disconnect (Some tenantId) tenants)
  = Status 401 "Not connected"
  ∧ (∀ other, other ≠ tenantId →
       getQlikService (Some other) (disconnect (Some tenantId) tenants)
       = getQlikService (Some other) tenants)
  ∧ (tenants !! tenantId = None → disconnect (Some tenantId) tenants = tenants)
  ∧ disconnect None tenants = tenants
  ∧ getQlikService None tenants = Status 401 "Not connected".
Proof.
  unfold getQlikService, disconnect. cbn.
  rewrite lookup_delete_eq. cbn. split; [done|]. split.
  - intros other Hother. by rewrite lookup_delete_ne.
  - split; [|done]. apply delete_id.
Qed.

(** ** Edge cases of an execution *)

(** X25: a cancel request that arrives while the engine is still
    resolving the target's data-files connection empties the run but does
    not leave the migration cancelled.  Every item ends skipped with
    nothing but its status changed, no remote write and no progress
    notification is sent, and the closing statements then overwrite the
    status: the migration of at least one item ends in status completed,
    with all items counted as skipped and percentage 100. *)
Theorem X25_cancel_during_resolution_ends_completed (x : ExecOracle)
    (migration : Migration) (items : list MigrationItem) (final : Engine) :
  executeMigration x migration items = Resolved final →
  x_cancelDuringResolve x = true →
  items ≠ [] →
  m_status (e_migration final) = M_completed
  ∧ e_items final = set_i_status I_skipped <$> items
  ∧ calls_of (e_trace final) = []
  ∧ notifications_of (e_trace final) = []
  ∧ m_progress (e_migration final)
    = {| p_migrationId := None; p_total := length items; p_completed := 0;
         p_failed := 0; p_skipped := length items; p_percentage := 100;
         p_currentItem := None |}.
Proof.
  intros Hresolved Hcancel Hsome.
  destruct (executeMigration_resolved_inv x migration items final Hresolved)
    as (tcid & Htcid & ->).
  destruct (at_loop_start_spec x migration items)
    as (Hitems0 & Hc0 & Hf0 & _ & _ & _ & _ & Hstatus0 & _).
  rewrite Hcancel in Hstatus0.
  destruct (run_after_cancel x (length items) tcid (at_loop_start x migration items)
              0 (length items) Hstatus0) as (_ & Htrace & Hc & Hf & Hskipped); [lia|].
  destruct (counters_before x migration items tcid (length items))
    as (_ & _ & _ & Hsum); [done|].
  destruct (finish_spec x (length items)
              (state_before x migration items tcid (length items)))
    as (Hitems & Hstatus & Hprogress & Hevents).
  unfold state_before in *.
  assert (run_items x (length items) tcid 0 (at_loop_start x migration items)
          = at_loop_start x migration items) as Hzero by reflexivity.
  rewrite Hzero in Hc, Hf, Htrace.
  rewrite Hc0 in Hc. rewrite Hf0 in Hf. rewrite Hc, Hf in Hsum.
  rewrite Hstatus, Hitems, Hprogress, Hevents, Hc, Hf, Htrace.
  assert (calls_of (e_trace (at_loop_start x migration items)) = []
          ∧ notifications_of (e_trace (at_loop_start x migration items)) = [])
    as [Hcalls Hsent].
  { unfold at_loop_start, begin, suspend, emit, with_migration.
    by destruct (x_cancelDuringResolve x). }
  split; [|split; [|split; [|split]]].
  - destruct items; [done|]. done.
  - apply list_eq. intros j. rewrite list_lookup_fmap.
    destruct (items !! j) as [item|] eqn:Hitem.
    + apply Hskipped; [|by rewrite Hitems0].
      apply lookup_lt_Some in Hitem. lia.
    + apply lookup_ge_None. rewrite run_length, Hitems0.
      by apply lookup_ge_None.
  - by rewrite calls_of_app, Hcalls.
  - by rewrite notifications_of_app, Hsent.
  - f_equal. lia.
Qed.

Lemma X25_cancel_during_resolution_ends_completed_witness :
  let final := settled (executeMigration impatient_oracle (scenario_migration "rename")
                          (scenario_items "rename")) in
  m_status (e_migration final) = M_completed
  ∧ e_items final = set_i_status I_skipped <$> scenario_items "rename"
  ∧ calls_of (e_trace final) = []
  ∧ notifications_of (e_trace final) = []
  ∧ m_progress (e_migration final)
    = {| p_migrationId := None; p_total := length (scenario_items "rename");
         p_completed := 0; p_failed := 0;
         p_skipped := length (scenario_items "rename"); p_percentage := 100;
         p_currentItem := None |}.
Proof.
  cbn zeta.
  apply (X25_cancel_during_resolution_ends_completed impatient_oracle
           (scenario_migration "rename") (scenario_items "rename")).
  - vm_compute. reflexivity.
  - reflexivity.
  - discriminate.
Defined.

(** X26: only the resolution "rename" changes the name a remote write
    carries.  A write sent for an item whose resolution is anything else
    (none, "overwrite", or any other word, with or without a recorded
    conflict) carries the item's own name when the item is a file or a
    folder, and no name at all when it is a connection. *)
Theorem X26_only_rename_changes_the_name (x : ExecOracle) (migration : Migration)
    (items : list MigrationItem) (k : nat) (item : MigrationItem) (call : RemoteCall) :
  items !! k = Some item →
  Called k call ∈ e_trace (settled (executeMigration x migration items)) →
  resolution_is item "rename" = false →
  call_name call
  = if String.eqb (i_itemType item) "connection" then None else Some (i_name item).
Proof.
  intros Hitem Hcall Hrename.
  apply calls_of_execution in Hcall
    as (tcid & item' & _ & Hitem' & _ & _ & Hdispatch).
  assert (item' = item) as -> by congruence.
  apply dispatch_name in Hdispatch as ->.
  unfold effective_name. rewrite Hrename, andb_false_r.
  by rewrite String.eqb_refl.
Qed.

Lemma X26_only_rename_changes_the_name_witness :
  has_conflict overwrite_file = true
  ∧ Called 0 (CopyDataFile "f1" (Some "dfc-T") "report.csv")
      ∈ e_trace (settled (executeMigration calm_oracle (scenario_migration "overwrite")
                            [overwrite_file]))
  ∧ call_name (CopyDataFile "f1" (Some "dfc-T") "report.csv")
    = Some (i_name overwrite_file).
Proof.
  split; [reflexivity|].
  assert (Called 0 (CopyDataFile "f1" (Some "dfc-T") "report.csv")
            ∈ e_trace (settled (executeMigration calm_oracle
                                  (scenario_migration "overwrite")
                                  [overwrite_file]))) as Hsent.
  { vm_compute. apply (list_elem_of_lookup_2 _ 2). reflexivity. }
  split; [exact Hsent|].
  exact (X26_only_rename_changes_the_name calm_oracle (scenario_migration "overwrite")
           [overwrite_file] 0 overwrite_file _ eq_refl Hsent eq_refl).
Defined.

(** X27: a remote write is sent for an item exactly when the migration is
    not cancelled at the moment the loop reaches the item, the item does
    not carry a conflict with resolution "skip", and its type is one of
    connection, folder and file. *)
Theorem X27_write_sent_exactly_when (x : ExecOracle) (migration : Migration)
    (items : list MigrationItem) (tcid : option string) (k : nat)
    (item : MigrationItem) :
  findDataFilesConnectionId (x_connections x) (m_targetSpaceId migration) = Ok tcid →
  items !! k = Some item →
  (∃ call, Called k call ∈ e_trace (settled (executeMigration x migration items)))
  ↔ m_status (e_migration (state_before x migration items tcid k)) ≠ M_cancelled
    ∧ has_conflict item && resolution_is item "skip" = false
    ∧ known_type (i_itemType item) = true.
Proof.
  intros Htcid Hitem.
  destruct (execution_item x migration items tcid k item Htcid Hitem)
    as (item' & _ & Hcases).
  split.
  - intros [call Hcall].
    destruct Hcases
      as [(_ & _ & Hnone) | [(_ & _ & _ & Hnone) | [(_ & _ & _ & _ & Hnone)
         | (Hrunning & Hskip & call' & Hdispatch & _)]]];
      [by apply Hnone in Hcall..|].
    repeat split; [done..|].
    destruct (known_type (i_itemType item)) eqn:Hknown; [done|].
    apply dispatch_None with (tsid := m_targetSpaceId migration) (tc := tcid)
      (newName := effective_name item (o_dateNow (x_item x k))) in Hknown.
    congruence.
  - intros (Hrunning & Hskip & Hknown).
    destruct Hcases
      as [(? & _) | [(_ & ? & _) | [(_ & _ & Hdispatch & _)
         | (_ & _ & call & _ & Hcall & _)]]]; [congruence..| |by exists call].
    apply dispatch_None in Hdispatch. congruence.
Qed.

Lemma X27_write_sent_exactly_when_witness :
  (∃ call, Called 1 call
           ∈ e_trace (settled (executeMigration calm_oracle (scenario_migration "skip")
                                 (scenario_items "skip"))))
  ∧ ¬ (∃ call, Called 0 call
               ∈ e_trace (settled (executeMigration calm_oracle
                                     (scenario_migration "skip")
                                     (scenario_items "skip")))).
Proof.
  split.
  - apply (X27_write_sent_exactly_when calm_oracle (scenario_migration "skip")
             (scenario_items "skip") (Some "dfc-T") 1 scenario_file eq_refl eq_refl).
    split; [vm_compute; discriminate|]. split; reflexivity.
  - intros Hsent.
    apply (X27_write_sent_exactly_when calm_oracle (scenario_migration "skip")
             (scenario_items "skip") (Some "dfc-T") 0 (scenario_connection "skip")
             eq_refl eq_refl) in Hsent as (_ & Hskip & _).
    discriminate Hskip.
Defined.

(** ** Conflict detection at creation *)

(** X28: the conflicts a successful creation reports are exact, kind by
    kind.  A name is reported exactly when it is the name of a selected
    connection and of a connection listed for the target space, or the
    name of a selected item that is not a connection and the name a data
    file listed for the target space answers to.  (The annotation of the
    items then looks names up in this list without regard to the kind.) *)
Theorem X28_reported_conflicts_are_exact (remote : Remote) (uuid : nat -> string)
    (now : Z) (tenantId : string) (body : CreateBody) (store store' : Store)
    (reply : CreateReply) :
  createMigration remote uuid now tenantId body store = (Json reply, store') →
  ∃ targetSpaceId candidates connections files,
    b_targetSpaceId body = Some targetSpaceId
    ∧ b_items body = Some candidates
    ∧ listConnections remote (Some targetSpaceId) = Ok connections
    ∧ listDataFiles remote targetSpaceId true = Ok files
    ∧ ∀ name,
        name ∈ conflict_name <$> reply_conflicts reply
        ↔ (∃ c q, c ∈ candidates ∧ c_name c = name
                  ∧ c_itemType c = "connection"
                  ∧ q ∈ connections ∧ qName q = name)
          ∨ (∃ c f, c ∈ candidates ∧ c_name c = name
                    ∧ c_itemType c ≠ "connection"
                    ∧ f ∈ files
                    ∧ or_else (df_name f) (df_baseName f) = Some name).
Proof.
  intros (src & tgt & candidates & sourceSpace & targetSpace & allConflicts
          & Hfields & Hresolve & _ & _ & Hconflicts & _)%createMigration_Json.
  apply required_fields_Some in Hfields as (_ & Htgt & Hcandidates & _).
  apply resolve_and_detect_Ok in Hresolve
    as (_ & _ & connConflicts & fileConflicts & Hconn & Hfile & ->).
  unfold checkConnectionConflicts in Hconn. unfold checkFileConflicts in Hfile.
  destruct (listConnections remote (Some tgt)) as [connections|] eqn:Hlisted;
    [|done].
  destruct (listDataFiles remote tgt true) as [files|] eqn:Hfiles; [|done].
  cbn in Hconn, Hfile. injection Hconn as <-. injection Hfile as <-.
  exists tgt, candidates, connections, files.
  split; [done|]. split; [done|]. split; [done|]. split; [done|].
  intros name. rewrite Hconflicts, <- list_fmap_compose. split.
  - intros (name' & -> & Hin)%list_elem_of_fmap. cbn.
    apply elem_of_app in Hin as [Hin | Hin].
    + left. apply elem_of_List_filter in Hin as [Hname Hexists].
      unfold connNames in Hname.
      apply list_elem_of_fmap in Hname as (c & -> & Hc).
      apply elem_of_List_filter in Hc as [Hc Htype].
      apply bool_decide_eq_true, elem_of_list_to_set, list_elem_of_fmap in Hexists
        as (q & Hq & Hqin).
      exists c, q. by apply String.eqb_eq in Htype.
    + right. apply elem_of_List_filter in Hin as [Hname Hexists].
      unfold fileNames in Hname.
      apply list_elem_of_fmap in Hname as (c & -> & Hc).
      apply elem_of_List_filter in Hc as [Hc Htype].
      apply bool_decide_eq_true, elem_of_list_to_set, list_elem_of_omap in Hexists
        as (f & Hf & Hanswers).
      exists c, f. apply negb_true_iff, String.eqb_neq in Htype. done.
  - intros [(c & q & Hc & <- & Htype & Hq & Hname)
           | (c & f & Hc & <- & Htype & Hf & Hname)].
    + apply list_elem_of_fmap. exists (c_name c). split; [done|].
      apply elem_of_app. left. apply elem_of_List_filter. split.
      * unfold connNames. apply list_elem_of_fmap. exists c. split; [done|].
        apply elem_of_List_filter. split; [done|]. by apply String.eqb_eq.
      * apply bool_decide_eq_true, elem_of_list_to_set, list_elem_of_fmap.
        by exists q.
    + apply list_elem_of_fmap. exists (c_name c). split; [done|].
      apply elem_of_app. right. apply elem_of_List_filter. split.
      * unfold fileNames. apply list_elem_of_fmap. exists c. split; [done|].
        apply elem_of_List_filter. split; [done|].
        by apply negb_true_iff, String.eqb_neq.
      * apply bool_decide_eq_true, elem_of_list_to_set, list_elem_of_omap.
        by exists f.
Qed.

Lemma X28_reported_conflicts_are_exact_witness :
  ∃ reply store',
    createMigration remote_file_DB1 sample_uuid 1000 "tenant" body_same_name empty_store
    = (Json reply, store')
    ∧ conflict_name <$> reply_conflicts reply = ["DB1"]
    ∧ ∃ targetSpaceId candidates connections files,
        b_targetSpaceId body_same_name = Some targetSpaceId
        ∧ b_items body_same_name = Some candidates
        ∧ listConnections remote_file_DB1 (Some targetSpaceId) = Ok connections
        ∧ listDataFiles remote_file_DB1 targetSpaceId true = Ok files
        ∧ ∀ name,
            name ∈ conflict_name <$> reply_conflicts reply
            ↔ (∃ c q, c ∈ candidates ∧ c_name c = name
                      ∧ c_itemType c = "connection"
                      ∧ q ∈ connections ∧ qName q = name)
              ∨ (∃ c f, c ∈ candidates ∧ c_name c = name
                        ∧ c_itemType c ≠ "connection"
                        ∧ f ∈ files
                        ∧ or_else (df_name f) (df_baseName f) = Some name).
Proof.
  eexists _, _. split; [vm_compute; reflexivity|]. split; [vm_compute; reflexivity|].
  exact (X28_reported_conflicts_are_exact remote_file_DB1 sample_uuid 1000 "tenant"
           body_same_name empty_store _ _ eq_refl).
Defined.

(** ** Start-up *)

(** X29: [findAvailablePort] tries the ports upwards from its argument,
    one after another, and resolves with the first on which the server
    comes to listen.  It resolves with a port within a given number of
    attempts exactly when, at some distance below that number, listening
    succeeds and reports that port while every port tried before has
    failed; given such a port, any larger number of attempts gives the
    same answer. *)
Theorem X29_findAvailablePort_first_free (listen : nat -> option nat)
    (startPort : nat) (fuel : nat) (port : nat) :
  findAvailablePort fuel listen startPort = Some port
  ↔ ∃ d, d < fuel
         ∧ (∀ j, j < d → listen (startPort + j) = None)
         ∧ listen (startPort + d) = Some port.
Proof.
  revert startPort. induction fuel as [|fuel IH]; intros startPort; simpl.
  - split; [done|]. intros (d & Hd & _). lia.
  - destruct (listen startPort) as [found|] eqn:Hlisten.
    + split.
      * intros [= ->]. exists 0. split; [lia|]. split; [intros; lia|].
        by rewrite Nat.add_0_r.
      * intros ([|d] & _ & Hbefore & Hfound).
        -- rewrite Nat.add_0_r in Hfound. congruence.
        -- specialize (Hbefore 0). rewrite Nat.add_0_r in Hbefore.
           rewrite Hbefore in Hlisten by lia. done.
    + rewrite IH. split.
      * intros (d & Hd & Hbefore & Hfound). exists (S d). split; [lia|]. split.
        -- intros [|j] Hj; [by rewrite Nat.add_0_r|].
           replace (startPort + S j) with (startPort + 1 + j) by lia.
           apply Hbefore. lia.
        -- by replace (startPort + S d) with (startPort + 1 + d) by lia.
      * intros ([|d] & Hd & Hbefore & Hfound).
        -- rewrite Nat.add_0_r in Hfound. congruence.
        -- exists d. split; [lia|]. split.
           ++ intros j Hj.
              replace (startPort + 1 + j) with (startPort + S j) by lia.
              apply Hbefore. lia.
           ++ by replace (startPort + 1 + d) with (startPort + S d) by lia.
Qed.
